(** * EFI Boot Guard: selection of the boot configuration (env/fatvars.c)

    A shallow embedding of [load_config] and of the functions it is made
    of: [config_state_ranking], [sift_envdata_volume],
    [save_current_config] and [read_config].  The firmware services the
    file calls (file protocol, CRC, pool allocation, enumeration of the
    config partitions) are kept abstract in a [Platform]; every call the
    code makes to one of them is recorded in a trace of [Event]s, so that
    what a run writes, and where, can be stated. *)

From Stdlib Require Import ZArith Bool Lia Permutation.
From stdpp Require Import base tactics option list.

Local Open Scope Z_scope.

(** ** Status codes *)

(** [EFI_STATUS] keeps the shape the UEFI headers give it: success, a
    warning code (high bit clear) or an error code (high bit set). *)
Inductive EFI_STATUS : Type :=
| EFI_SUCCESS
| EFI_WARN (code : Z)
| EFI_ERR (code : Z).

Definition EFI_INVALID_PARAMETER : EFI_STATUS := EFI_ERR 2.
Definition EFI_BAD_BUFFER_SIZE : EFI_STATUS := EFI_ERR 4.
Definition EFI_OUT_OF_RESOURCES : EFI_STATUS := EFI_ERR 9.
Definition EFI_CRC_ERROR : EFI_STATUS := EFI_ERR 27.

Definition EFI_ERROR (s : EFI_STATUS) : bool :=
  match s with
  | EFI_ERR _ => true
  | _ => false
  end.

Inductive BG_STATUS : Type :=
| BG_SUCCESS
| BG_CONFIG_ERROR
| BG_CONFIG_PARTIALLY_CORRUPTED
| BG_NOT_IMPLEMENTED.

(** Open modes of the file protocol, a bit mask. *)
Definition EFI_FILE_MODE_READ : Z := 1.
Definition EFI_FILE_MODE_WRITE : Z := 2.

(** ** The environment record *)

(** Modelled from the spec: the [USTATE_*] constants of envdata.h, which
    is not among the sources.  The update state is one of OK, INSTALLED,
    TESTING, FAILED, or unknown: a stored value that is none of the
    four, kept as its distance [over] from the first value after them,
    so that no value of the type stands for a named state twice. *)
Inductive USTATE : Type :=
| USTATE_OK
| USTATE_INSTALLED
| USTATE_TESTING
| USTATE_FAILED
| USTATE_other (over : N).

(** Modelled from the spec: [BG_ENVDATA] of envdata.h, which is not among
    the sources.  The fields are those of the data model: two fixed-length
    strings of 16-bit code units, the boolean [in_progress], the update
    state, the watchdog timeout, the revision and the trailing checksum. *)
Record BG_ENVDATA : Type := {
  kernelfile : list Z;
  kernelparams : list Z;
  in_progress : bool;
  ustate : USTATE;
  watchdog_timeout_sec : Z;
  revision : Z;
  crc32 : Z
}.

(** The failed revision is the zero revision ("mark it as failed by giving
    a zero-revision", [load_config]). *)
Definition REVISION_FAILED : Z := 0.

Definition set_kernelfile (s : list Z) (e : BG_ENVDATA) : BG_ENVDATA :=
  {| kernelfile := s; kernelparams := kernelparams e;
     in_progress := in_progress e; ustate := ustate e;
     watchdog_timeout_sec := watchdog_timeout_sec e;
     revision := revision e; crc32 := crc32 e |}.

Definition set_kernelparams (s : list Z) (e : BG_ENVDATA) : BG_ENVDATA :=
  {| kernelfile := kernelfile e; kernelparams := s;
     in_progress := in_progress e; ustate := ustate e;
     watchdog_timeout_sec := watchdog_timeout_sec e;
     revision := revision e; crc32 := crc32 e |}.

Definition set_ustate (u : USTATE) (e : BG_ENVDATA) : BG_ENVDATA :=
  {| kernelfile := kernelfile e; kernelparams := kernelparams e;
     in_progress := in_progress e; ustate := u;
     watchdog_timeout_sec := watchdog_timeout_sec e;
     revision := revision e; crc32 := crc32 e |}.

Definition set_revision (r : Z) (e : BG_ENVDATA) : BG_ENVDATA :=
  {| kernelfile := kernelfile e; kernelparams := kernelparams e;
     in_progress := in_progress e; ustate := ustate e;
     watchdog_timeout_sec := watchdog_timeout_sec e;
     revision := r; crc32 := crc32 e |}.

Definition set_crc32 (c : Z) (e : BG_ENVDATA) : BG_ENVDATA :=
  {| kernelfile := kernelfile e; kernelparams := kernelparams e;
     in_progress := in_progress e; ustate := ustate e;
     watchdog_timeout_sec := watchdog_timeout_sec e;
     revision := revision e; crc32 := c |}.

(** The bytes a checksum covers are all of the record but its trailing
    [crc32] field: the record with that field blanked stands for them. *)
Definition crc_region (e : BG_ENVDATA) : BG_ENVDATA := set_crc32 0 e.

(** [struct EnvDataVolume] *)
Record EnvDataVolume : Type := {
  volume_index : nat;
  envdata : BG_ENVDATA
}.

Definition set_volume_index (i : nat) (s : EnvDataVolume) : EnvDataVolume :=
  {| volume_index := i; envdata := envdata s |}.

Definition set_envdata (e : BG_ENVDATA) (s : EnvDataVolume) : EnvDataVolume :=
  {| volume_index := volume_index s; envdata := e |}.

(** [VOLUME_DESC]: the two members the file uses, both pointers, kept as
    addresses. *)
Record VOLUME_DESC : Type := {
  devpath : Z;
  root : Z
}.

(** [BG_LOADER_PARAMS]: the strings are pointers, [None] is [NULL]. *)
Record BG_LOADER_PARAMS : Type := {
  payload_path : option (list Z);
  payload_options : option (list Z);
  timeout : Z
}.

(** ** The platform *)

(** The services [load_config] calls and the build constants it reads,
    none of which is defined in fatvars.c.  A service takes the state of
    the firmware and returns its result with the new state. *)
Record Platform (World : Type) : Type := {
  ENV_STRING_LENGTH : nat;
  ENV_NUM_CONFIG_PARTS : nat;
  sizeof_BG_ENVDATA : Z;
  IsOnBootVolume : Z -> bool;
  (* [true] when the returned pointer is not NULL *)
  AllocatePool : Z -> World -> bool * World;
  (* the status and the indices written to [config_volumes]; their number
     is the updated [numHandles] *)
  enumerate_cfg_parts :
    (nat -> VOLUME_DESC) -> nat -> World -> (EFI_STATUS * list nat) * World;
  filter_cfg_parts :
    (nat -> VOLUME_DESC) -> list nat -> World -> list nat * World;
  (* root, mode: status and new handle *)
  open_cfg_file : Z -> Z -> World -> (EFI_STATUS * Z) * World;
  (* handle, size of the buffer, the buffer as it was: status, size read,
     the buffer as it is left *)
  read_cfg_file :
    Z -> Z -> BG_ENVDATA -> World -> (EFI_STATUS * Z * BG_ENVDATA) * World;
  (* handle, size to write, the buffer: status, size written *)
  file_Write : Z -> Z -> BG_ENVDATA -> World -> (EFI_STATUS * Z) * World;
  (* root, handle *)
  close_cfg_file : Z -> Z -> World -> EFI_STATUS * World;
  (* the covered region, its size: status and checksum *)
  CalculateCrc32 : BG_ENVDATA -> Z -> World -> (EFI_STATUS * Z) * World
}.

Arguments ENV_STRING_LENGTH {World} _.
Arguments ENV_NUM_CONFIG_PARTS {World} _.
Arguments sizeof_BG_ENVDATA {World} _.
Arguments IsOnBootVolume {World} _ _.
Arguments AllocatePool {World} _ _ _.
Arguments enumerate_cfg_parts {World} _ _ _ _.
Arguments filter_cfg_parts {World} _ _ _ _.
Arguments open_cfg_file {World} _ _ _ _.
Arguments read_cfg_file {World} _ _ _ _ _.
Arguments file_Write {World} _ _ _ _ _.
Arguments close_cfg_file {World} _ _ _ _.
Arguments CalculateCrc32 {World} _ _ _ _.

(** One entry per call of a service, with its arguments and its result;
    a buffer argument is entered as the record it points into, whatever
    part of it the size given with it covers. *)
Inductive Event : Type :=
| EvAllocatePool (size : Z) (ok : bool)
| EvEnumerate (st : EFI_STATUS) (found : list nat)
| EvFilter (kept : list nat)
| EvOpen (root mode : Z) (st : EFI_STATUS) (fh : Z)
| EvRead (fh readlen : Z) (st : EFI_STATUS) (got : Z)
| EvWrite (fh writelen : Z) (buf : BG_ENVDATA) (st : EFI_STATUS) (put : Z)
| EvClose (root fh : Z) (st : EFI_STATUS)
| EvCrc32 (buf : BG_ENVDATA) (size : Z) (st : EFI_STATUS) (crc : Z)
| EvFreePool.

(** ** A state monad over the firmware state and the trace *)

Definition M (World A : Type) : Type :=
  World * list Event -> A * (World * list Event).

Definition M_ret {World A} (a : A) : M World A := fun s => (a, s).

Definition M_bind {World A B} (f : A -> M World B) (c : M World A)
  : M World B :=
  fun s => let (a, s') := c s in f a s'.

#[global] Instance M_mret {World} : MRet (M World) := @M_ret World.
#[global] Instance M_mbind {World} : MBind (M World) := @M_bind World.

(** Call a service and record the call. *)
Definition call {World A} (op : World -> A * World) (ev : A -> Event)
  : M World A :=
  fun s => let (a, w') := op (fst s) in (a, (w', snd s ++ [ev a])).

Definition emit {World} (e : Event) : M World unit :=
  fun s => (tt, (fst s, snd s ++ [e])).

(** ** fatvars.c *)

(** [StrDuplicate]: the code units up to and including the first NUL. *)
Fixpoint StrDuplicate (src : list Z) : list Z :=
  match src with
  | [] => []
  | c :: rest => if c =? 0 then [0] else c :: StrDuplicate rest
  end.

Definition is_USTATE_TESTING (u : USTATE) : bool :=
  match u with USTATE_TESTING => true | _ => false end.

Definition is_USTATE_INSTALLED (u : USTATE) : bool :=
  match u with USTATE_INSTALLED => true | _ => false end.

(** [const unsigned ENVSLOTS = 3] *)
Definition ENVSLOTS : nat := 3.

(** [config_state_ranking]: [unsigned rank = -1] wraps to [UINT_MAX]. *)
Definition config_state_ranking (envdata : option BG_ENVDATA) : Z :=
  let rank := (-1) mod 2 ^ 32 in
  match envdata with
  | Some e =>
      match ustate e with
      | USTATE_INSTALLED => 0
      | USTATE_TESTING => 1
      | USTATE_OK => 2
      | _ => 3
      end
  | None => rank
  end.

(** The state of the loading loop of [load_config].  A pointer to a slot
    of [env] is held by exactly one entry of [rank_envdata] or is still in
    the reserve [rsrv_envdata], so an entry of [rank_envdata] is the slot
    it points to, or [None] for [NULL]; [rsrv_envdata] is never written,
    entry [i] is [env + i], and [envrsrv] is the number of entries not
    yet handed out. *)
Record LoadState : Type := {
  rank_envdata : list (option EnvDataVolume);
  envrsrv : nat;
  errored : bool
}.

Section Model.
Context {World : Type} (P : Platform World).

(** The globals [volumes] and [volume_count], and the contents the
    automatic array [env] happens to start with. *)
Variable volumes : nat -> VOLUME_DESC.
Variable volume_count : nat.
Variable env : nat -> EnvDataVolume.

(** [sift_envdata_volume]: the pair [( *lhsp, *rhsp )] it leaves. *)
Definition sift_envdata_volume (lhs rhs : option EnvDataVolume)
  : option EnvDataVolume * option EnvDataVolume :=
  let lstaterank := config_state_ranking (envdata <$> lhs) in
  let rstaterank := config_state_ranking (envdata <$> rhs) in
  let swap :=
    match rhs with
    | None => false
    | Some r =>
        match lhs with
        | None => true
        | Some l =>
            let lbootvolume :=
              Z.b2z (IsOnBootVolume P
                       (devpath (volumes (volume_index l)))) in
            let rbootvolume :=
              Z.b2z (IsOnBootVolume P
                       (devpath (volumes (volume_index r)))) in
            let lprogress := Z.b2z (in_progress (envdata l)) in
            let rprogress := Z.b2z (in_progress (envdata r)) in
            if negb (lprogress =? rprogress) then
              lprogress >? rprogress
            else if negb (revision (envdata l) =? revision (envdata r)) then
              revision (envdata l) <? revision (envdata r)
            else if negb (lstaterank =? rstaterank) then
              lstaterank >? rstaterank
            else if negb (lbootvolume =? rbootvolume) then
              lbootvolume <? rbootvolume
            else if negb (volume_index l =? volume_index r)%nat then
              (volume_index r <? volume_index l)%nat
            else false
        end
    end in
  if swap then (rhs, lhs) else (lhs, rhs).

(** [sift_envdata_volume(envrank+0, envrank+1)] on the array. *)
Definition sift_at (envrank : nat) (rank : list (option EnvDataVolume))
  : list (option EnvDataVolume) :=
  let '(l, r) :=
    sift_envdata_volume (rank !!! envrank) (rank !!! S envrank) in
  <[envrank := l]> (<[S envrank := r]> rank).

(** [do { --envrank; sift(...); } while (envrank != rank_envdata)],
    entered with [envrank] at the slot just read. *)
Fixpoint sift_loop (envrank : nat) (rank : list (option EnvDataVolume))
  : list (option EnvDataVolume) :=
  match envrank with
  | O => rank
  | S k =>
      let rank' := sift_at k rank in
      match k with
      | O => rank'
      | S _ => sift_loop k rank'
      end
  end.

(** [save_current_config]: the status and the slot as the call leaves
    it (its [crc32] is assigned before the write). *)
Definition save_current_config (e : EnvDataVolume)
  : M World (BG_STATUS * EnvDataVolume) :=
  let v := volumes (volume_index e) in
  '(efistatus, fh) ←
    call (open_cfg_file P (root v)
            (Z.lor EFI_FILE_MODE_WRITE EFI_FILE_MODE_READ))
         (fun r => EvOpen (root v)
            (Z.lor EFI_FILE_MODE_WRITE EFI_FILE_MODE_READ) r.1 r.2);
  if EFI_ERROR efistatus then mret (BG_CONFIG_ERROR, e)
  else
    let region := crc_region (envdata e) in
    let size := sizeof_BG_ENVDATA P - 4 in
    '(efistatus, crc) ←
      call (CalculateCrc32 P region size)
           (fun r => EvCrc32 (envdata e) size r.1 r.2);
    '(efistatus, e) ←
      (if negb (EFI_ERROR efistatus) then
         let writelen := sizeof_BG_ENVDATA P in
         let e := set_envdata (set_crc32 crc (envdata e)) e in
         '(efistatus, _) ←
           call (file_Write P fh writelen (envdata e))
                (fun r => EvWrite fh writelen (envdata e) r.1 r.2);
         mret (efistatus, e)
       else mret (efistatus, e));
    if EFI_ERROR efistatus then
      _ ← call (close_cfg_file P (root v) fh) (EvClose (root v) fh);
      mret (BG_CONFIG_ERROR, e)
    else
      closed ← call (close_cfg_file P (root v) fh) (EvClose (root v) fh);
      if EFI_ERROR closed then mret (BG_CONFIG_ERROR, e)
      else mret (BG_SUCCESS, e).

(** [read_config]: the flag [*errored], the status and the buffer
    [*envdata] as the call leaves them. *)
Definition read_config (errored : bool) (volume : VOLUME_DESC)
    (envdata : BG_ENVDATA) : M World (bool * EFI_STATUS * BG_ENVDATA) :=
  '(result, fh) ←
    call (open_cfg_file P (root volume) EFI_FILE_MODE_READ)
         (fun r => EvOpen (root volume) EFI_FILE_MODE_READ r.1 r.2);
  if EFI_ERROR result then mret (true, result, envdata)
  else
    let readlen := sizeof_BG_ENVDATA P in
    '(result, readlen', envdata) ←
      call (read_cfg_file P fh readlen envdata)
           (fun r => EvRead fh readlen r.1.1 r.1.2);
    closed ← call (close_cfg_file P (root volume) fh)
                  (EvClose (root volume) fh);
    let errored := if EFI_ERROR closed then true else errored in
    if EFI_ERROR result then mret (true, result, envdata)
    else if negb (readlen' =? sizeof_BG_ENVDATA P) then
      mret (true, EFI_BAD_BUFFER_SIZE, envdata)
    else
      let region := crc_region envdata in
      let size := sizeof_BG_ENVDATA P - 4 in
      '(result, crc) ←
        call (CalculateCrc32 P region size)
             (fun r => EvCrc32 envdata size r.1 r.2);
      if EFI_ERROR result then mret (true, result, envdata)
      else if negb (crc =? crc32 envdata) then
        mret (true, EFI_CRC_ERROR, envdata)
      else mret (errored, result, envdata).

(** "enforce NUL-termination of strings" *)
Definition nul_terminate (e : BG_ENVDATA) : BG_ENVDATA :=
  let last := (ENV_STRING_LENGTH P - 1)%nat in
  set_kernelparams (<[last := 0]> (kernelparams e))
    (set_kernelfile (<[last := 0]> (kernelfile e)) e).

(** One round of the loop [for (ix = 0; ix < numHandles; ix++)], for
    the volume index [config_volumes[ix]], up to [continue]: the status
    of the read and the state, with the slot just read in the last
    entry of [rank_envdata]. *)
Definition read_volume (st : LoadState) (config_volume : nat)
  : M World (EFI_STATUS * LoadState) :=
  let envrank := (ENVSLOTS - 1)%nat in
  (* if (!*--envrank) *envrank = *--envrsrv; *)
  let '(slot, reserve) :=
    match rank_envdata st !!! envrank with
    | Some s => (s, envrsrv st)
    | None => (env (envrsrv st - 1)%nat, (envrsrv st - 1)%nat)
    end in
  let slot := set_volume_index config_volume slot in
  '(read_error, read_status, buf) ←
    read_config false (volumes (volume_index slot)) (envdata slot);
  mret (read_status,
        {| rank_envdata :=
             <[envrank := Some (set_envdata buf slot)]> (rank_envdata st);
           envrsrv := reserve;
           errored := errored st || read_error |}).

Definition terminate_slot (slot : EnvDataVolume) : EnvDataVolume :=
  set_envdata (nul_terminate (envdata slot)) slot.

(** The rest of the round: the strings of the slot just read are
    terminated and the slot is sifted towards the front. *)
Definition rank_volume (st : LoadState) : LoadState :=
  let envrank := (ENVSLOTS - 1)%nat in
  let terminated := terminate_slot <$> (rank_envdata st !!! envrank) in
  {| rank_envdata :=
       sift_loop envrank (<[envrank := terminated]> (rank_envdata st));
     envrsrv := envrsrv st;
     errored := errored st |}.

Definition load_volume (st : LoadState) (config_volume : nat)
  : M World LoadState :=
  '(read_status, st) ← read_volume st config_volume;
  if EFI_ERROR read_status then mret st
  else mret (rank_volume st).

Fixpoint load_volumes (st : LoadState) (config_volumes : list nat)
  : M World LoadState :=
  match config_volumes with
  | [] => mret st
  | config_volume :: rest =>
      st' ← load_volume st config_volume;
      load_volumes st' rest
  end.

(** The assignments to [*bglp] and the verdict that end [load_config]. *)
Definition hand_over (errored : bool) (latest : EnvDataVolume)
  : BG_STATUS * BG_LOADER_PARAMS :=
  (if errored then BG_CONFIG_PARTIALLY_CORRUPTED else BG_SUCCESS,
   {| payload_path := Some (StrDuplicate (kernelfile (envdata latest)));
      payload_options :=
        Some (StrDuplicate (kernelparams (envdata latest)));
      timeout := watchdog_timeout_sec (envdata latest) |}).

(** [failed:] the index vector is released, [*bglp] is as it was. *)
Definition failed (bglp : BG_LOADER_PARAMS)
  : M World (BG_STATUS * BG_LOADER_PARAMS) :=
  _ ← emit EvFreePool;
  mret (BG_CONFIG_ERROR, bglp).

(** [load_config] from [struct EnvDataVolume *next = rank_envdata[0]]
    on. *)
Definition choose_config (st : LoadState) (bglp : BG_LOADER_PARAMS)
  : M World (BG_STATUS * BG_LOADER_PARAMS) :=
  let next := rank_envdata st !!! 0%nat in
  let prev := rank_envdata st !!! 1%nat in
  match next with
  | None => failed bglp
  | Some next =>
      if in_progress (envdata next) then failed bglp
      else
        let latest := next in
        if is_USTATE_TESTING (ustate (envdata latest)) then
          let latest :=
            set_envdata
              (set_revision REVISION_FAILED
                 (set_ustate USTATE_FAILED (envdata latest))) latest in
          _ ← save_current_config latest;
          match prev with
          | None => failed bglp
          | Some prev =>
              _ ← emit EvFreePool;
              mret (hand_over (errored st) prev)
          end
        else if is_USTATE_INSTALLED (ustate (envdata latest)) then
          let latest :=
            set_envdata (set_ustate USTATE_TESTING (envdata latest))
              latest in
          '(_, latest) ← save_current_config latest;
          _ ← emit EvFreePool;
          mret (hand_over (errored st) latest)
        else
          _ ← emit EvFreePool;
          mret (hand_over (errored st) latest)
  end.

(** [load_config] up to the loading loop: the state the loop starts
    in and the indices in [config_volumes], or [None] when the function
    leaves for [failed:]. *)
Definition config_partitions : M World (option (LoadState * list nat)) :=
  let st :=
    {| rank_envdata := replicate ENVSLOTS None;
       envrsrv := ENVSLOTS; errored := false |} in
  if (volume_count =? 0)%nat then mret None
  else
    let size := 8 * Z.of_nat volume_count in
    allocated ← call (AllocatePool P size) (EvAllocatePool size);
    if negb allocated then mret None
    else
      '(status, config_volumes) ←
        call (enumerate_cfg_parts P volumes volume_count)
             (fun r => EvEnumerate r.1 r.2);
      if EFI_ERROR status then mret None
      else
        config_volumes ←
          call (filter_cfg_parts P volumes config_volumes) EvFilter;
        let numHandles := length config_volumes in
        let st :=
          if negb (numHandles =? ENV_NUM_CONFIG_PARTS P)%nat
          then {| rank_envdata := rank_envdata st;
                  envrsrv := envrsrv st; errored := true |}
          else st in
        mret (Some (st, config_volumes)).

(** [load_config] up to the end of the loading loop. *)
Definition rank_configs : M World (option LoadState) :=
  found ← config_partitions;
  match found with
  | None => mret None
  | Some (st, config_volumes) =>
      st ← load_volumes st config_volumes;
      mret (Some st)
  end.

(** [load_config]: the verdict and [*bglp] as the call leaves it. *)
Definition load_config (bglp : BG_LOADER_PARAMS)
  : M World (BG_STATUS * BG_LOADER_PARAMS) :=
  ranked ← rank_configs;
  match ranked with
  | None => failed bglp
  | Some st => choose_config st bglp
  end.

(** [save_config] *)
Definition save_config (bglp : BG_LOADER_PARAMS) : BG_STATUS :=
  BG_NOT_IMPLEMENTED.

End Model.

(** ** The test doubles of the unit test of fatvars.c

    The platform the repository's own test builds: every service may be
    made to fail by error injection, a volume's config file holds the
    record of the scenario attached to the volume's root, and the last
    record written is captured. *)
Module Harness.

Record World : Type := {
  error_census : nat;
  error_injection : nat;
  config_file_protocol_wrote : BG_ENVDATA
}.

(** [INJECT_ERROR()]: [true] when the error is injected here. *)
Definition INJECT_ERROR (w : World) : bool * World :=
  match error_injection w with
  | O =>
      (false, {| error_census := S (error_census w);
                 error_injection := 0;
                 config_file_protocol_wrote :=
                   config_file_protocol_wrote w |})
  | S O =>
      (true, {| error_census := error_census w;
                error_injection := 0;
                config_file_protocol_wrote :=
                  config_file_protocol_wrote w |})
  | S n =>
      (false, {| error_census := S (error_census w);
                 error_injection := n;
                 config_file_protocol_wrote :=
                   config_file_protocol_wrote w |})
  end.

(** The addresses of the three static device paths. *)
Definition boot_volume : Z := 1.
Definition non_boot_volume : Z := 2.
Definition non_boot_disk : Z := 3.

(** The global [volumes] as the test allocates it, from the list of its
    descriptors; a slot past the end reads as a zeroed descriptor. *)
Definition volume_array (vs : list VOLUME_DESC) (vx : nat) : VOLUME_DESC :=
  nth vx vs {| devpath := 0; root := 0 |}.

Section Doubles.
(** The build constants, the checksum [bgenv_crc32(0, ., .)] of a
    covered region, and the record [scenario->envdata] ([None] when it
    is [NULL]) behind a volume root or a handle opened from it: the
    handle [volume_file_protocol_open] allocates carries the scenario
    of the root, and is given the root's address here. *)
Variable string_length num_config_parts : nat.
Variable size_of_envdata : Z.
Variable bgenv_crc32 : BG_ENVDATA -> Z.
Variable scenario : Z -> option BG_ENVDATA.

Definition IsOnBootVolume (dp : Z) : bool := dp =? boot_volume.

Definition AllocatePool (size : Z) (w : World) : bool * World :=
  let (injected, w) := INJECT_ERROR w in (negb injected, w).

Definition CalculateCrc32 (pt : BG_ENVDATA) (size : Z) (w : World)
  : (EFI_STATUS * Z) * World :=
  let (injected, w) := INJECT_ERROR w in
  if injected then ((EFI_INVALID_PARAMETER, (-1) mod 2 ^ 32), w)
  else ((EFI_SUCCESS, bgenv_crc32 pt), w).

Definition enumerate_cfg_parts (volumes : nat -> VOLUME_DESC)
    (volume_count : nat) (w : World) : (EFI_STATUS * list nat) * World :=
  let (injected, w) := INJECT_ERROR w in
  if injected then ((EFI_INVALID_PARAMETER, []), w)
  else
    ((EFI_SUCCESS,
      filter (fun vx => root (volumes vx) ≠ 0) (seq 0 volume_count)), w).

Definition filter_cfg_parts (volumes : nat -> VOLUME_DESC)
    (config_volumes : list nat) (w : World) : list nat * World :=
  (filter (fun vx => devpath (volumes vx) ≠ non_boot_disk)
     config_volumes, w).

(** Modelled from the spec: [open_cfg_file], [read_cfg_file] and
    [close_cfg_file] of syspart.c, which is not among the sources:
    file I/O over a single well-known path, here the [Open] and
    [Close] members of the volume root and the [Read] member of the
    opened file. *)
Definition volume_file_protocol_open (File mode : Z) (w : World)
  : (EFI_STATUS * Z) * World :=
  let (injected, w) := INJECT_ERROR w in
  if injected then ((EFI_INVALID_PARAMETER, 0), w)
  else ((EFI_SUCCESS, File), w).

Definition volume_file_protocol_close (root File : Z) (w : World)
  : EFI_STATUS * World :=
  let (injected, w) := INJECT_ERROR w in
  if injected then (EFI_INVALID_PARAMETER, w) else (EFI_SUCCESS, w).

Definition config_file_protocol_read (File BufferSize : Z)
    (Buffer : BG_ENVDATA) (w : World)
  : (EFI_STATUS * Z * BG_ENVDATA) * World :=
  let (injected, w) := INJECT_ERROR w in
  if injected then ((EFI_INVALID_PARAMETER, BufferSize, Buffer), w)
  else
    match scenario File with
    | Some envdata =>
        if size_of_envdata >? BufferSize
        then ((EFI_SUCCESS, 0, Buffer), w)
        else ((EFI_SUCCESS, size_of_envdata, envdata), w)
    | None => ((EFI_SUCCESS, 0, Buffer), w)
    end.

Definition config_file_protocol_write (File BufferSize : Z)
    (Buffer : BG_ENVDATA) (w : World) : (EFI_STATUS * Z) * World :=
  let (injected, w) := INJECT_ERROR w in
  if injected then ((EFI_INVALID_PARAMETER, BufferSize), w)
  else if BufferSize =? size_of_envdata then
    ((if BufferSize =? 0 then EFI_BAD_BUFFER_SIZE else EFI_SUCCESS,
      BufferSize),
     {| error_census := error_census w;
        error_injection := error_injection w;
        config_file_protocol_wrote := Buffer |})
  else ((EFI_BAD_BUFFER_SIZE, 0), w).

Definition platform : Platform World :=
  Build_Platform World
    string_length num_config_parts size_of_envdata
    IsOnBootVolume AllocatePool enumerate_cfg_parts filter_cfg_parts
    volume_file_protocol_open config_file_protocol_read
    config_file_protocol_write volume_file_protocol_close
    CalculateCrc32.

(** The record a volume is loaded with in a run without injected error,
    on the device path of the volume: there is a record behind the
    volume and its stored checksum is the computed one. *)
Definition record_of (v : VOLUME_DESC) : option (BG_ENVDATA * Z) :=
  match scenario (root v) with
  | Some e =>
      if bgenv_crc32 (crc_region e) =? crc32 e
      then Some (nul_terminate platform e, devpath v)
      else None
  | None => None
  end.

(** The candidate a volume contributes to such a run: the volume has a
    root and is not on the other disk. *)
Definition candidate_of (v : VOLUME_DESC) : option (BG_ENVDATA * Z) :=
  if decide (root v ≠ 0) then
    if decide (devpath v ≠ non_boot_disk) then record_of v else None
  else None.

(** What the doubles answer for a volume in a run without injected
    error: a volume is a config volume when it has a root and is not on
    the other disk, and its load gives the record behind it when the
    stored checksum of that record is the computed one. *)
Definition is_config_volume (v : VOLUME_DESC) : bool :=
  bool_decide (root v ≠ 0 /\ devpath v ≠ non_boot_disk).

Definition valid_record (v : VOLUME_DESC) : option BG_ENVDATA :=
  match scenario (root v) with
  | Some e => if bgenv_crc32 (crc_region e) =? crc32 e then Some e else None
  | None => None
  end.

End Doubles.

End Harness.

(** ** Scenarios of the unit test *)
Module Fixtures.

(** A string literal in an array of [ENV_STRING_LENGTH] code units. *)
Definition L (s : list Z) : list Z := s ++ replicate (255 - length s) 0.

(** The value a state is stored as: the named states take 0 to 3 in the
    order OK, INSTALLED, TESTING, FAILED, so that zeroed memory reads as
    OK, and the other values follow. *)
Definition ustate_code (u : USTATE) : Z :=
  match u with
  | USTATE_OK => 0
  | USTATE_INSTALLED => 1
  | USTATE_TESTING => 2
  | USTATE_FAILED => 3
  | USTATE_other over => 4 + Z.of_N over
  end.

(** The checksum of the scenarios.  The selection never looks into a
    checksum, it compares the stored one with the computed one; a
    polynomial hash of the covered fields stands for the CRC-32. *)
Definition bgenv_crc32 (e : BG_ENVDATA) : Z :=
  fold_left (fun acc c => (acc * 31 + c) mod 2 ^ 32)
    (kernelfile e ++ kernelparams e ++
     [Z.b2z (in_progress e); ustate_code (ustate e);
      watchdog_timeout_sec e; revision e])
    0.

(** [envdata_init] *)
Definition envdata_init (e : BG_ENVDATA) : BG_ENVDATA :=
  set_crc32 (bgenv_crc32 (crc_region e)) e.

Definition record (rev : Z) (progress : bool) (u : USTATE) (wdog : Z)
    (file : list Z) : BG_ENVDATA :=
  envdata_init
    {| kernelfile := L file; kernelparams := L [];
       in_progress := progress; ustate := u;
       watchdog_timeout_sec := wdog; revision := rev; crc32 := 0 |}.

(** Roots are the addresses 101, 102, ...; the scenario attached to a
    root is the record at its place in [records]. *)
Definition scenario_of (records : list (option BG_ENVDATA)) (r : Z)
  : option BG_ENVDATA :=
  if r <? 101 then None
  else mjoin (records !! Z.to_nat (r - 101)).

Definition platform (records : list (option BG_ENVDATA))
  : Platform Harness.World :=
  Harness.platform 255 2 1032 bgenv_crc32 (scenario_of records).

(** Memory filled with zero bytes: what the static record the test
    captures writes in starts as, and what the runs of the scenarios
    take the slots of [env] to hold at first (a slot is written by the
    read before it is looked at).  The state stored as 0 is OK. *)
Definition zeroed : BG_ENVDATA :=
  {| kernelfile := L []; kernelparams := L [];
     in_progress := false; ustate := USTATE_OK;
     watchdog_timeout_sec := 0; revision := 0; crc32 := 0 |}.

Definition world (injection : nat) : Harness.World :=
  {| Harness.error_census := 0;
     Harness.error_injection := injection;
     Harness.config_file_protocol_wrote := zeroed |}.

Definition no_slots (i : nat) : EnvDataVolume :=
  {| volume_index := 0; envdata := zeroed |}.

Definition bglp0 : BG_LOADER_PARAMS :=
  {| payload_path := None; payload_options := None; timeout := 0 |}.

(** A run of [load_config] over the listed volumes, with the error
    injected at the given injection point (0: none). *)
Definition run (records : list (option BG_ENVDATA))
    (vs : list VOLUME_DESC) (injection : nat)
  : (BG_STATUS * BG_LOADER_PARAMS) * (Harness.World * list Event) :=
  load_config (platform records) (Harness.volume_array vs) (length vs)
    no_slots bglp0 (world injection, []).

(** "kernelparams", "first", "second" *)
Definition str_kernelparams : list Z :=
  [107; 101; 114; 110; 101; 108; 112; 97; 114; 97; 109; 115].
Definition str_first : list Z := [102; 105; 114; 115; 116].
Definition str_second : list Z := [115; 101; 99; 111; 110; 100].

(** Two config partitions, as [create_test_volumes] makes them, and the
    same two in the other order. *)
Definition two_volumes : list VOLUME_DESC :=
  [{| devpath := 0; root := 101 |}; {| devpath := 0; root := 102 |}].
Definition two_volumes_shuffled : list VOLUME_DESC :=
  [{| devpath := 0; root := 102 |}; {| devpath := 0; root := 101 |}].

(** [load_config_num_cfg_parts]: revisions 2 and 1, both OK.  The test
    designates [.kernelfile] twice, so that the kernel file of [active]
    is the second string, "kernelparams". *)
Definition active : BG_ENVDATA :=
  record 2 false USTATE_OK 11 str_kernelparams.
Definition inactive : BG_ENVDATA := record 1 false USTATE_OK 99 [].
Definition num_cfg_parts : list (option BG_ENVDATA) :=
  [Some active; Some inactive].

(** [load_config_rank_ustate], first and second step: INSTALLED before
    TESTING, TESTING before OK, at one revision. *)
Definition rank_ustate_installed : list (option BG_ENVDATA) :=
  [Some (record 1 false USTATE_INSTALLED 0 str_first);
   Some (record 1 false USTATE_TESTING 0 str_second)].
Definition rank_ustate_testing : list (option BG_ENVDATA) :=
  [Some (record 1 false USTATE_TESTING 0 str_first);
   Some (record 1 false USTATE_OK 0 str_second)].

(** [load_config_rank_inprogress]: the newer record is in progress. *)
Definition rank_inprogress : list (option BG_ENVDATA) :=
  [Some (record 2 true USTATE_OK 11 []);
   Some (record 1 false USTATE_OK 99 [])].

(** [load_config_rank_bootvolume] and [load_config_rank_volumeindex]: two
    records that differ in the timeout only, the first on the boot
    volume and the second not, or both on it. *)
Definition rank_equal : list (option BG_ENVDATA) :=
  [Some (record 1 false USTATE_OK 11 []);
   Some (record 1 false USTATE_OK 99 [])].
Definition boot_and_other : list VOLUME_DESC :=
  [{| devpath := Harness.boot_volume; root := 101 |};
   {| devpath := Harness.non_boot_volume; root := 102 |}].
Definition other_and_boot : list VOLUME_DESC :=
  [{| devpath := Harness.non_boot_volume; root := 102 |};
   {| devpath := Harness.boot_volume; root := 101 |}].
Definition both_boot : list VOLUME_DESC :=
  [{| devpath := Harness.boot_volume; root := 101 |};
   {| devpath := Harness.boot_volume; root := 102 |}].
Definition both_boot_shuffled : list VOLUME_DESC :=
  [{| devpath := Harness.boot_volume; root := 102 |};
   {| devpath := Harness.boot_volume; root := 101 |}].

(** [load_config_fail_inprogress]: one record in progress behind both
    volumes. *)
Definition fail_inprogress : list (option BG_ENVDATA) :=
  [Some (record 1 true USTATE_OK 11 []);
   Some (record 1 true USTATE_OK 11 [])].


(** A record under test at the higher revision, and an older record
    whose write is still in progress. *)
Definition testing_before_inprogress : list (option BG_ENVDATA) :=
  [Some (record 2 false USTATE_TESTING 11 str_first);
   Some (record 1 true USTATE_OK 99 str_second)].

(** The state and the trace the ranking of a scenario ends in. *)
Definition ranking (records : list (option BG_ENVDATA))
    (vs : list VOLUME_DESC) (injection : nat)
  : option LoadState * (Harness.World * list Event) :=
  rank_configs (platform records) (Harness.volume_array vs) (length vs)
    no_slots (world injection, []).

Definition ranked (records : list (option BG_ENVDATA))
    (vs : list VOLUME_DESC) (injection : nat) : LoadState :=
  default {| rank_envdata := []; envrsrv := 0; errored := false |}
    (ranking records vs injection).1.

Definition leader_of (st : LoadState) : EnvDataVolume :=
  default (no_slots 0) (rank_envdata st !!! 0%nat).

End Fixtures.

(** ** A failing input of the write-back

    [fh->Write] is a member of the file handle, a function the firmware
    provides and no code of the repository; the file protocol has it
    return through [*BufferSize] the number of bytes it wrote.  The
    handle of this input stores one byte less than asked and returns
    EFI_SUCCESS; the other services are the doubles of the test. *)
Definition short_Write (File BufferSize : Z) (Buffer : BG_ENVDATA)
    (w : Harness.World) : (EFI_STATUS * Z) * Harness.World :=
  ((EFI_SUCCESS, BufferSize - 1), w).

Definition short_Write_platform (records : list (option BG_ENVDATA))
  : Platform Harness.World :=
  Build_Platform Harness.World 255 2 1032
    Harness.IsOnBootVolume Harness.AllocatePool
    Harness.enumerate_cfg_parts Harness.filter_cfg_parts
    Harness.volume_file_protocol_open
    (Harness.config_file_protocol_read 1032 (Fixtures.scenario_of records))
    short_Write Harness.volume_file_protocol_close
    (Harness.CalculateCrc32 Fixtures.bgenv_crc32).

(** ** What the specification says, in its own terms *)
Section Specification.
Context {World : Type} (P : Platform World).
Variable volumes : nat -> VOLUME_DESC.
Variable volume_count : nat.
Variable env : nat -> EnvDataVolume.

(** The rank of an update state: INSTALLED 0, TESTING 1, OK 2, anything
    else 3. *)
Definition spec_ustate_rank (u : USTATE) : nat :=
  match u with
  | USTATE_INSTALLED => 0
  | USTATE_TESTING => 1
  | USTATE_OK => 2
  | _ => 3
  end.

(** The total order of the ranker, rule by rule: [spec_preferred a b]
    when [a] is strictly preferred to [b]. *)
Definition spec_preferred (a b : option EnvDataVolume) : bool :=
  match a, b with
  | None, _ => false
  | Some _, None => true
  | Some x, Some y =>
      let ex := envdata x in
      let ey := envdata y in
      if xorb (in_progress ex) (in_progress ey) then
        negb (in_progress ex)
      else if negb (revision ex =? revision ey) then
        revision ey <? revision ex
      else if negb (spec_ustate_rank (ustate ex)
                    =? spec_ustate_rank (ustate ey))%nat then
        (spec_ustate_rank (ustate ex) <? spec_ustate_rank (ustate ey))%nat
      else if xorb (IsOnBootVolume P (devpath (volumes (volume_index x))))
                   (IsOnBootVolume P (devpath (volumes (volume_index y))))
      then
        IsOnBootVolume P (devpath (volumes (volume_index x)))
      else (volume_index x <? volume_index y)%nat
  end.

Definition not_preferred_to (a c : EnvDataVolume) : Prop :=
  spec_preferred (Some c) (Some a) = false.

(** [r0] is the most preferred and [r1] the second most preferred of
    the candidates [cs]. *)
Definition best_two (cs : list EnvDataVolume)
    (r0 r1 : option EnvDataVolume) : Prop :=
  match r0, r1 with
  | None, None => cs = []
  | Some a, None => cs = [a]
  | Some a, Some b =>
      exists rest,
        cs ≡ₚ a :: b :: rest /\
        Forall (not_preferred_to a) (b :: rest) /\
        Forall (not_preferred_to b) rest
  | None, Some _ => False
  end.

(** The same order as a comparison of keys: the smaller key is the
    preferred candidate. *)
Definition rank_key (x : EnvDataVolume) : Z * Z * Z * Z * Z :=
  (Z.b2z (in_progress (envdata x)),
   - revision (envdata x),
   Z.of_nat (spec_ustate_rank (ustate (envdata x))),
   Z.b2z (negb (IsOnBootVolume P (devpath (volumes (volume_index x))))),
   Z.of_nat (volume_index x)).

Definition key_lt (k k' : Z * Z * Z * Z * Z) : Prop :=
  let '(a, b, c, d, e) := k in
  let '(a', b', c', d', e') := k' in
  a < a' \/ (a = a' /\ (b < b' \/ (b = b' /\ (c < c' \/ (c = c' /\
    (d < d' \/ (d = d' /\ e < e'))))))).

(** The number of slots of [env] the ranking array points to. *)
Definition slots_in_use (rank : list (option EnvDataVolume)) : nat :=
  length (omap id rank).

(** The candidate a round of the loop loads, if it loads one. *)
Definition loaded_here (st : LoadState) (config_volume : nat)
    (s : World * list Event) : list EnvDataVolume :=
  let '((read_status, st'), _) :=
    read_volume P volumes env st config_volume s in
  if EFI_ERROR read_status then []
  else
    option_list
      (terminate_slot P <$> (rank_envdata st' !!! (ENVSLOTS - 1)%nat)).

(** The candidates the loop loads, in the order it loads them. *)
Fixpoint loaded_candidates (st : LoadState) (config_volumes : list nat)
    (s : World * list Event) : list EnvDataVolume :=
  match config_volumes with
  | [] => []
  | config_volume :: rest =>
      loaded_here st config_volume s ++
      (let '(st', s') := load_volume P volumes env st config_volume s in
       loaded_candidates st' rest s')
  end.

(** The candidates a run of [load_config] loads. *)
Definition config_candidates (s : World * list Event)
  : list EnvDataVolume :=
  let '(found, s') := config_partitions P volumes volume_count s in
  match found with
  | None => []
  | Some (st, config_volumes) => loaded_candidates st config_volumes s'
  end.

(** A candidate apart from the place of its volume in the volume
    array: its record and the device path of its volume. *)
Definition describe (c : EnvDataVolume) : BG_ENVDATA * Z :=
  (envdata c, devpath (volumes (volume_index c))).

(** The criteria of the order that do not look at the volume index, as
    a key: in progress, revision, state rank, boot volume. *)
Definition tiebreak (d : BG_ENVDATA * Z) : Z * Z * Z * Z :=
  (Z.b2z (in_progress d.1),
   - revision d.1,
   Z.of_nat (spec_ustate_rank (ustate d.1)),
   Z.b2z (negb (IsOnBootVolume P d.2))).

Definition tiebreak_lt (k k' : Z * Z * Z * Z) : Prop :=
  let '(a, b, c, d) := k in
  let '(a', b', c', d') := k' in
  a < a' \/ (a = a' /\ (b < b' \/ (b = b' /\ (c < c' \/ (c = c' /\
    d < d'))))).

(** [d0] comes first among [ds] and [d1] second, by these criteria. *)
Definition comes_first (ds : list (BG_ENVDATA * Z))
    (d0 : BG_ENVDATA * Z) : Prop :=
  In d0 ds /\
  forall d, In d ds -> d = d0 \/ tiebreak_lt (tiebreak d0) (tiebreak d).

Definition comes_second (ds : list (BG_ENVDATA * Z))
    (d0 d1 : BG_ENVDATA * Z) : Prop :=
  In d1 ds /\ d1 <> d0 /\
  forall d, In d ds ->
    d = d0 \/ d = d1 \/ tiebreak_lt (tiebreak d1) (tiebreak d).

(** The loader parameters [load_config] leaves, from the records of the
    leader and of the runner-up. *)
Definition selected_params (leader runner_up : option BG_ENVDATA)
    (bglp : BG_LOADER_PARAMS) : BG_LOADER_PARAMS :=
  let params e :=
    {| payload_path := Some (StrDuplicate (kernelfile e));
       payload_options := Some (StrDuplicate (kernelparams e));
       timeout := watchdog_timeout_sec e |} in
  match leader with
  | None => bglp
  | Some l =>
      if in_progress l then bglp
      else if is_USTATE_TESTING (ustate l) then
        match runner_up with
        | None => bglp
        | Some r => params r
        end
      else params l
  end.

(** The calls that belong to a write-back: a write, or an open that
    asks for write access. *)
Definition is_write_back_event (e : Event) : bool :=
  match e with
  | EvWrite _ _ _ _ _ => true
  | EvOpen _ mode _ _ => Z.testbit mode 1
  | _ => false
  end.

(** No call of a write-back among the calls [evs]. *)
Definition quiet (evs : list Event) : Prop :=
  forallb (fun e => negb (is_write_back_event e)) evs = true.


(** The calls of one write-back of slot [e], with the status the
    write-back returns: the config file of the slot's volume is opened
    for reading and writing; the checksum of the record is computed;
    the record, with the checksum stored in it, is written in one piece
    of the size of the record; the file is closed. *)
Inductive write_back (e : EnvDataVolume) : list Event -> BG_STATUS -> Prop :=
| write_back_no_open st fh :
    EFI_ERROR st = true ->
    write_back e
      [EvOpen (root (volumes (volume_index e)))
         (Z.lor EFI_FILE_MODE_WRITE EFI_FILE_MODE_READ) st fh]
      BG_CONFIG_ERROR
| write_back_no_crc st fh st_crc crc st_close :
    EFI_ERROR st = false ->
    EFI_ERROR st_crc = true ->
    write_back e
      [EvOpen (root (volumes (volume_index e)))
         (Z.lor EFI_FILE_MODE_WRITE EFI_FILE_MODE_READ) st fh;
       EvCrc32 (envdata e) (sizeof_BG_ENVDATA P - 4) st_crc crc;
       EvClose (root (volumes (volume_index e))) fh st_close]
      BG_CONFIG_ERROR
| write_back_written st fh st_crc crc st_write put st_close :
    EFI_ERROR st = false ->
    EFI_ERROR st_crc = false ->
    write_back e
      [EvOpen (root (volumes (volume_index e)))
         (Z.lor EFI_FILE_MODE_WRITE EFI_FILE_MODE_READ) st fh;
       EvCrc32 (envdata e) (sizeof_BG_ENVDATA P - 4) st_crc crc;
       EvWrite fh (sizeof_BG_ENVDATA P) (set_crc32 crc (envdata e))
         st_write put;
       EvClose (root (volumes (volume_index e))) fh st_close]
      (if EFI_ERROR st_write || EFI_ERROR st_close
       then BG_CONFIG_ERROR else BG_SUCCESS).

(** The results that make the load of a volume fail: an open or a read
    that fails, a read of another size than the record's, a checksum
    that cannot be computed or differs from the stored one. *)
Definition hard_fault (e : Event) : bool :=
  match e with
  | EvOpen _ _ st _ => EFI_ERROR st
  | EvRead _ _ st got => EFI_ERROR st || negb (got =? sizeof_BG_ENVDATA P)
  | EvCrc32 buf _ st crc => EFI_ERROR st || negb (crc =? crc32 buf)
  | _ => false
  end.

Definition close_fault (e : Event) : bool :=
  match e with
  | EvClose _ _ st => EFI_ERROR st
  | _ => false
  end.

End Specification.

(** ** The support code of the unit test *)

(** [StrLen]: the code units before the first NUL. *)
Fixpoint StrLen (s : list Z) : nat :=
  match s with
  | [] => 0
  | c :: rest => if c =? 0 then 0 else S (StrLen rest)
  end.

(** [StrCmp]: the difference of the first code units that differ, or 0
    when the strings agree up to the terminator.  A string that ends
    without a terminator is read as terminated there. *)
Fixpoint StrCmp (s1 s2 : list Z) : Z :=
  let s1c := hd 0 s1 in
  let s2c := hd 0 s2 in
  let rank := s1c - s2c in
  match s1 with
  | [] => rank
  | _ :: rest1 =>
      if s1c =? 0 then rank
      else if rank =? 0 then StrCmp rest1 (tl s2)
      else rank
  end.

(** [shuffle_volumes]: [random vx] is what the call of [random()] in
    round [vx] returns; the rounds [vx], [vx + 1], ... that are left are
    counted by [rounds]. *)
Fixpoint shuffle_rounds {A : Type} (random : nat -> nat) (rounds vx : nat)
    (volumes : list A) : list A :=
  match rounds with
  | O => volumes
  | S rounds' =>
      let wx := (vx + random vx mod (length volumes - vx))%nat in
      let volumes :=
        if (vx =? wx)%nat then volumes
        else
          match volumes !! vx, volumes !! wx with
          | Some swap, Some other => <[wx := swap]> (<[vx := other]> volumes)
          | _, _ => volumes
          end in
      shuffle_rounds random rounds' (S vx) volumes
  end.

Definition shuffle_volumes {A : Type} (random : nat -> nat)
    (volumes : list A) : list A :=
  shuffle_rounds random (length volumes) 0 volumes.

(** [n] successive injection points: whether each injected the error,
    and the counters they leave. *)
Fixpoint inject_errors (n : nat) (w : Harness.World)
  : list bool * Harness.World :=
  match n with
  | O => ([], w)
  | S n' =>
      let (injected, w') := Harness.INJECT_ERROR w in
      let (later, w'') := inject_errors n' w' in
      (injected :: later, w'')
  end.

(** ** What the runs of [load_config] are checked against *)

(** The discipline of the file handles: the handle that is open, if one
    is, after the calls [evs] made with [cur] open; [None] when a call
    breaks the discipline (an open while a file is open, a read, a
    write or a close of a handle that is not the open one, or a release
    of the index vector). *)
Fixpoint handles_run (cur : option (Z * Z)) (evs : list Event)
  : option (option (Z * Z)) :=
  match evs with
  | [] => Some cur
  | EvOpen r _ st fh :: rest =>
      match cur with
      | Some _ => None
      | None => handles_run (if EFI_ERROR st then None else Some (r, fh)) rest
      end
  | EvRead fh _ _ _ :: rest
  | EvWrite fh _ _ _ _ :: rest =>
      match cur with
      | Some (r, h) => if h =? fh then handles_run cur rest else None
      | None => None
      end
  | EvClose r fh _ :: rest =>
      match cur with
      | Some (r', h) =>
          if (r' =? r) && (h =? fh) then handles_run None rest else None
      | None => None
      end
  | EvFreePool :: _ => None
  | _ :: rest => handles_run cur rest
  end.

Definition is_EvWrite (e : Event) : bool :=
  match e with EvWrite _ _ _ _ _ => true | _ => false end.

(** What [load_config] returns, from the flag and the two entries in
    front of the ranking array the loading loop leaves. *)
Definition selected_outcome (flag : bool)
    (next prev : option EnvDataVolume) (bglp : BG_LOADER_PARAMS)
  : BG_STATUS * BG_LOADER_PARAMS :=
  match next with
  | None => (BG_CONFIG_ERROR, bglp)
  | Some leader =>
      if in_progress (envdata leader) then (BG_CONFIG_ERROR, bglp)
      else if is_USTATE_TESTING (ustate (envdata leader)) then
        match prev with
        | None => (BG_CONFIG_ERROR, bglp)
        | Some runner_up => hand_over flag runner_up
        end
      else hand_over flag leader
  end.

(** A result that flags the run while a volume is loaded: one that makes
    the load fail, or a close that fails. *)
Definition load_fault {World : Type} (P : Platform World) (e : Event)
  : bool :=
  hard_fault P e || close_fault e.

(** The record [e] was read and checked by the calls [evs]: they
    computed, without error, the checksum of a buffer, it is the one
    stored in the buffer, and [e] is the buffer with its strings
    terminated. *)
Definition validated {World : Type} (P : Platform World)
    (evs : list Event) (e : BG_ENVDATA) : Prop :=
  exists buf status,
    In (EvCrc32 buf (sizeof_BG_ENVDATA P - 4) status (crc32 buf)) evs /\
    EFI_ERROR status = false /\
    e = nul_terminate P buf.

(** The records [save_current_config] is called with: the leader marked
    as failed, or marked as under test. *)
Definition demoted (leader : EnvDataVolume) : EnvDataVolume :=
  set_envdata
    (set_revision REVISION_FAILED
       (set_ustate USTATE_FAILED (envdata leader))) leader.

Definition promoted (leader : EnvDataVolume) : EnvDataVolume :=
  set_envdata (set_ustate USTATE_TESTING (envdata leader)) leader.

(** [create_test_volumes]: a scenario and its device path are given as
    the descriptor the volume gets, whose root stands for the scenario.
    The first volume is given [first], the next one [rest] and the
    following ones the entries of the variable arguments [argp], the
    last of them for all the volumes that are left. *)
Definition volumeOffset : nat := 997.

Fixpoint test_volume_descs (config_parts : nat) (scenario rest : VOLUME_DESC)
    (argp : list VOLUME_DESC) : list VOLUME_DESC :=
  match config_parts with
  | O => []
  | S parts =>
      scenario ::
      match argp with
      | [] => test_volume_descs parts rest rest []
      | next :: argp' => test_volume_descs parts rest next argp'
      end
  end.

Definition create_test_volumes (random : nat -> nat) (config_parts : nat)
    (first rest : VOLUME_DESC) (argp : list VOLUME_DESC)
  : list VOLUME_DESC :=
  shuffle_volumes random
    (replicate volumeOffset {| devpath := 0; root := 0 |} ++
     test_volume_descs config_parts first rest argp).

(** [buf] holds the strings, the in-progress flag and the timeout of
    [e]: the fields a write-back leaves as they are. *)
Definition same_settings (buf e : BG_ENVDATA) : Prop :=
  kernelfile buf = kernelfile e /\
  kernelparams buf = kernelparams e /\
  in_progress buf = in_progress e /\
  watchdog_timeout_sec buf = watchdog_timeout_sec e.

(** ** Runs on permuted volume arrays *)

(** The services answer by the volume, in the states [steady]: the
    index vector is allocated; the enumeration succeeds and, filtered,
    leaves the indices of the volumes that are config volumes
    ([is_config]), in some order; the load of a volume gives the
    record [record_on] names for the volume, or fails when it names
    none; and the services leave the state in [steady]. *)
Definition answers_by_volume {World : Type} (P : Platform World)
    (steady : World -> Prop) (is_config : VOLUME_DESC -> bool)
    (record_on : VOLUME_DESC -> option BG_ENVDATA) : Prop :=
  (forall size w,
     steady w ->
     (AllocatePool P size w).1 = true /\ steady (AllocatePool P size w).2) /\
  (forall volumes volume_count w,
     steady w ->
     EFI_ERROR (enumerate_cfg_parts P volumes volume_count w).1.1 = false /\
     steady (enumerate_cfg_parts P volumes volume_count w).2 /\
     forall w',
       steady w' ->
       steady
         (filter_cfg_parts P volumes
            (enumerate_cfg_parts P volumes volume_count w).1.2 w').2 /\
       (filter_cfg_parts P volumes
          (enumerate_cfg_parts P volumes volume_count w).1.2 w').1 ≡ₚ
       filter (fun vx => is_config (volumes vx) = true)
         (seq 0 volume_count)) /\
  (forall flag volume buf w tr,
     steady w ->
     steady (read_config P flag volume buf (w, tr)).2.1 /\
     match record_on volume with
     | Some e =>
         EFI_ERROR (read_config P flag volume buf (w, tr)).1.1.2 = false /\
         (read_config P flag volume buf (w, tr)).1.2 = e
     | None =>
         EFI_ERROR (read_config P flag volume buf (w, tr)).1.1.2 = true
     end).

(** The candidate a volume gives to such a run: the record named for
    it, with its strings terminated, on the device path of the volume,
    when the volume is a config volume. *)
Definition volume_candidate {World : Type} (P : Platform World)
    (is_config : VOLUME_DESC -> bool)
    (record_on : VOLUME_DESC -> option BG_ENVDATA) (v : VOLUME_DESC)
  : option (BG_ENVDATA * Z) :=
  if is_config v
  then (fun e => (nul_terminate P e, devpath v)) <$> record_on v
  else None.

(** * Proofs *)

Ltac run_monad :=
  unfold mbind, M_mbind, M_bind, mret, M_mret, M_ret, call, emit in *.

Ltac compare_cases :=
  repeat match goal with
  | |- context [(?a >? ?b)%Z] => rewrite (Z.gtb_ltb a b)
  | |- context [(?a =? ?b)%Z] => destruct (Z.eqb_spec a b)
  | |- context [(?a <? ?b)%Z] => destruct (Z.ltb_spec a b)
  | |- context [(?a =? ?b)%nat] => destruct (Nat.eqb_spec a b)
  | |- context [(?a <? ?b)%nat] => destruct (Nat.ltb_spec a b)
  end.

Section Ranking.
Context {World : Type} (P : Platform World).
Variable volumes : nat -> VOLUME_DESC.

Lemma config_state_ranking_spec (e : BG_ENVDATA) :
  config_state_ranking (Some e) = Z.of_nat (spec_ustate_rank (ustate e)).
Proof. unfold config_state_ranking. by destruct (ustate e). Qed.

Lemma config_state_ranking_null :
  config_state_ranking None = 4294967295.
Proof. reflexivity. Qed.

(** The comparisons of [sift_envdata_volume], left, and the rules of
    the order for the right candidate against the left one, right. *)
Lemma swap_decision (p p' b b' : bool) (r r' : Z) (n n' i i' : nat) :
  (if negb (Z.b2z p =? Z.b2z p') then Z.b2z p >? Z.b2z p'
   else if negb (r =? r') then r <? r'
   else if negb (Z.of_nat n =? Z.of_nat n') then Z.of_nat n >? Z.of_nat n'
   else if negb (Z.b2z b =? Z.b2z b') then Z.b2z b <? Z.b2z b'
   else if negb (i =? i')%nat then (i' <? i)%nat
   else false) =
  (if xorb p' p then negb p'
   else if negb (r' =? r) then r <? r'
   else if negb (n' =? n)%nat then (n' <? n)%nat
   else if xorb b' b then b'
   else (i' <? i)%nat).
Proof.
  destruct p, p'; cbn [Z.b2z xorb negb Z.eqb Z.gtb Z.compare Pos.eqb];
    try reflexivity;
    (rewrite (Z.eqb_sym r' r); destruct (Z.eqb_spec r r') as [_|_];
     cbn [negb]; [|reflexivity]);
    (rewrite Z.gtb_ltb;
     destruct (Nat.eqb_spec n' n) as [->|Hn]; cbn [negb];
     [rewrite Z.eqb_refl; cbn [negb]
     |rewrite (proj2 (Z.eqb_neq _ _)) by lia; cbn [negb];
      destruct (Z.ltb_spec (Z.of_nat n') (Z.of_nat n)),
        (Nat.ltb_spec n' n); (reflexivity || lia)]);
    (destruct b, b';
     cbn [Z.b2z xorb negb Z.eqb Z.ltb Z.compare Pos.eqb];
     try reflexivity);
    (destruct (Nat.eqb_spec i i') as [->|_]; cbn [negb];
     [by rewrite Nat.ltb_irrefl|reflexivity]).
Qed.

(** The swap [sift_envdata_volume] decides on is the order of the
    specification: it swaps exactly when the right one is strictly
    preferred. *)
Lemma sift_swaps_preferred (lhs rhs : option EnvDataVolume) :
  sift_envdata_volume P volumes lhs rhs =
  if spec_preferred P volumes rhs lhs then (rhs, lhs) else (lhs, rhs).
Proof.
  unfold sift_envdata_volume, spec_preferred.
  destruct lhs as [l|], rhs as [r|]; try reflexivity.
  cbn [fmap option_fmap option_map]. cbv zeta.
  rewrite !config_state_ranking_spec.
  by rewrite swap_decision.
Qed.

Lemma preferred_key_lt (x y : EnvDataVolume) :
  spec_preferred P volumes (Some x) (Some y) = true <->
  key_lt (rank_key P volumes x) (rank_key P volumes y).
Proof.
  unfold spec_preferred, rank_key, key_lt.
  destruct (in_progress (envdata x)), (in_progress (envdata y)),
    (IsOnBootVolume P (devpath (volumes (volume_index x)))),
    (IsOnBootVolume P (devpath (volumes (volume_index y))));
    cbn [Z.b2z xorb negb]; compare_cases; cbn [negb];
    split; intros; try discriminate; try reflexivity; try lia.
Qed.

Lemma preferred_asymmetric (x y : EnvDataVolume) :
  spec_preferred P volumes (Some x) (Some y) = true ->
  spec_preferred P volumes (Some y) (Some x) = false.
Proof.
  intros Hxy. apply not_true_is_false. intros Hyx.
  apply preferred_key_lt in Hxy, Hyx.
  unfold key_lt in *.
  destruct (rank_key P volumes x) as [[[[a b] c] d] e].
  destruct (rank_key P volumes y) as [[[[a' b'] c'] d'] e'].
  lia.
Qed.

(** Not being preferred is transitive: the order is a strict weak one. *)
Lemma not_preferred_trans (x y z : EnvDataVolume) :
  not_preferred_to P volumes x y ->
  not_preferred_to P volumes y z ->
  not_preferred_to P volumes x z.
Proof.
  unfold not_preferred_to. intros Hyx Hzy.
  apply not_true_is_false. intros Hzx.
  apply not_true_iff_false in Hyx, Hzy.
  rewrite preferred_key_lt in Hyx, Hzy, Hzx.
  unfold key_lt in *.
  destruct (rank_key P volumes x) as [[[[a b] c] d] e].
  destruct (rank_key P volumes y) as [[[[a' b'] c'] d'] e'].
  destruct (rank_key P volumes z) as [[[[a'' b''] c''] d''] e''].
  lia.
Qed.

End Ranking.

Section Sifting.
Context {World : Type} (P : Platform World).
Variable volumes : nat -> VOLUME_DESC.
Variable env : nat -> EnvDataVolume.

Local Abbreviation sift := (sift_envdata_volume P volumes).
Local Abbreviation preferred := (spec_preferred P volumes).

(** The two comparisons the loop makes for an array of three entries. *)
Lemma sift_loop_three (r0 r1 r2 : option EnvDataVolume) :
  sift_loop P volumes 2 [r0; r1; r2] =
  [(sift r0 (sift r1 r2).1).1; (sift r0 (sift r1 r2).1).2; (sift r1 r2).2].
Proof.
  cbn [sift_loop]. unfold sift_at. cbn.
  destruct (sift r1 r2) as [x z]. cbn.
  destruct (sift r0 x) as [a b]. reflexivity.
Qed.

Lemma length_sift_loop_three (rank : list (option EnvDataVolume)) :
  length rank = 3%nat -> length (sift_loop P volumes 2 rank) = 3%nat.
Proof.
  destruct rank as [|r0 [|r1 [|r2 [|]]]]; try discriminate. intros _.
  by rewrite sift_loop_three.
Qed.

(** Sifting a new candidate in keeps the two best in front. *)
Lemma best_two_sift (cs : list EnvDataVolume)
    (r0 r1 : option EnvDataVolume) (c : EnvDataVolume) :
  best_two P volumes cs r0 r1 ->
  best_two P volumes (cs ++ [c])
    (sift_loop P volumes 2 [r0; r1; Some c] !!! 0%nat)
    (sift_loop P volumes 2 [r0; r1; Some c] !!! 1%nat).
Proof.
  intros Hbest. rewrite sift_loop_three. cbn [lookup_total list_lookup_total].
  rewrite !sift_swaps_preferred.
  destruct r0 as [a|], r1 as [b|]; cbn in Hbest; try contradiction.
  - destruct Hbest as (rest & Hperm & Ha & Hb).
    apply Forall_cons in Ha as [Hab Ha].
    destruct (preferred (Some c) (Some b)) eqn:Hcb; cbn [fst snd].
    + destruct (preferred (Some c) (Some a)) eqn:Hca; cbn [fst snd];
        cbn [best_two].
      * exists (b :: rest). split; [|split].
        -- rewrite Hperm.
           rewrite <- Permutation_cons_append. reflexivity.
        -- constructor; [by apply preferred_asymmetric|].
           constructor.
           ++ eapply not_preferred_trans; [|exact Hab].
              by apply preferred_asymmetric.
           ++ eapply Forall_impl; [exact Ha|]. intros r Hr. cbn beta in Hr.
              eapply not_preferred_trans; [|exact Hr].
              by apply preferred_asymmetric.
        -- constructor; [exact Hab|exact Ha].
      * exists (b :: rest). split; [|split].
        -- rewrite Hperm. rewrite <- Permutation_cons_append.
           rewrite (perm_swap c a). apply perm_skip. reflexivity.
        -- constructor; [exact Hca|]. constructor; [exact Hab|exact Ha].
        -- constructor; [by apply preferred_asymmetric|].
           eapply Forall_impl; [exact Hb|]. intros r Hr. cbn beta in Hr.
           eapply not_preferred_trans; [|exact Hr].
           by apply preferred_asymmetric.
    + rewrite Hab. cbn [fst snd best_two].
      exists (rest ++ [c]). split; [|split].
      * rewrite Hperm. reflexivity.
      * constructor; [exact Hab|].
        apply Forall_app. split; [exact Ha|].
        constructor; [|constructor].
        eapply not_preferred_trans; [exact Hab|exact Hcb].
      * apply Forall_app. split; [exact Hb|].
        constructor; [exact Hcb|constructor].
  - subst cs. change (preferred (Some c) None) with true.
    cbn [fst snd app].
    destruct (preferred (Some c) (Some a)) eqn:Hca; cbn [fst snd best_two].
    + exists []. split; [apply perm_swap|]. split; [|constructor].
      constructor; [by apply preferred_asymmetric|constructor].
    + exists []. split; [reflexivity|]. split; [|constructor].
      constructor; [exact Hca|constructor].
  - subst cs. reflexivity.
Qed.

End Sifting.

Section Loading.
Context {World : Type} (P : Platform World).
Variable volumes : nat -> VOLUME_DESC.
Variable env : nat -> EnvDataVolume.

(** What one round of the loop does to an array of three entries: the
    slot read ends in the last entry when the read fails, and is
    terminated and sifted in when it succeeds. *)
Lemma load_volume_round (st : LoadState) (cv : nat)
    (s : World * list Event) (r0 r1 r2 : option EnvDataVolume) :
  rank_envdata st = [r0; r1; r2] ->
  exists status slot reserve flag s',
    read_volume P volumes env st cv s =
      ((status, {| rank_envdata := [r0; r1; Some slot];
                   envrsrv := reserve; errored := flag |}), s') /\
    load_volume P volumes env st cv s =
      ({| rank_envdata :=
            if EFI_ERROR status then [r0; r1; Some slot]
            else sift_loop P volumes 2
                   [r0; r1; Some (terminate_slot P slot)];
          envrsrv := reserve; errored := flag |}, s') /\
    loaded_here P volumes env st cv s =
      (if EFI_ERROR status then [] else [terminate_slot P slot]).
Proof.
  intros Hrank.
  unfold loaded_here, load_volume, read_volume. run_monad.
  rewrite Hrank. cbn [ENVSLOTS Nat.sub lookup_total list_lookup_total].
  destruct r2 as [slot|];
    match goal with
    | |- context [read_config P false ?v ?b s] =>
        destruct (read_config P false v b s)
          as [[[read_error status] buf] s']
    end;
    cbn [fst snd list_insert insert];
    do 5 eexists; (split; [reflexivity|]);
    destruct (EFI_ERROR status); split; reflexivity.
Qed.

Lemma load_volumes_best_two (cvs : list nat) :
  forall (st : LoadState) (s : World * list Event)
      (cs : list EnvDataVolume),
    length (rank_envdata st) = 3%nat ->
    best_two P volumes cs
      (rank_envdata st !!! 0%nat) (rank_envdata st !!! 1%nat) ->
    let st' := (load_volumes P volumes env st cvs s).1 in
    length (rank_envdata st') = 3%nat /\
    best_two P volumes (cs ++ loaded_candidates P volumes env st cvs s)
      (rank_envdata st' !!! 0%nat) (rank_envdata st' !!! 1%nat).
Proof.
  induction cvs as [|cv cvs IH]; intros st s cs Hlen Hbest.
  - cbn. rewrite app_nil_r. auto.
  - destruct (rank_envdata st) as [|r0 [|r1 [|r2 [|]]]] eqn:Hrank;
      try discriminate.
    destruct (load_volume_round st cv s r0 r1 r2 Hrank)
      as (status & slot & reserve & flag & s' & _ & Hload & Hhere).
    cbn [load_volumes loaded_candidates]. run_monad.
    rewrite Hload, Hhere, app_assoc.
    apply IH.
    + cbn [rank_envdata]. destruct (EFI_ERROR status); [reflexivity|].
      by rewrite sift_loop_three.
    + cbn [rank_envdata]. destruct (EFI_ERROR status).
      * rewrite app_nil_r. exact Hbest.
      * apply best_two_sift. exact Hbest.
Qed.

End Loading.

Section WriteBack.
Context {World : Type} (P : Platform World).
Variable volumes : nat -> VOLUME_DESC.

(** [save_current_config] makes the calls of a write-back and nothing
    else, returns the status that goes with them, and leaves every
    field of the slot but the checksum as it was. *)
Lemma save_current_config_write_back (e : EnvDataVolume)
    (s : World * list Event) :
  exists evs,
    (save_current_config P volumes e s).2.2 = s.2 ++ evs /\
    write_back P volumes e evs (save_current_config P volumes e s).1.1 /\
    volume_index (save_current_config P volumes e s).1.2 = volume_index e /\
    crc_region (envdata (save_current_config P volumes e s).1.2) =
      crc_region (envdata e).
Proof.
  unfold save_current_config. run_monad. destruct s as [w tr]. cbn [fst snd].
  match goal with |- context [open_cfg_file P ?r ?m w] =>
    destruct (open_cfg_file P r m w) as [[st fh] w1] end.
  cbn [fst snd].
  destruct (EFI_ERROR st) eqn:Hst.
  { eexists. cbn [fst snd]. split; [reflexivity|].
    split; [by constructor|]. split; reflexivity. }
  cbn [fst snd].
  match goal with |- context [CalculateCrc32 P ?r ?m w1] =>
    destruct (CalculateCrc32 P r m w1) as [[st_crc crc] w2] end.
  cbn [fst snd].
  destruct (EFI_ERROR st_crc) eqn:Hcrc; cbn [negb fst snd].
  { rewrite Hcrc. cbn [fst snd].
    match goal with |- context [close_cfg_file P ?r fh w2] =>
      destruct (close_cfg_file P r fh w2) as [st_close w3] end.
    cbn [fst snd].
    eexists. split; [by rewrite <- !app_assoc|].
    split; [by constructor|]. split; reflexivity. }
  match goal with |- context [file_Write P fh ?r ?m w2] =>
    destruct (file_Write P fh r m w2) as [[st_write put] w3] end.
  cbn [fst snd].
  destruct (EFI_ERROR st_write) eqn:Hwrite; cbn [fst snd];
    match goal with |- context [close_cfg_file P ?r fh w3] =>
      destruct (close_cfg_file P r fh w3) as [st_close w4] end;
    cbn [fst snd].
  - eexists. split; [by rewrite <- !app_assoc|]. split; [|split; reflexivity].
    pose proof (write_back_written P volumes e st fh st_crc crc st_write put
                  st_close Hst Hcrc) as Hwb.
    rewrite Hwrite in Hwb. exact Hwb.
  - destruct (EFI_ERROR st_close) eqn:Hclose;
      (eexists; split; [by rewrite <- !app_assoc|];
       split; [|split; reflexivity]);
      pose proof (write_back_written P volumes e st fh st_crc crc st_write
                    put st_close Hst Hcrc) as Hwb;
      rewrite Hwrite, Hclose in Hwb; exact Hwb.
Qed.



(** The strings and the timeout handed over do not depend on the
    checksum. *)
Lemma hand_over_crc_region (flag : bool) (e e' : EnvDataVolume) :
  crc_region (envdata e') = crc_region (envdata e) ->
  hand_over flag e' = hand_over flag e.
Proof.
  unfold hand_over, crc_region, set_crc32. intros Heq.
  injection Heq as -> -> _ _ ->. reflexivity.
Qed.

End WriteBack.

Ltac platform_step :=
  cbn [fst snd];
  match goal with
  | |- context [open_cfg_file ?P ?a ?b ?w] =>
      destruct (open_cfg_file P a b w) as [[? ?] ?]
  | |- context [read_cfg_file ?P ?a ?b ?c ?w] =>
      destruct (read_cfg_file P a b c w) as [[[? ?] ?] ?]
  | |- context [close_cfg_file ?P ?a ?b ?w] =>
      destruct (close_cfg_file P a b w) as [? ?]
  | |- context [CalculateCrc32 ?P ?a ?b ?w] =>
      destruct (CalculateCrc32 P a b w) as [[? ?] ?]
  | |- context [file_Write ?P ?a ?b ?c ?w] =>
      destruct (file_Write P a b c w) as [[? ?] ?]
  | |- context [AllocatePool ?P ?a ?w] =>
      destruct (AllocatePool P a w) as [? ?]
  | |- context [enumerate_cfg_parts ?P ?a ?b ?w] =>
      destruct (enumerate_cfg_parts P a b w) as [[? ?] ?]
  | |- context [filter_cfg_parts ?P ?a ?b ?w] =>
      destruct (filter_cfg_parts P a b w) as [? ?]
  end;
  cbn [fst snd].

Section Reading.
Context {World : Type} (P : Platform World).
Variable volumes : nat -> VOLUME_DESC.
Variable env : nat -> EnvDataVolume.

Lemma quiet_app (evs evs' : list Event) :
  quiet evs -> quiet evs' -> quiet (evs ++ evs').
Proof.
  unfold quiet. rewrite forallb_app. intros -> ->. reflexivity.
Qed.

(** The calls of [read_config] and what they decide: a hard fault makes
    the call set the flag and return an error; without one the status
    is no error, the buffer holds a record whose stored checksum is the
    computed one, and the flag is set exactly when it was set before or
    the close failed. *)
Lemma read_config_faults (flag : bool) (volume : VOLUME_DESC)
    (buf : BG_ENVDATA) (s : World * list Event) :
  exists evs,
    (read_config P flag volume buf s).2.2 = s.2 ++ evs /\
    quiet evs /\
    (existsb (hard_fault P) evs = true ->
       (read_config P flag volume buf s).1.1.1 = true /\
       EFI_ERROR (read_config P flag volume buf s).1.1.2 = true) /\
    (existsb (hard_fault P) evs = false ->
       EFI_ERROR (read_config P flag volume buf s).1.1.2 = false /\
       (read_config P flag volume buf s).1.1.1 =
         flag || existsb close_fault evs /\
       In (EvCrc32 (read_config P flag volume buf s).1.2
             (sizeof_BG_ENVDATA P - 4)
             (read_config P flag volume buf s).1.1.2
             (crc32 (read_config P flag volume buf s).1.2)) evs).
Proof.
  unfold read_config. run_monad. destruct s as [w tr].
  platform_step.
  destruct (EFI_ERROR e) eqn:Hopen.
  { cbn [fst snd]. eexists. split; [reflexivity|]. split; [reflexivity|].
    cbn [existsb hard_fault]. rewrite Hopen. cbn. split; [auto|discriminate]. }
  platform_step. platform_step.
  destruct (EFI_ERROR e0) eqn:Hread.
  { cbn [fst snd]. eexists. split; [by rewrite <- !app_assoc|].
    split; [reflexivity|].
    cbn [existsb hard_fault app]. rewrite Hopen, Hread. cbn.
    split; [auto|discriminate]. }
  destruct (z0 =? sizeof_BG_ENVDATA P) eqn:Hlen; cbn [negb].
  2:{ cbn [fst snd]. eexists. split; [by rewrite <- !app_assoc|].
      split; [reflexivity|].
      cbn [existsb hard_fault app]. rewrite Hopen, Hread, Hlen. cbn.
      split; [auto|discriminate]. }
  platform_step.
  destruct (EFI_ERROR e2) eqn:Hcrc.
  { cbn [fst snd]. eexists. split; [by rewrite <- !app_assoc|].
    split; [reflexivity|].
    cbn [existsb hard_fault app]. rewrite Hopen, Hread, Hlen, Hcrc. cbn.
    split; [auto|discriminate]. }
  destruct (z1 =? crc32 b) eqn:Hsum; cbn [negb fst snd].
  2:{ eexists. split; [by rewrite <- !app_assoc|]. split; [reflexivity|].
      cbn [existsb hard_fault app]. rewrite Hopen, Hread, Hlen, Hcrc, Hsum.
      cbn. split; [auto|discriminate]. }
  eexists. split; [by rewrite <- !app_assoc|]. split; [reflexivity|].
  cbn [existsb hard_fault close_fault app].
  rewrite Hopen, Hread, Hlen, Hcrc, Hsum. cbn.
  split; [discriminate|]. intros _. split; [reflexivity|].
  apply Z.eqb_eq in Hsum. subst z1.
  split; [by destruct (EFI_ERROR e1), flag|]. auto.
Qed.

End Reading.

Section Rounds.
Context {World : Type} (P : Platform World).
Variable volumes : nat -> VOLUME_DESC.
Variable volume_count : nat.
Variable env : nat -> EnvDataVolume.

(** One round of the loop, by what its calls returned. *)
Lemma load_volume_faults (st : LoadState) (cv : nat)
    (s : World * list Event) (r0 r1 r2 : option EnvDataVolume) :
  rank_envdata st = [r0; r1; r2] ->
  exists evs buf,
    (load_volume P volumes env st cv s).2.2 = s.2 ++ evs /\
    quiet evs /\
    envrsrv (load_volume P volumes env st cv s).1 =
      match r2 with
      | Some _ => envrsrv st
      | None => (envrsrv st - 1)%nat
      end /\
    (existsb (hard_fault P) evs = true ->
       EFI_ERROR (read_volume P volumes env st cv s).1.1 = true /\
       errored (load_volume P volumes env st cv s).1 = true /\
       loaded_here P volumes env st cv s = [] /\
       rank_envdata (load_volume P volumes env st cv s).1 =
         [r0; r1; Some {| volume_index := cv; envdata := buf |}]) /\
    (existsb (hard_fault P) evs = false ->
       EFI_ERROR (read_volume P volumes env st cv s).1.1 = false /\
       errored (load_volume P volumes env st cv s).1 =
         errored st || existsb close_fault evs /\
       In (EvCrc32 buf (sizeof_BG_ENVDATA P - 4)
             (read_volume P volumes env st cv s).1.1 (crc32 buf)) evs /\
       loaded_here P volumes env st cv s =
         [{| volume_index := cv; envdata := nul_terminate P buf |}] /\
       rank_envdata (load_volume P volumes env st cv s).1 =
         sift_loop P volumes 2
           [r0; r1;
            Some {| volume_index := cv;
                    envdata := nul_terminate P buf |}]).
Proof.
  intros Hrank.
  unfold loaded_here, load_volume, read_volume. run_monad.
  rewrite Hrank. cbn [ENVSLOTS Nat.sub lookup_total list_lookup_total].
  destruct r2 as [slot|];
    match goal with
    | |- context [read_config P false ?v ?b s] =>
        destruct (read_config_faults P false v b s)
          as (evs & Htrace & Hquiet & Hhard & Hsoft);
        destruct (read_config P false v b s)
          as [[[read_error status] buf] [w' tr']]
    end;
    cbn [fst snd] in *; subst tr';
    exists evs, buf; (split; [by destruct (EFI_ERROR status)|]);
    (split; [exact Hquiet|]);
    (split; [by destruct (EFI_ERROR status)|]);
    (split; [intros Hev; destruct (Hhard Hev) as [-> ->]; cbn;
             by rewrite orb_true_r
            |intros Hev; destruct (Hsoft Hev) as (-> & -> & Hin); cbn;
             auto]).
Qed.

Lemma load_volumes_quiet (cvs : list nat) :
  forall (st : LoadState) (s : World * list Event),
    length (rank_envdata st) = 3%nat ->
    exists evs,
      (load_volumes P volumes env st cvs s).2.2 = s.2 ++ evs /\
      quiet evs.
Proof.
  induction cvs as [|cv cvs IH]; intros st s Hlen.
  - exists []. by rewrite app_nil_r.
  - destruct (rank_envdata st) as [|r0 [|r1 [|r2 [|]]]] eqn:Hrank;
      try discriminate.
    destruct (load_volume_round P volumes env st cv s r0 r1 r2 Hrank)
      as (status & slot & reserve & flag & s' & _ & Hload & _).
    destruct (load_volume_faults st cv s r0 r1 r2 Hrank)
      as (evs & buf & Htrace & Hquiet & _).
    cbn [load_volumes]. run_monad. rewrite Hload in Htrace |- *.
    cbn [fst snd] in Htrace.
    match goal with
    | |- context [load_volumes P volumes env ?st1 cvs s'] =>
        destruct (IH st1 s') as (evs' & Htrace' & Hquiet')
    end.
    { cbn [rank_envdata]. destruct (EFI_ERROR status); [reflexivity|].
      by rewrite sift_loop_three. }
    exists (evs ++ evs'). rewrite Htrace', Htrace, app_assoc.
    split; [reflexivity|]. by apply quiet_app.
Qed.

Lemma config_partitions_quiet (s : World * list Event) :
  exists evs,
    (config_partitions P volumes volume_count s).2.2 = s.2 ++ evs /\
    quiet evs /\
    forall st cvs,
      (config_partitions P volumes volume_count s).1 = Some (st, cvs) ->
      rank_envdata st = [None; None; None] /\ envrsrv st = 3%nat.
Proof.
  unfold config_partitions. run_monad. destruct s as [w tr].
  destruct (volume_count =? 0)%nat.
  { exists []. cbn. rewrite app_nil_r. by repeat split. }
  platform_step. destruct b; cbn [negb fst snd].
  2:{ eexists. split; [reflexivity|]. by repeat split. }
  platform_step. destruct (EFI_ERROR e); cbn [fst snd].
  { eexists. split; [by rewrite <- !app_assoc|]. by repeat split. }
  platform_step.
  eexists. split; [by rewrite <- !app_assoc|]. split; [reflexivity|].
  intros st cvs [= <- <-]. by destruct (negb _).
Qed.

Lemma rank_configs_quiet (s : World * list Event) :
  exists evs,
    (rank_configs P volumes volume_count env s).2.2 = s.2 ++ evs /\
    quiet evs.
Proof.
  unfold rank_configs. run_monad.
  destruct (config_partitions_quiet s) as (evs & Htrace & Hquiet & Hst).
  destruct (config_partitions P volumes volume_count s)
    as [[[st cvs]|] s']; cbn [fst snd] in *.
  - destruct (Hst st cvs eq_refl) as [Hrank _].
    destruct (load_volumes_quiet cvs st s') as (evs' & Htrace' & Hquiet').
    { by rewrite Hrank. }
    destruct (load_volumes P volumes env st cvs s') as [st' s''].
    cbn [fst snd] in *. exists (evs ++ evs').
    rewrite Htrace', Htrace, app_assoc. split; [reflexivity|].
    by apply quiet_app.
  - exists evs. auto.
Qed.

Lemma slots_in_use_sift_loop (r0 r1 r2 : option EnvDataVolume) :
  slots_in_use (sift_loop P volumes 2 [r0; r1; r2]) =
  slots_in_use [r0; r1; r2].
Proof.
  rewrite sift_loop_three, !sift_swaps_preferred.
  destruct (spec_preferred P volumes r2 r1); cbn [fst snd];
    match goal with
    | |- context [spec_preferred P volumes ?x ?y] =>
        destruct (spec_preferred P volumes x y)
    end;
    cbn [fst snd]; destruct r0, r1, r2; reflexivity.
Qed.

(** The reserve is never exhausted: the slots the ranking array points
    to and the slots left in the reserve are the [ENVSLOTS] slots of
    [env], so a slot is left whenever the last entry of the array is
    [NULL] at the start of a round. *)
Lemma reserve_suffices (cvs : list nat) :
  forall (st : LoadState) (s : World * list Event),
    length (rank_envdata st) = ENVSLOTS ->
    (slots_in_use (rank_envdata st) + envrsrv st = ENVSLOTS)%nat ->
    let st' := (load_volumes P volumes env st cvs s).1 in
    length (rank_envdata st') = ENVSLOTS /\
    (slots_in_use (rank_envdata st') + envrsrv st' = ENVSLOTS)%nat.
Proof.
  induction cvs as [|cv cvs IH]; intros st s Hlen Hslots; [by split|].
  destruct (rank_envdata st) as [|r0 [|r1 [|r2 [|]]]] eqn:Hrank;
    try discriminate.
  destruct (load_volume_faults st cv s r0 r1 r2 Hrank)
    as (evs & buf & _ & _ & Hreserve & Hhard & Hsoft).
  cbn [load_volumes]. run_monad.
  destruct (load_volume P volumes env st cv s) as [st1 s1].
  cbn [fst snd] in *.
  assert (rank_envdata st1 =
            [r0; r1; Some {| volume_index := cv; envdata := buf |}] \/
          rank_envdata st1 =
            sift_loop P volumes 2
              [r0; r1;
               Some {| volume_index := cv;
                       envdata := nul_terminate P buf |}]) as Hrank1.
  { destruct (existsb (hard_fault P) evs).
    - left. by destruct (Hhard eq_refl) as (_ & _ & _ & ->).
    - right. by destruct (Hsoft eq_refl) as (_ & _ & _ & _ & ->). }
  apply IH.
  - destruct Hrank1 as [->| ->]; [reflexivity|].
    by rewrite sift_loop_three.
  - rewrite Hreserve.
    assert (slots_in_use (rank_envdata st1) =
            S (slots_in_use [r0; r1])) as ->.
    { destruct Hrank1 as [->| ->]; [|rewrite slots_in_use_sift_loop];
        by destruct r0, r1. }
    revert Hslots. unfold ENVSLOTS.
    destruct r0, r1, r2; cbn; lia.
Qed.

Lemma reserve_available (st : LoadState) :
  length (rank_envdata st) = ENVSLOTS ->
  (slots_in_use (rank_envdata st) + envrsrv st = ENVSLOTS)%nat ->
  rank_envdata st !!! (ENVSLOTS - 1)%nat = None ->
  (0 < envrsrv st)%nat.
Proof.
  destruct (rank_envdata st) as [|r0 [|r1 [|r2 [|]]]]; try discriminate.
  intros _ Hslots Hlast. cbn in Hlast. subst r2.
  revert Hslots. unfold ENVSLOTS. destruct r0, r1; cbn; lia.
Qed.

End Rounds.

Section Selection.
Context {World : Type} (P : Platform World).
Variable volumes : nat -> VOLUME_DESC.
Variable volume_count : nat.
Variable env : nat -> EnvDataVolume.

Lemma load_config_phases (bglp : BG_LOADER_PARAMS)
    (s : World * list Event) :
  load_config P volumes volume_count env bglp s =
  match (rank_configs P volumes volume_count env s).1 with
  | None => failed bglp (rank_configs P volumes volume_count env s).2
  | Some st =>
      choose_config P volumes st bglp
        (rank_configs P volumes volume_count env s).2
  end.
Proof.
  unfold load_config. run_monad.
  by destruct (rank_configs P volumes volume_count env s) as [[st|] s'].
Qed.



(** C7, BG_CONFIG_ERROR without a usable leader.  When the ranking
    leaves no leader, or a leader that is in progress, [load_config]
    returns BG_CONFIG_ERROR, none of its calls belongs to a write-back,
    and the loader parameters are the caller's, field by field. *)
Theorem config_error_atomicity (bglp : BG_LOADER_PARAMS)
    (s s1 : World * list Event) (st : LoadState) :
  rank_configs P volumes volume_count env s = (Some st, s1) ->
  rank_envdata st !!! 0%nat = None \/
  (exists leader, rank_envdata st !!! 0%nat = Some leader /\
                  in_progress (envdata leader) = true) ->
  (load_config P volumes volume_count env bglp s).1.1 = BG_CONFIG_ERROR /\
  (exists evs,
     (load_config P volumes volume_count env bglp s).2.2 = s.2 ++ evs /\
     quiet evs) /\
  payload_path (load_config P volumes volume_count env bglp s).1.2 =
    payload_path bglp /\
  payload_options (load_config P volumes volume_count env bglp s).1.2 =
    payload_options bglp /\
  timeout (load_config P volumes volume_count env bglp s).1.2 =
    timeout bglp.
Proof.
  intros Hranked Hleader.
  destruct (rank_configs_quiet P volumes volume_count env s)
    as (evs & Htrace & Hquiet).
  rewrite load_config_phases, Hranked in *. cbn [fst snd] in *.
  assert (choose_config P volumes st bglp s1 =
          ((BG_CONFIG_ERROR, bglp), (s1.1, s1.2 ++ [EvFreePool]))) as ->.
  { unfold choose_config.
    destruct Hleader as [->|(leader & -> & ->)]; reflexivity. }
  cbn [fst snd]. split; [reflexivity|].
  split; [|by repeat split].
  exists (evs ++ [EvFreePool]). rewrite Htrace, app_assoc.
  split; [reflexivity|]. by apply quiet_app.
Qed.


End Selection.

Section Claims.
Context {World : Type} (P : Platform World).
Variable volumes : nat -> VOLUME_DESC.
Variable volume_count : nat.
Variable env : nat -> EnvDataVolume.

(** Two candidates neither of which is preferred to the other agree on
    every criterion of the order. *)
Lemma preferred_total (x y : EnvDataVolume) :
  spec_preferred P volumes (Some x) (Some y) = false ->
  spec_preferred P volumes (Some y) (Some x) = false ->
  rank_key P volumes x = rank_key P volumes y.
Proof.
  intros Hxy Hyx. apply not_true_iff_false in Hxy, Hyx.
  rewrite preferred_key_lt in Hxy, Hyx.
  unfold key_lt in *.
  destruct (rank_key P volumes x) as [[[[a b] c] d] e].
  destruct (rank_key P volumes y) as [[[[a' b'] c'] d'] e'].
  repeat f_equal; lia.
Qed.

(** The part of P4 the ranking gives: when one of the candidates is not
    in progress, the most preferred one is not in progress. *)
Lemma leader_not_in_progress (cs : list EnvDataVolume) (a : EnvDataVolume)
    (r1 : option EnvDataVolume) :
  best_two P volumes cs (Some a) r1 ->
  (exists c, In c cs /\ in_progress (envdata c) = false) ->
  in_progress (envdata a) = false.
Proof.
  intros Hbest (c & Hc & Hfree).
  assert (c = a \/ not_preferred_to P volumes a c) as [->|Hca].
  { destruct r1 as [b|]; cbn [best_two] in Hbest.
    - destruct Hbest as (rest & Hperm & Ha & _).
      apply (Permutation_in _ Hperm) in Hc. destruct Hc as [<-|Hc]; [by left|].
      right. rewrite Forall_forall in Ha. apply Ha.
      by apply list_elem_of_In.
    - subst cs. destruct Hc as [<-|[]]. by left. }
  - exact Hfree.
  - unfold not_preferred_to, spec_preferred in Hca. rewrite Hfree in Hca.
    by destruct (in_progress (envdata a)).
Qed.

(** C1, rank maintenance.  [sift_envdata_volume] swaps exactly when the
    right candidate is strictly preferred in the order of the
    specification (present before absent, not in progress before in
    progress, higher revision, lower state rank, on the boot volume,
    lower volume index; no swap when equal).  After any number [k] of
    rounds of the loading loop, entry 0 of the ranking array is the
    most preferred and entry 1 the second most preferred of the
    candidates loaded in these rounds. *)
Theorem rank_maintenance (flag : bool) (config_volumes : list nat)
    (k : nat) (s : World * list Event) :
  (forall lhs rhs,
     sift_envdata_volume P volumes lhs rhs =
     if spec_preferred P volumes rhs lhs then (rhs, lhs) else (lhs, rhs)) /\
  let st0 := {| rank_envdata := replicate ENVSLOTS None;
                envrsrv := ENVSLOTS; errored := flag |} in
  let st := (load_volumes P volumes env st0 (take k config_volumes) s).1 in
  best_two P volumes
    (loaded_candidates P volumes env st0 (take k config_volumes) s)
    (rank_envdata st !!! 0%nat) (rank_envdata st !!! 1%nat).
Proof.
  split; [apply sift_swaps_preferred|]. intros st0 st.
  apply (load_volumes_best_two P volumes env (take k config_volumes)
           st0 s []); reflexivity.
Qed.


End Claims.

Section Shuffle.
Context {World : Type} (P : Platform World).

Lemma rank_key_tiebreak (volumes : nat -> VOLUME_DESC)
    (x : EnvDataVolume) :
  rank_key P volumes x =
  (let '(a, b, c, d) := tiebreak P (describe volumes x) in
   (a, b, c, d, Z.of_nat (volume_index x))).
Proof. reflexivity. Qed.

(** A candidate that is not preferred and differs in the criteria that
    do not look at the volume index comes later by these criteria. *)
Lemma not_preferred_tiebreak (volumes : nat -> VOLUME_DESC)
    (a c : EnvDataVolume) :
  not_preferred_to P volumes a c ->
  tiebreak P (describe volumes c) <> tiebreak P (describe volumes a) ->
  tiebreak_lt (tiebreak P (describe volumes a))
    (tiebreak P (describe volumes c)).
Proof.
  unfold not_preferred_to. intros Hca Hne.
  apply not_true_iff_false in Hca. rewrite preferred_key_lt in Hca.
  rewrite !rank_key_tiebreak in Hca. unfold key_lt, tiebreak_lt in *.
  destruct (tiebreak P (describe volumes a)) as [[[a1 a2] a3] a4].
  destruct (tiebreak P (describe volumes c)) as [[[c1 c2] c3] c4].
  assert (~ (c1 = a1 /\ c2 = a2 /\ c3 = a3 /\ c4 = a4)) as Hne'.
  { intros (-> & -> & -> & ->). by apply Hne. }
  lia.
Qed.

Lemma tiebreak_lt_asymmetric (k k' : Z * Z * Z * Z) :
  tiebreak_lt k k' -> tiebreak_lt k' k -> False.
Proof.
  destruct k as [[[a b] c] d], k' as [[[a' b'] c'] d'].
  unfold tiebreak_lt. lia.
Qed.

Lemma comes_first_unique (ds : list (BG_ENVDATA * Z))
    (d d' : BG_ENVDATA * Z) :
  comes_first P ds d -> comes_first P ds d' -> d = d'.
Proof.
  intros [Hin Hmin] [Hin' Hmin'].
  destruct (Hmin d' Hin') as [|Hlt]; [done|].
  destruct (Hmin' d Hin) as [|Hlt']; [done|].
  destruct (tiebreak_lt_asymmetric _ _ Hlt Hlt').
Qed.

Lemma comes_second_unique (ds : list (BG_ENVDATA * Z))
    (d0 d d' : BG_ENVDATA * Z) :
  comes_second P ds d0 d -> comes_second P ds d0 d' -> d = d'.
Proof.
  intros (Hin & Hne & Hmin) (Hin' & Hne' & Hmin').
  destruct (Hmin d' Hin') as [|[|Hlt]]; [done|done|].
  destruct (Hmin' d Hin) as [|[|Hlt']]; [done|done|].
  destruct (tiebreak_lt_asymmetric _ _ Hlt Hlt').
Qed.

Lemma comes_first_perm (ds ds' : list (BG_ENVDATA * Z))
    (d : BG_ENVDATA * Z) :
  ds ≡ₚ ds' -> comes_first P ds d -> comes_first P ds' d.
Proof.
  intros Hperm [Hin Hmin]. split.
  - eapply Permutation_in; [exact Hperm|exact Hin].
  - intros x Hx. apply Hmin.
    eapply Permutation_in; [symmetry; exact Hperm|exact Hx].
Qed.

Lemma comes_second_perm (ds ds' : list (BG_ENVDATA * Z))
    (d0 d : BG_ENVDATA * Z) :
  ds ≡ₚ ds' -> comes_second P ds d0 d -> comes_second P ds' d0 d.
Proof.
  intros Hperm (Hin & Hne & Hmin). split; [|split; [exact Hne|]].
  - eapply Permutation_in; [exact Hperm|exact Hin].
  - intros x Hx. apply Hmin.
    eapply Permutation_in; [symmetry; exact Hperm|exact Hx].
Qed.

(** With no tie in the criteria that do not look at the volume index,
    the two ranked candidates are the first and the second by them. *)
Lemma best_two_comes_first (volumes : nat -> VOLUME_DESC)
    (cs : list EnvDataVolume) (a b : EnvDataVolume) :
  best_two P volumes cs (Some a) (Some b) ->
  List.NoDup (map (tiebreak P) (map (describe volumes) cs)) ->
  comes_first P (map (describe volumes) cs) (describe volumes a) /\
  comes_second P (map (describe volumes) cs)
    (describe volumes a) (describe volumes b).
Proof.
  intros (rest & Hperm & Ha & Hb) Hnodup.
  assert (map (describe volumes) cs ≡ₚ
          describe volumes a :: describe volumes b ::
          map (describe volumes) rest) as Hperm'.
  { by rewrite Hperm. }
  rewrite Hperm' in Hnodup. cbn [map] in Hnodup.
  apply List.NoDup_cons_iff in Hnodup as [Hna Hnodup].
  apply List.NoDup_cons_iff in Hnodup as [Hnb _].
  apply Forall_cons in Ha as [Hab Ha].
  rewrite Forall_forall in Ha, Hb.
  assert (forall c, In c rest ->
            tiebreak P (describe volumes c)
            <> tiebreak P (describe volumes a)) as Hrest_a.
  { intros c Hc Heq. apply Hna. right. rewrite <- Heq.
    apply in_map, in_map, Hc. }
  assert (forall c, In c rest ->
            tiebreak P (describe volumes c)
            <> tiebreak P (describe volumes b)) as Hrest_b.
  { intros c Hc Heq. apply Hnb. rewrite <- Heq.
    apply in_map, in_map, Hc. }
  assert (tiebreak P (describe volumes b)
          <> tiebreak P (describe volumes a)) as Hba.
  { intros Heq. apply Hna. left. exact Heq. }
  split.
  - split.
    + eapply Permutation_in; [symmetry; exact Hperm'|]. by left.
    + intros d Hd.
      apply (Permutation_in _ Hperm') in Hd.
      destruct Hd as [<-|[<-|Hd]]; [by left| |].
      * right. by apply not_preferred_tiebreak.
      * apply in_map_iff in Hd as (c & <- & Hc). right.
        apply not_preferred_tiebreak; [|by apply Hrest_a].
        apply Ha. by apply list_elem_of_In.
  - split; [|split].
    + eapply Permutation_in; [symmetry; exact Hperm'|]. right. by left.
    + intros Heq. apply Hba. by rewrite Heq.
    + intros d Hd.
      apply (Permutation_in _ Hperm') in Hd.
      destruct Hd as [<-|[<-|Hd]]; [by left|by right; left|].
      apply in_map_iff in Hd as (c & <- & Hc). right. right.
      apply not_preferred_tiebreak; [|by apply Hrest_b].
      apply Hb. by apply list_elem_of_In.
Qed.

End Shuffle.

Section Determinism.
Context {World : Type} (P : Platform World).

Lemma ranked_records_agree (volumes1 volumes2 : nat -> VOLUME_DESC)
    (cs1 cs2 : list EnvDataVolume)
    (r0 r1 r0' r1' : option EnvDataVolume) :
  best_two P volumes1 cs1 r0 r1 ->
  best_two P volumes2 cs2 r0' r1' ->
  map (describe volumes1) cs1 ≡ₚ map (describe volumes2) cs2 ->
  List.NoDup (map (tiebreak P) (map (describe volumes1) cs1)) ->
  envdata <$> r0 = envdata <$> r0' /\ envdata <$> r1 = envdata <$> r1'.
Proof.
  intros Hbest Hbest' Hperm Hnodup.
  assert (List.NoDup (map (tiebreak P) (map (describe volumes2) cs2)))
    as Hnodup'.
  { eapply Permutation_NoDup; [|exact Hnodup].
    apply Permutation_map. exact Hperm. }
  pose proof (Permutation_length Hperm) as Hlen.
  rewrite !length_map in Hlen.
  destruct r0 as [a|], r1 as [b|]; cbn [best_two] in Hbest;
    try contradiction;
    destruct r0' as [a'|], r1' as [b'|]; cbn [best_two] in Hbest';
    try contradiction.
  - destruct (best_two_comes_first P volumes1 cs1 a b Hbest Hnodup)
      as [Hfirst Hsecond].
    destruct (best_two_comes_first P volumes2 cs2 a' b' Hbest' Hnodup')
      as [Hfirst' Hsecond'].
    apply (comes_first_perm P _ _ _ Hperm) in Hfirst.
    apply (comes_second_perm P _ _ _ _ Hperm) in Hsecond.
    pose proof (comes_first_unique P _ _ _ Hfirst Hfirst') as Ha.
    rewrite Ha in Hsecond.
    pose proof (comes_second_unique P _ _ _ _ Hsecond Hsecond') as Hb.
    injection Ha as Ha _. injection Hb as Hb _. cbn. by rewrite Ha, Hb.
  - exfalso. destruct Hbest as (rest & Hp & _). subst cs2.
    apply Permutation_length in Hp. cbn in Hp, Hlen. lia.
  - exfalso. destruct Hbest as (rest & Hp & _). subst cs2.
    apply Permutation_length in Hp. cbn in Hp, Hlen. lia.
  - exfalso. destruct Hbest' as (rest & Hp & _). subst cs1.
    apply Permutation_length in Hp. cbn in Hp, Hlen. lia.
  - subst cs1 cs2. cbn [map] in Hperm.
    apply Permutation_length_1 in Hperm. injection Hperm as Ha _.
    cbn. by rewrite Ha.
  - subst cs1 cs2. discriminate.
  - exfalso. destruct Hbest' as (rest & Hp & _). subst cs1.
    apply Permutation_length in Hp. cbn in Hp, Hlen. lia.
  - subst cs1 cs2. discriminate.
  - split; reflexivity.
Qed.

Lemma choose_config_params (volumes : nat -> VOLUME_DESC)
    (st : LoadState) (bglp : BG_LOADER_PARAMS) (s : World * list Event) :
  (choose_config P volumes st bglp s).1.2 =
  selected_params (envdata <$> (rank_envdata st !!! 0%nat))
    (envdata <$> (rank_envdata st !!! 1%nat)) bglp.
Proof.
  unfold choose_config, selected_params.
  destruct (rank_envdata st !!! 0%nat) as [next|]; [|reflexivity].
  cbn [fmap option_fmap option_map].
  destruct (in_progress (envdata next)); [reflexivity|].
  destruct (is_USTATE_TESTING (ustate (envdata next))).
  { run_monad.
    match goal with
    | |- context [save_current_config P volumes ?e s] =>
        destruct (save_current_config P volumes e s) as [[status e'] s']
    end.
    by destruct (rank_envdata st !!! 1%nat). }
  destruct (is_USTATE_INSTALLED (ustate (envdata next))); [|reflexivity].
  run_monad.
  match goal with
  | |- context [save_current_config P volumes ?e s] =>
      destruct (save_current_config_write_back P volumes e s)
        as (evs & _ & _ & _ & Hsame);
      destruct (save_current_config P volumes e s) as [[status e'] s']
  end.
  cbn [fst snd] in *.
  by rewrite (hand_over_crc_region (errored st) _ e' Hsame).
Qed.

(** The loader parameters of a run are those selected from the two
    best of the candidates the run loaded. *)
Lemma load_config_selects (volumes : nat -> VOLUME_DESC)
    (volume_count : nat) (env : nat -> EnvDataVolume)
    (bglp : BG_LOADER_PARAMS) (s : World * list Event) :
  exists r0 r1,
    best_two P volumes
      (config_candidates P volumes volume_count env s) r0 r1 /\
    (load_config P volumes volume_count env bglp s).1.2 =
      selected_params (envdata <$> r0) (envdata <$> r1) bglp.
Proof.
  rewrite load_config_phases.
  unfold rank_configs, config_candidates. run_monad.
  destruct (config_partitions_quiet P volumes volume_count s)
    as (evs & _ & _ & Hst).
  destruct (config_partitions P volumes volume_count s)
    as [[[st cvs]|] s']; cbn [fst snd] in *.
  - destruct (Hst st cvs eq_refl) as [Hrank _].
    destruct (load_volumes_best_two P volumes env cvs st s' [])
      as [_ Hbest].
    { by rewrite Hrank. }
    { by rewrite Hrank. }
    cbn [app] in Hbest.
    destruct (load_volumes P volumes env st cvs s') as [st' s''].
    cbn [fst snd] in *.
    eexists _, _. split; [exact Hbest|]. apply choose_config_params.
  - exists None, None. split; reflexivity.
Qed.

(** Two runs of [load_config] that start from the same loader
    parameters and load candidates that are, as records on device
    paths, a permutation of each other, leave the same payload path,
    payload options and timeout when no two of the candidates tie on
    the criteria of the order that come before the volume index. *)
Lemma same_candidates_same_parameters
    (volumes1 volumes2 : nat -> VOLUME_DESC)
    (volume_count1 volume_count2 : nat)
    (env1 env2 : nat -> EnvDataVolume)
    (bglp : BG_LOADER_PARAMS) (s1 s2 : World * list Event) :
  map (describe volumes1)
    (config_candidates P volumes1 volume_count1 env1 s1) ≡ₚ
  map (describe volumes2)
    (config_candidates P volumes2 volume_count2 env2 s2) ->
  List.NoDup
    (map (tiebreak P)
       (map (describe volumes1)
          (config_candidates P volumes1 volume_count1 env1 s1))) ->
  payload_path (load_config P volumes1 volume_count1 env1 bglp s1).1.2 =
    payload_path (load_config P volumes2 volume_count2 env2 bglp s2).1.2 /\
  payload_options (load_config P volumes1 volume_count1 env1 bglp s1).1.2 =
    payload_options
      (load_config P volumes2 volume_count2 env2 bglp s2).1.2 /\
  timeout (load_config P volumes1 volume_count1 env1 bglp s1).1.2 =
    timeout (load_config P volumes2 volume_count2 env2 bglp s2).1.2.
Proof.
  intros Hperm Hnodup.
  destruct (load_config_selects volumes1 volume_count1 env1 bglp s1)
    as (r0 & r1 & Hbest & ->).
  destruct (load_config_selects volumes2 volume_count2 env2 bglp s2)
    as (r0' & r1' & Hbest' & ->).
  destruct (ranked_records_agree _ _ _ _ _ _ _ _ Hbest Hbest' Hperm Hnodup)
    as [-> ->].
  auto.
Qed.

End Determinism.

Section TestVolumes.
Variable string_length num_config_parts : nat.
Variable size_of_envdata : Z.
Variable bgenv_crc32 : BG_ENVDATA -> Z.
Variable scenario : Z -> option BG_ENVDATA.
Hypothesis size_not_null : size_of_envdata <> 0.

Local Abbreviation test_platform :=
  (Harness.platform string_length num_config_parts size_of_envdata
     bgenv_crc32 scenario).
Local Abbreviation candidate :=
  (Harness.candidate_of string_length num_config_parts size_of_envdata
     bgenv_crc32 scenario).
Local Abbreviation record :=
  (Harness.record_of string_length num_config_parts size_of_envdata
     bgenv_crc32 scenario).

(** Without injected error a volume is loaded exactly when a valid
    record is behind it, and no error is injected later either. *)
Lemma test_read_config (flag : bool) (v : VOLUME_DESC) (buf : BG_ENVDATA)
    (w : Harness.World) (tr : list Event) :
  Harness.error_injection w = 0%nat ->
  Harness.error_injection (read_config test_platform flag v buf (w, tr)).2.1
    = 0%nat /\
  match scenario (root v) with
  | Some e =>
      if bgenv_crc32 (crc_region e) =? crc32 e
      then (read_config test_platform flag v buf (w, tr)).1
           = (flag, EFI_SUCCESS, e)
      else EFI_ERROR (read_config test_platform flag v buf (w, tr)).1.1.2
           = true
  | None =>
      EFI_ERROR (read_config test_platform flag v buf (w, tr)).1.1.2 = true
  end.
Proof.
  destruct w as [census injection wrote]. cbn [Harness.error_injection].
  intros ->.
  unfold read_config. run_monad.
  cbn [open_cfg_file read_cfg_file close_cfg_file CalculateCrc32
       sizeof_BG_ENVDATA Harness.platform fst snd].
  unfold Harness.volume_file_protocol_open, Harness.config_file_protocol_read,
    Harness.volume_file_protocol_close, Harness.CalculateCrc32.
  cbn [Harness.INJECT_ERROR Harness.error_injection EFI_ERROR fst snd].
  destruct (scenario (root v)) as [e|].
  - rewrite Z.gtb_ltb, Z.ltb_irrefl.
    cbn [fst snd EFI_ERROR]. rewrite Z.eqb_refl.
    cbn [negb Harness.INJECT_ERROR Harness.error_injection fst snd EFI_ERROR].
    destruct (bgenv_crc32 (crc_region e) =? crc32 e);
      cbn [negb fst snd EFI_ERROR Harness.error_injection]; auto.
  - cbn [fst snd EFI_ERROR].
    rewrite (proj2 (Z.eqb_neq 0 size_of_envdata)) by congruence.
    cbn [negb fst snd EFI_ERROR Harness.error_injection EFI_BAD_BUFFER_SIZE].
    auto.
Qed.

Section TestRounds.
Variable volumes : nat -> VOLUME_DESC.
Variable env : nat -> EnvDataVolume.

Lemma test_round (st : LoadState) (cv : nat) (w : Harness.World)
    (tr : list Event) (r0 r1 r2 : option EnvDataVolume) :
  rank_envdata st = [r0; r1; r2] ->
  Harness.error_injection w = 0%nat ->
  map (describe volumes)
    (loaded_here test_platform volumes env st cv (w, tr)) =
    option_list (record (volumes cv)) /\
  Harness.error_injection
    (load_volume test_platform volumes env st cv (w, tr)).2.1 = 0%nat.
Proof.
  intros Hrank Hquiet.
  unfold loaded_here, load_volume, read_volume, Harness.record_of.
  run_monad. rewrite Hrank.
  cbn [ENVSLOTS Nat.sub lookup_total list_lookup_total].
  destruct r2 as [slot|];
    match goal with
    | |- context [read_config test_platform false ?v ?b (w, tr)] =>
        destruct (test_read_config false v b w tr Hquiet) as [Hlater Hread];
        destruct (read_config test_platform false v b (w, tr))
          as [[[read_error status] buf] [w' tr']]
    end;
    cbn [fst snd set_volume_index volume_index] in *;
    (destruct (scenario (root (volumes cv))) as [e|];
     [destruct (bgenv_crc32 (crc_region e) =? crc32 e);
      [injection Hread as -> -> ->|rewrite Hread]
     |rewrite Hread]);
    cbn [EFI_ERROR fst snd]; split; (reflexivity || exact Hlater).
Qed.

Lemma test_rounds (cvs : list nat) :
  forall (st : LoadState) (w : Harness.World) (tr : list Event),
    length (rank_envdata st) = 3%nat ->
    Harness.error_injection w = 0%nat ->
    map (describe volumes)
      (loaded_candidates test_platform volumes env st cvs (w, tr)) =
    omap (fun cv => record (volumes cv)) cvs.
Proof.
  induction cvs as [|cv cvs IH]; intros st w tr Hlen Hquiet; [reflexivity|].
  destruct (rank_envdata st) as [|r0 [|r1 [|r2 [|]]]] eqn:Hrank;
    try discriminate.
  destruct (test_round st cv w tr r0 r1 r2 Hrank Hquiet) as [Hhere Hlater].
  destruct (load_volume_round test_platform volumes env st cv (w, tr)
              r0 r1 r2 Hrank)
    as (status & slot & reserve & flag & s' & _ & Hload & _).
  cbn [loaded_candidates omap list_omap]. rewrite map_app, Hhere.
  rewrite Hload in Hlater |- *. destruct s' as [w' tr'].
  cbn [fst snd] in Hlater. rewrite IH; [|clear IH|exact Hlater].
  - by destruct (record (volumes cv)).
  - cbn [rank_envdata]. destruct (EFI_ERROR status); [reflexivity|].
    by rewrite sift_loop_three.
Qed.

End TestRounds.

Lemma omap_filter_decide {A B : Type} (f : A -> option B) (Q : A -> Prop)
    `{forall x, Decision (Q x)} (l : list A) :
  omap f (filter Q l) = omap (fun x => if decide (Q x) then f x else None) l.
Proof.
  induction l as [|x l IH]; [reflexivity|].
  rewrite filter_cons. cbn [omap list_omap].
  destruct (decide (Q x)); cbn [omap list_omap]; by rewrite IH.
Qed.

Lemma volume_array_seq (vs : list VOLUME_DESC) :
  map (Harness.volume_array vs) (seq 0 (length vs)) = vs.
Proof.
  induction vs as [|v vs IH]; [reflexivity|].
  cbn [length seq map]. rewrite <- seq_shift, map_map.
  cbn [Harness.volume_array nth]. f_equal. exact IH.
Qed.

(** The candidates of a run of the test without injected error are
    those its volumes contribute, in the order of the volume array. *)
Lemma test_candidates (vs : list VOLUME_DESC) (env : nat -> EnvDataVolume)
    (w : Harness.World) (tr : list Event) :
  Harness.error_injection w = 0%nat ->
  map (describe (Harness.volume_array vs))
    (config_candidates test_platform (Harness.volume_array vs) (length vs)
       env (w, tr)) =
  omap candidate vs.
Proof.
  intros Hquiet. destruct w as [census injection wrote].
  cbn [Harness.error_injection] in Hquiet. subst injection.
  unfold config_candidates, config_partitions. run_monad.
  destruct vs as [|v vs]; [reflexivity|].
  set (vs' := v :: vs).
  change (length vs' =? 0)%nat with false.
  cbn [fst snd AllocatePool enumerate_cfg_parts filter_cfg_parts
       Harness.platform].
  unfold Harness.AllocatePool, Harness.enumerate_cfg_parts,
    Harness.filter_cfg_parts.
  cbn [Harness.INJECT_ERROR Harness.error_injection negb EFI_ERROR fst snd].
  match goal with
  | |- context [loaded_candidates _ _ _ ?st ?cvs (?w, ?tr')] =>
      rewrite (test_rounds (Harness.volume_array vs') env cvs st w tr')
  end.
  - rewrite !omap_filter_decide.
    rewrite <- (volume_array_seq vs') at 2.
    change (length vs') with (S (length vs)).
    generalize (seq 0 (S (length vs))). intros l.
    induction l as [|i l IH]; [reflexivity|].
    cbn [map omap list_omap]. rewrite IH. unfold Harness.candidate_of.
    by destruct (decide (root (Harness.volume_array vs' i) ≠ 0)),
         (decide (devpath (Harness.volume_array vs' i)
                  ≠ Harness.non_boot_disk)).
  - by destruct (negb _).
  - reflexivity.
Qed.

(** Determinism under permutation for the volumes of the unit test: two
    runs without injected error on volume arrays that are permutations
    of each other leave the same loader parameters, when no two of the
    candidates tie on the criteria that come before the volume index. *)
Theorem test_volumes_shuffle (vs1 vs2 : list VOLUME_DESC)
    (env1 env2 : nat -> EnvDataVolume) (bglp : BG_LOADER_PARAMS)
    (w1 w2 : Harness.World) (tr1 tr2 : list Event) :
  vs1 ≡ₚ vs2 ->
  Harness.error_injection w1 = 0%nat ->
  Harness.error_injection w2 = 0%nat ->
  List.NoDup (map (tiebreak test_platform) (omap candidate vs1)) ->
  (load_config test_platform (Harness.volume_array vs1) (length vs1) env1
     bglp (w1, tr1)).1.2 =
  (load_config test_platform (Harness.volume_array vs2) (length vs2) env2
     bglp (w2, tr2)).1.2.
Proof.
  intros Hperm Hquiet1 Hquiet2 Hnodup.
  destruct (load_config_selects test_platform (Harness.volume_array vs1)
              (length vs1) env1 bglp (w1, tr1))
    as (r0 & r1 & Hbest & ->).
  destruct (load_config_selects test_platform (Harness.volume_array vs2)
              (length vs2) env2 bglp (w2, tr2))
    as (r0' & r1' & Hbest' & ->).
  destruct (ranked_records_agree test_platform _ _ _ _ _ _ _ _ Hbest Hbest')
    as [-> ->]; [| |reflexivity].
  - rewrite !test_candidates by assumption. by rewrite Hperm.
  - by rewrite test_candidates.
Qed.

End TestVolumes.

Section VolumeOrder.
Context {World : Type} (P : Platform World).
Variable steady : World -> Prop.
Variable is_config : VOLUME_DESC -> bool.
Variable record_on : VOLUME_DESC -> option BG_ENVDATA.
Hypothesis answers : answers_by_volume P steady is_config record_on.

Local Abbreviation candidate := (volume_candidate P is_config record_on).

(** A round loads the record named for the volume, if one is. *)
Lemma steady_round (volumes : nat -> VOLUME_DESC)
    (env : nat -> EnvDataVolume) (st : LoadState) (cv : nat) (w : World)
    (tr : list Event) (r0 r1 r2 : option EnvDataVolume) :
  rank_envdata st = [r0; r1; r2] ->
  steady w ->
  map (describe volumes) (loaded_here P volumes env st cv (w, tr)) =
    option_list
      ((fun e => (nul_terminate P e, devpath (volumes cv)))
         <$> record_on (volumes cv)) /\
  steady (load_volume P volumes env st cv (w, tr)).2.1.
Proof.
  intros Hrank Hsteady. destruct answers as (_ & _ & Hread).
  unfold loaded_here, load_volume, read_volume. run_monad. rewrite Hrank.
  cbn [ENVSLOTS Nat.sub lookup_total list_lookup_total].
  destruct r2 as [slot|];
    match goal with
    | |- context [read_config P false ?v ?b (w, tr)] =>
        destruct (Hread false v b w tr Hsteady) as [Hlater Houtcome];
        destruct (read_config P false v b (w, tr))
          as [[[read_error status] buf] [w' tr']]
    end;
    cbn [fst snd set_volume_index volume_index] in *.
  all: destruct (record_on (volumes cv)) as [e|];
    [destruct Houtcome as [Hok ->]; rewrite Hok|rewrite Houtcome].
  all: cbn [fst snd]; split; (reflexivity || exact Hlater).
Qed.

Lemma steady_rounds (volumes : nat -> VOLUME_DESC)
    (env : nat -> EnvDataVolume) (cvs : list nat) :
  forall (st : LoadState) (w : World) (tr : list Event),
    length (rank_envdata st) = 3%nat ->
    steady w ->
    map (describe volumes)
      (loaded_candidates P volumes env st cvs (w, tr)) =
    omap (fun cv => (fun e => (nul_terminate P e, devpath (volumes cv)))
                      <$> record_on (volumes cv)) cvs.
Proof.
  induction cvs as [|cv cvs IH]; intros st w tr Hlen Hsteady;
    [reflexivity|].
  destruct (rank_envdata st) as [|r0 [|r1 [|r2 [|]]]] eqn:Hrank;
    try discriminate.
  destruct (steady_round volumes env st cv w tr r0 r1 r2 Hrank Hsteady)
    as [Hhere Hlater].
  destruct (load_volume_round P volumes env st cv (w, tr) r0 r1 r2 Hrank)
    as (status & slot & reserve & flag & s' & _ & Hload & _).
  cbn [loaded_candidates omap list_omap]. rewrite map_app, Hhere.
  rewrite Hload in Hlater |- *. destruct s' as [w' tr'].
  cbn [fst snd] in Hlater. rewrite IH; [|clear IH|exact Hlater].
  - by destruct (record_on (volumes cv)).
  - cbn [rank_envdata]. destruct (EFI_ERROR status); [reflexivity|].
    by rewrite sift_loop_three.
Qed.

(** The candidates of a run are those its volumes give, in some
    order. *)
Lemma steady_candidates (vs : list VOLUME_DESC) (env : nat -> EnvDataVolume)
    (w : World) (tr : list Event) :
  steady w ->
  map (describe (Harness.volume_array vs))
    (config_candidates P (Harness.volume_array vs) (length vs) env (w, tr))
  ≡ₚ omap candidate vs.
Proof.
  intros Hsteady. destruct answers as (Halloc & Henum & _).
  unfold config_candidates, config_partitions. run_monad.
  destruct vs as [|v vs]; [reflexivity|].
  set (vs' := v :: vs).
  change (length vs' =? 0)%nat with false. cbn [fst snd].
  match goal with
  | |- context [AllocatePool P ?size w] =>
      destruct (Halloc size w Hsteady) as [Hallocated Hsteady1];
      destruct (AllocatePool P size w) as [allocated w1]
  end.
  cbn [fst snd] in *. subst allocated. cbn [negb fst snd].
  match goal with
  | |- context [enumerate_cfg_parts P ?volumes ?count w1] =>
      destruct (Henum volumes count w1 Hsteady1)
        as (Hstatus & Hsteady2 & Hfilter);
      destruct (enumerate_cfg_parts P volumes count w1)
        as [[status found] w2]
  end.
  cbn [fst snd] in *. rewrite Hstatus. cbn [fst snd].
  match goal with
  | |- context [filter_cfg_parts P ?volumes found w2] =>
      destruct (Hfilter w2 Hsteady2) as [Hsteady3 Hkept];
      destruct (filter_cfg_parts P volumes found w2) as [kept w3]
  end.
  cbn [fst snd] in *.
  rewrite (steady_rounds (Harness.volume_array vs') env kept);
    [|by destruct (negb _)|exact Hsteady3].
  rewrite Hkept, omap_filter_decide.
  assert (forall l,
            omap (fun vx =>
                    if decide (is_config (Harness.volume_array vs' vx) = true)
                    then (fun e =>
                            (nul_terminate P e,
                             devpath (Harness.volume_array vs' vx)))
                           <$> record_on (Harness.volume_array vs' vx)
                    else None) l =
            omap candidate (map (Harness.volume_array vs') l)) as ->.
  { induction l as [|i l IH]; [reflexivity|].
    cbn [map omap list_omap]. rewrite IH. unfold volume_candidate.
    destruct (is_config (Harness.volume_array vs' i));
      by destruct (decide _). }
  by rewrite volume_array_seq.
Qed.

(** C9 as amended, determinism under permutation.  Take two runs of
    [load_config] that start from the same loader parameters, on volume
    arrays that are permutations of each other, with services that
    answer by the volume (the same volumes are config volumes, and the
    load of a volume gives the same record or fails, in both runs).
    When no two of the candidates the volumes give tie on the criteria
    of the order that do not look at the place in the array (in
    progress, revision, state rank, boot volume), both runs leave the
    same payload path, payload options and timeout. *)
Theorem permutation_determinism (vs1 vs2 : list VOLUME_DESC)
    (env1 env2 : nat -> EnvDataVolume) (bglp : BG_LOADER_PARAMS)
    (w1 w2 : World) (tr1 tr2 : list Event) :
  vs1 ≡ₚ vs2 ->
  steady w1 ->
  steady w2 ->
  List.NoDup (map (tiebreak P) (omap candidate vs1)) ->
  payload_path
    (load_config P (Harness.volume_array vs1) (length vs1) env1 bglp
       (w1, tr1)).1.2 =
  payload_path
    (load_config P (Harness.volume_array vs2) (length vs2) env2 bglp
       (w2, tr2)).1.2 /\
  payload_options
    (load_config P (Harness.volume_array vs1) (length vs1) env1 bglp
       (w1, tr1)).1.2 =
  payload_options
    (load_config P (Harness.volume_array vs2) (length vs2) env2 bglp
       (w2, tr2)).1.2 /\
  timeout
    (load_config P (Harness.volume_array vs1) (length vs1) env1 bglp
       (w1, tr1)).1.2 =
  timeout
    (load_config P (Harness.volume_array vs2) (length vs2) env2 bglp
       (w2, tr2)).1.2.
Proof.
  intros Hperm Hsteady1 Hsteady2 Hnodup.
  pose proof (steady_candidates vs1 env1 w1 tr1 Hsteady1) as Hcands1.
  pose proof (steady_candidates vs2 env2 w2 tr2 Hsteady2) as Hcands2.
  apply (same_candidates_same_parameters P).
  - by rewrite Hcands1, Hcands2, Hperm.
  - by rewrite Hcands1.
Qed.

End VolumeOrder.

Section TestAnswers.
Variable string_length num_config_parts : nat.
Variable size_of_envdata : Z.
Variable bgenv_crc32 : BG_ENVDATA -> Z.
Variable scenario : Z -> option BG_ENVDATA.
Hypothesis size_not_null : size_of_envdata <> 0.

(** Without injected error the doubles of the test answer by the
    volume. *)
Lemma test_doubles_answer_by_volume :
  answers_by_volume
    (Harness.platform string_length num_config_parts size_of_envdata
       bgenv_crc32 scenario)
    (fun w => Harness.error_injection w = 0%nat)
    Harness.is_config_volume
    (Harness.valid_record bgenv_crc32 scenario).
Proof.
  split; [|split].
  - intros size [census injection wrote]. cbn [Harness.error_injection].
    intros ->. by split.
  - intros volumes volume_count [census injection wrote].
    cbn [Harness.error_injection]. intros ->.
    cbn [enumerate_cfg_parts filter_cfg_parts Harness.platform].
    unfold Harness.enumerate_cfg_parts, Harness.filter_cfg_parts.
    cbn [Harness.INJECT_ERROR Harness.error_injection EFI_ERROR fst snd].
    split; [reflexivity|]. split; [reflexivity|].
    intros w' Hsteady. split; [exact Hsteady|].
    rewrite list_filter_filter.
    erewrite list_filter_iff; [reflexivity|].
    intros vx. unfold Harness.is_config_volume.
    rewrite bool_decide_eq_true. tauto.
  - intros flag volume buf w tr Hsteady.
    destruct (test_read_config string_length num_config_parts
                size_of_envdata bgenv_crc32 scenario size_not_null
                flag volume buf w tr Hsteady) as [Hlater Hread].
    split; [exact Hlater|]. unfold Harness.valid_record.
    destruct (scenario (root volume)) as [e|]; [|exact Hread].
    destruct (bgenv_crc32 (crc_region e) =? crc32 e); [|exact Hread].
    by rewrite Hread.
Qed.

End TestAnswers.

Section WriteBackStatus.
Context {World : Type} (P : Platform World).
Variable volumes : nat -> VOLUME_DESC.



End WriteBackStatus.

(** ** The scenarios of the unit test *)

(** [load_config_num_cfg_parts] and [load_config_num_cfg_parts_error]:
    the newer of two valid records is handed over with BG_SUCCESS, and an
    error injected at any of the ten injection points of the run is
    reported. *)
Example load_config_num_cfg_parts :
  (Fixtures.run Fixtures.num_cfg_parts Fixtures.two_volumes 0).1 =
    (BG_SUCCESS,
     {| payload_path :=
          Some (Fixtures.str_kernelparams ++ [0]);
        payload_options := Some [0];
        timeout := 11 |}) /\
  Harness.error_census
    (Fixtures.run Fixtures.num_cfg_parts Fixtures.two_volumes 0).2.1
    = 10%nat /\
  forallb
    (fun ex =>
       match (Fixtures.run Fixtures.num_cfg_parts Fixtures.two_volumes ex).1.1
       with BG_SUCCESS => false | _ => true end)
    (seq 1 10) = true.
Proof. vm_compute. auto. Qed.

(** [load_config_rank_ustate]: an INSTALLED record is preferred to one
    under test and is written back as TESTING at its revision; a record
    under test is preferred to an OK one, is written back as FAILED at
    the failed revision, and the other record is handed over. *)
Example load_config_rank_ustate :
  payload_path
    (Fixtures.run Fixtures.rank_ustate_installed Fixtures.two_volumes 0).1.2
    = Some (Fixtures.str_first ++ [0]) /\
  (let wrote :=
     Harness.config_file_protocol_wrote
       (Fixtures.run Fixtures.rank_ustate_installed
          Fixtures.two_volumes 0).2.1 in
   revision wrote = 1 /\ ustate wrote = USTATE_TESTING) /\
  payload_path
    (Fixtures.run Fixtures.rank_ustate_testing Fixtures.two_volumes 0).1.2
    = Some (Fixtures.str_second ++ [0]) /\
  (let wrote :=
     Harness.config_file_protocol_wrote
       (Fixtures.run Fixtures.rank_ustate_testing
          Fixtures.two_volumes 0).2.1 in
   revision wrote = REVISION_FAILED /\ ustate wrote = USTATE_FAILED).
Proof. vm_compute. auto. Qed.

(** [load_config_rank_inprogress]: the older record is handed over when
    the newer one is in progress. *)
Example load_config_rank_inprogress :
  (Fixtures.run Fixtures.rank_inprogress Fixtures.two_volumes 0).1.1
    = BG_SUCCESS /\
  timeout (Fixtures.run Fixtures.rank_inprogress Fixtures.two_volumes 0).1.2
    = 99.
Proof. vm_compute. auto. Qed.

(** [load_config_rank_bootvolume]: of two records that tie up to the
    boot volume, the one on the boot volume is handed over, wherever it
    is in the volume array. *)
Example load_config_rank_bootvolume :
  timeout (Fixtures.run Fixtures.rank_equal Fixtures.boot_and_other 0).1.2
    = 11 /\
  timeout (Fixtures.run Fixtures.rank_equal Fixtures.other_and_boot 0).1.2
    = 11.
Proof. vm_compute. auto. Qed.

(** [load_config_rank_volumeindex]: when only the volume index separates
    two records, the record on the first volume of the array is handed
    over, so that the parameters depend on the order of the array: the
    test computes the timeout it expects from the shuffled array. *)
Example load_config_rank_volumeindex :
  Fixtures.both_boot ≡ₚ Fixtures.both_boot_shuffled /\
  timeout (Fixtures.run Fixtures.rank_equal Fixtures.both_boot 0).1.2
    = 11 /\
  timeout (Fixtures.run Fixtures.rank_equal Fixtures.both_boot_shuffled 0).1.2
    = 99.
Proof. split; [apply perm_swap|]. vm_compute. auto. Qed.

(** [load_config_fail_inprogress] *)
Example load_config_fail_inprogress :
  (Fixtures.run Fixtures.fail_inprogress Fixtures.two_volumes 0).1.1
  = BG_CONFIG_ERROR.
Proof. vm_compute. reflexivity. Qed.

(** ** Runs that show what the code does where a claim fails *)

(** C9 as stated fails.  Two config volumes on the boot volume hold
    records that differ in the timeout only (revision 1, not in
    progress, state OK; timeouts 11 and 99).  On the volume array and
    on the array with the two volumes exchanged, the rules of the order
    resolve fully which of the two candidates loaded is preferred (the
    volume index decides), and the two runs return different
    timeouts. *)
Lemma volume_index_breaks_determinism :
  Fixtures.both_boot ≡ₚ Fixtures.both_boot_shuffled /\
  (exists c0 c1,
     config_candidates (Fixtures.platform Fixtures.rank_equal)
       (Harness.volume_array Fixtures.both_boot) 2 Fixtures.no_slots
       (Fixtures.world 0, []) = [c0; c1] /\
     spec_preferred (Fixtures.platform Fixtures.rank_equal)
       (Harness.volume_array Fixtures.both_boot) (Some c0) (Some c1)
       = true) /\
  (exists c0 c1,
     config_candidates (Fixtures.platform Fixtures.rank_equal)
       (Harness.volume_array Fixtures.both_boot_shuffled) 2
       Fixtures.no_slots (Fixtures.world 0, []) = [c0; c1] /\
     spec_preferred (Fixtures.platform Fixtures.rank_equal)
       (Harness.volume_array Fixtures.both_boot_shuffled) (Some c0)
       (Some c1) = true) /\
  timeout (Fixtures.run Fixtures.rank_equal Fixtures.both_boot 0).1.2 <>
  timeout
    (Fixtures.run Fixtures.rank_equal Fixtures.both_boot_shuffled 0).1.2.
Proof.
  split; [apply perm_swap|]. split; [|split].
  - exists {| volume_index := 0;
              envdata := Fixtures.record 1 false USTATE_OK 11 [] |},
           {| volume_index := 1;
              envdata := Fixtures.record 1 false USTATE_OK 99 [] |}.
    split; vm_compute; reflexivity.
  - exists {| volume_index := 0;
              envdata := Fixtures.record 1 false USTATE_OK 99 [] |},
           {| volume_index := 1;
              envdata := Fixtures.record 1 false USTATE_OK 11 [] |}.
    split; vm_compute; reflexivity.
  - vm_compute. discriminate.
Qed.

(** The write-back at the failing input of C5: the write stores 1031 of
    the 1032 bytes of the record and returns EFI_SUCCESS, and the
    write-back returns BG_SUCCESS. *)
Example short_write_taken_for_success :
  In (EvWrite 101 1032
        (set_crc32 (Fixtures.bgenv_crc32 (crc_region Fixtures.active))
           Fixtures.active)
        EFI_SUCCESS 1031)
     (save_current_config
        (short_Write_platform Fixtures.num_cfg_parts)
        (Harness.volume_array Fixtures.two_volumes)
        {| volume_index := 0; envdata := Fixtures.active |}
        (Fixtures.world 0, [])).2.2 /\
  1031 < 1032 /\
  (save_current_config
     (short_Write_platform Fixtures.num_cfg_parts)
     (Harness.volume_array Fixtures.two_volumes)
     {| volume_index := 0; envdata := Fixtures.active |}
     (Fixtures.world 0, [])).1.1 = BG_SUCCESS.
Proof.
  split; [|split; [lia|vm_compute; reflexivity]].
  vm_compute. right. right. left. reflexivity.
Qed.

(** C4 at its failing input: the scenario of [load_config_rank_ustate]
    with the INSTALLED leader, and the error injected at the eleventh
    injection point, the open of the write-back.  The open fails, nothing
    is written, and [load_config] returns BG_SUCCESS. *)
Lemma write_back_failure_unreported :
  In (EvOpen 101 (Z.lor EFI_FILE_MODE_WRITE EFI_FILE_MODE_READ)
        EFI_INVALID_PARAMETER 0)
     (Fixtures.run Fixtures.rank_ustate_installed
        Fixtures.two_volumes 11).2.2 /\
  existsb (fun e => match e with EvWrite _ _ _ _ _ => true | _ => false end)
     (Fixtures.run Fixtures.rank_ustate_installed
        Fixtures.two_volumes 11).2.2 = false /\
  errored
    (Fixtures.ranked Fixtures.rank_ustate_installed Fixtures.two_volumes 11)
    = false /\
  (Fixtures.run Fixtures.rank_ustate_installed Fixtures.two_volumes 11).1.1
    = BG_SUCCESS.
Proof.
  split; [|split; [|split]]; try (vm_compute; reflexivity).
  vm_compute. do 11 right. left. reflexivity.
Qed.

(** C6 at its failing input: a record under test at revision 2, not in
    progress, and a record at revision 1 whose write is in progress.
    The leader is demoted and the record in progress is handed over. *)
Lemma in_progress_runner_up_handed_over :
  In {| volume_index := 0;
        envdata := Fixtures.record 2 false USTATE_TESTING 11
                     Fixtures.str_first |}
    (config_candidates
       (Fixtures.platform Fixtures.testing_before_inprogress)
       (Harness.volume_array Fixtures.two_volumes) 2 Fixtures.no_slots
       (Fixtures.world 0, [])) /\
  In {| volume_index := 1;
        envdata := Fixtures.record 1 true USTATE_OK 99
                     Fixtures.str_second |}
    (config_candidates
       (Fixtures.platform Fixtures.testing_before_inprogress)
       (Harness.volume_array Fixtures.two_volumes) 2 Fixtures.no_slots
       (Fixtures.world 0, [])) /\
  (Fixtures.run Fixtures.testing_before_inprogress
     Fixtures.two_volumes 0).1 =
    hand_over false
      {| volume_index := 1;
         envdata := Fixtures.record 1 true USTATE_OK 99
                      Fixtures.str_second |}.
Proof.
  split; [|split].
  - vm_compute. left. reflexivity.
  - vm_compute. right. left. reflexivity.
  - vm_compute. reflexivity.
Qed.

(** ** The theorems at scenarios of the unit test *)



Lemma config_error_atomicity_witness :
  rank_configs (Fixtures.platform Fixtures.fail_inprogress)
    (Harness.volume_array Fixtures.two_volumes) 2 Fixtures.no_slots
    (Fixtures.world 0, []) =
  (Some (Fixtures.ranked Fixtures.fail_inprogress Fixtures.two_volumes 0),
   (Fixtures.ranking Fixtures.fail_inprogress Fixtures.two_volumes 0).2)
  /\
  in_progress
    (envdata
       (Fixtures.leader_of
          (Fixtures.ranked Fixtures.fail_inprogress
             Fixtures.two_volumes 0))) = true /\
  (load_config (Fixtures.platform Fixtures.fail_inprogress)
     (Harness.volume_array Fixtures.two_volumes) 2 Fixtures.no_slots
     Fixtures.bglp0 (Fixtures.world 0, [])).1.1 = BG_CONFIG_ERROR.
Proof.
  assert (rank_configs (Fixtures.platform Fixtures.fail_inprogress)
            (Harness.volume_array Fixtures.two_volumes) 2 Fixtures.no_slots
            (Fixtures.world 0, []) =
          (Some (Fixtures.ranked Fixtures.fail_inprogress
                   Fixtures.two_volumes 0),
           (Fixtures.ranking Fixtures.fail_inprogress
              Fixtures.two_volumes 0).2)) as Hranked.
  { vm_compute. reflexivity. }
  split; [exact Hranked|]. split; [vm_compute; reflexivity|].
  apply (config_error_atomicity _ _ _ _ Fixtures.bglp0 _ _ _ Hranked).
  right.
  exists (Fixtures.leader_of
            (Fixtures.ranked Fixtures.fail_inprogress
               Fixtures.two_volumes 0)).
  split; vm_compute; reflexivity.
Defined.

Lemma permutation_determinism_witness :
  Fixtures.boot_and_other ≡ₚ Fixtures.other_and_boot /\
  Harness.error_injection (Fixtures.world 0) = 0%nat /\
  List.NoDup
    (map
       (tiebreak
          (Harness.platform 255 2 1032 Fixtures.bgenv_crc32
             (Fixtures.scenario_of Fixtures.rank_equal)))
       (omap
          (volume_candidate
             (Harness.platform 255 2 1032 Fixtures.bgenv_crc32
                (Fixtures.scenario_of Fixtures.rank_equal))
             Harness.is_config_volume
             (Harness.valid_record Fixtures.bgenv_crc32
                (Fixtures.scenario_of Fixtures.rank_equal)))
          Fixtures.boot_and_other)) /\
  timeout
    (load_config
       (Harness.platform 255 2 1032 Fixtures.bgenv_crc32
          (Fixtures.scenario_of Fixtures.rank_equal))
       (Harness.volume_array Fixtures.boot_and_other)
       (length Fixtures.boot_and_other) Fixtures.no_slots Fixtures.bglp0
       (Fixtures.world 0, [])).1.2 =
  timeout
    (load_config
       (Harness.platform 255 2 1032 Fixtures.bgenv_crc32
          (Fixtures.scenario_of Fixtures.rank_equal))
       (Harness.volume_array Fixtures.other_and_boot)
       (length Fixtures.other_and_boot) Fixtures.no_slots Fixtures.bglp0
       (Fixtures.world 0, [])).1.2.
Proof.
  assert (1032 <> 0) as Hsize by discriminate.
  assert (Fixtures.boot_and_other ≡ₚ Fixtures.other_and_boot) as Hperm
    by apply perm_swap.
  assert (List.NoDup
            (map
               (tiebreak
                  (Harness.platform 255 2 1032 Fixtures.bgenv_crc32
                     (Fixtures.scenario_of Fixtures.rank_equal)))
               (omap
                  (volume_candidate
                     (Harness.platform 255 2 1032 Fixtures.bgenv_crc32
                        (Fixtures.scenario_of Fixtures.rank_equal))
                     Harness.is_config_volume
                     (Harness.valid_record Fixtures.bgenv_crc32
                        (Fixtures.scenario_of Fixtures.rank_equal)))
                  Fixtures.boot_and_other))) as Hnodup.
  { vm_compute. repeat constructor; cbn; intuition discriminate. }
  split; [exact Hperm|]. split; [reflexivity|]. split; [exact Hnodup|].
  apply (permutation_determinism
           (Harness.platform 255 2 1032 Fixtures.bgenv_crc32
              (Fixtures.scenario_of Fixtures.rank_equal))
           (fun w => Harness.error_injection w = 0%nat)
           Harness.is_config_volume
           (Harness.valid_record Fixtures.bgenv_crc32
              (Fixtures.scenario_of Fixtures.rank_equal))
           (test_doubles_answer_by_volume 255 2 1032 Fixtures.bgenv_crc32
              (Fixtures.scenario_of Fixtures.rank_equal) Hsize)
           Fixtures.boot_and_other Fixtures.other_and_boot
           Fixtures.no_slots Fixtures.no_slots Fixtures.bglp0
           (Fixtures.world 0) (Fixtures.world 0) [] [] Hperm eq_refl eq_refl
           Hnodup).
Defined.



(** * Further properties of the code *)

Section Strings.

Lemma StrLen_le (s : list Z) : (StrLen s <= length s)%nat.
Proof.
  induction s as [|c s IH]; cbn [StrLen length]; [lia|].
  destruct (c =? 0); lia.
Qed.

Lemma StrLen_terminated (s : list Z) : In 0 s -> (StrLen s < length s)%nat.
Proof.
  induction s as [|c s IH]; cbn [StrLen length In]; [tauto|].
  destruct (Z.eqb_spec c 0) as [->|Hc]; [lia|].
  intros [->|Hin]; [done|]. apply IH in Hin. lia.
Qed.

Lemma StrDuplicate_text (s : list Z) :
  In 0 s -> StrDuplicate s = take (StrLen s) s ++ [0].
Proof.
  induction s as [|c s IH]; cbn [StrDuplicate StrLen In]; [tauto|].
  destruct (Z.eqb_spec c 0) as [->|Hc]; [reflexivity|].
  intros [->|Hin]; [done|]. cbn [take app]. by rewrite IH.
Qed.

Lemma StrLen_text (s : list Z) : StrLen (take (StrLen s) s ++ [0]) = StrLen s.
Proof.
  induction s as [|c s IH]; cbn [StrLen]; [reflexivity|].
  destruct (Z.eqb_spec c 0) as [->|Hc]; [reflexivity|].
  cbn [take app StrLen]. rewrite (proj2 (Z.eqb_neq c 0) Hc). by rewrite IH.
Qed.

Lemma StrCmp_text (s : list Z) : StrCmp (take (StrLen s) s ++ [0]) s = 0.
Proof.
  induction s as [|c s IH]; cbn [StrLen]; [reflexivity|].
  destruct (Z.eqb_spec c 0) as [->|Hc]; [reflexivity|].
  cbn [take app StrCmp hd tl]. rewrite (proj2 (Z.eqb_neq c 0) Hc).
  by rewrite Z.sub_diag, Z.eqb_refl.
Qed.

(** X1.  [StrCmp] returns 0 exactly when the two strings hold the same code
    units before their terminators. *)
Theorem StrCmp_zero_iff (s1 s2 : list Z) :
  StrCmp s1 s2 = 0 <-> take (StrLen s1) s1 = take (StrLen s2) s2.
Proof.
  revert s2. induction s1 as [|c1 s1 IH]; intros s2.
  - cbn [StrCmp StrLen take hd]. destruct s2 as [|c2 s2]; [done|].
    cbn [hd StrLen]. destruct (Z.eqb_spec c2 0) as [->|Hc]; [done|].
    cbn [take]. split; [lia|discriminate].
  - cbn [StrCmp StrLen hd tl].
    destruct (Z.eqb_spec c1 0) as [->|Hc1].
    + cbn [take]. destruct s2 as [|c2 s2]; [done|]. cbn [hd StrLen].
      destruct (Z.eqb_spec c2 0) as [->|Hc2]; [done|].
      cbn [take]. split; [lia|discriminate].
    + cbn [take]. destruct s2 as [|c2 s2].
      * cbn [hd StrLen take]. rewrite Z.sub_0_r.
        rewrite (proj2 (Z.eqb_neq c1 0) Hc1). split; [lia|discriminate].
      * cbn [hd tl StrLen]. destruct (Z.eqb_spec (c1 - c2) 0) as [Heq|Hne].
        -- assert (c2 = c1) as -> by lia.
           rewrite (proj2 (Z.eqb_neq c1 0) Hc1). cbn [take].
           rewrite IH. split; [by intros ->|by intros [= ->]].
        -- split; [lia|]. destruct (c2 =? 0); cbn [take]; [discriminate|].
           intros [= -> _]. lia.
Qed.

(** X2.  [StrDuplicate] of a terminated string copies it up to and including
    its terminator: the copy has the length of the string plus one code
    unit, the same [StrLen], and compares equal to the string. *)
Theorem StrDuplicate_copy (s : list Z) :
  In 0 s ->
  StrDuplicate s = take (StrLen s) s ++ [0] /\
  length (StrDuplicate s) = S (StrLen s) /\
  (length (StrDuplicate s) <= length s)%nat /\
  StrLen (StrDuplicate s) = StrLen s /\
  StrCmp (StrDuplicate s) s = 0.
Proof.
  intros Hin. pose proof (StrLen_terminated s Hin) as Hlt.
  rewrite (StrDuplicate_text s Hin).
  rewrite length_app, length_take. cbn [length].
  repeat split; [lia|lia|apply StrLen_text|apply StrCmp_text].
Qed.

End Strings.

Section Shuffling.
Context {A : Type}.

Lemma shuffle_rounds_perm (random : nat -> nat) (rounds : nat) :
  forall (vx : nat) (volumes : list A),
    shuffle_rounds random rounds vx volumes ≡ₚ volumes.
Proof.
  induction rounds as [|rounds IH]; intros vx volumes; [reflexivity|].
  cbn [shuffle_rounds]. rewrite IH.
  set (wx := (vx + random vx mod (length volumes - vx))%nat).
  destruct (vx =? wx)%nat; [reflexivity|].
  destruct (volumes !! vx) as [swap|] eqn:Hvx; [|reflexivity].
  destruct (volumes !! wx) as [other|] eqn:Hwx; [|reflexivity].
  by apply Permutation_insert_swap.
Qed.

(** X3.  [shuffle_volumes] leaves a permutation of the volume array, of the
    same length, whatever [random()] returns. *)
Theorem shuffle_volumes_permutes (random : nat -> nat) (volumes : list A) :
  shuffle_volumes random volumes ≡ₚ volumes /\
  length (shuffle_volumes random volumes) = length volumes.
Proof.
  assert (shuffle_volumes random volumes ≡ₚ volumes) as Hperm.
  { apply shuffle_rounds_perm. }
  split; [exact Hperm|]. by rewrite Hperm.
Qed.

End Shuffling.

Section TestDoubles.

Lemma inject_errors_spec (n : nat) :
  forall w : Harness.World,
    (inject_errors n w).1 =
      map (fun i => bool_decide (S i = Harness.error_injection w)) (seq 0 n) /\
    Harness.error_injection (inject_errors n w).2 =
      (Harness.error_injection w - n)%nat /\
    Harness.error_census (inject_errors n w).2 =
      (Harness.error_census w + n -
       (if bool_decide (1 <= Harness.error_injection w <= n)%nat
        then 1 else 0))%nat /\
    Harness.config_file_protocol_wrote (inject_errors n w).2 =
      Harness.config_file_protocol_wrote w.
Proof.
  induction n as [|n IH]; intros [census injection wrote].
  - cbn. repeat split; try lia. case_bool_decide; lia.
  - cbn [inject_errors seq map]. rewrite <- seq_shift, map_map.
    unfold Harness.INJECT_ERROR.
    cbn [Harness.error_injection Harness.error_census
         Harness.config_file_protocol_wrote].
    destruct injection as [|[|injection]];
      match goal with
      | |- context [inject_errors n ?w'] =>
          destruct (IH w') as (Hrs & Hinj & Hcensus & Hwrote);
          destruct (inject_errors n w') as [later w'']
      end;
      cbn [fst snd Harness.error_injection Harness.error_census
           Harness.config_file_protocol_wrote] in *;
      rewrite Hrs, Hinj, Hcensus, Hwrote.
    all: split;
      [f_equal;
       first [apply map_ext; intros i; repeat case_bool_decide; lia
             |repeat case_bool_decide; (reflexivity || lia)]|].
    all: split; [lia|]; split; [|reflexivity].
    all: repeat case_bool_decide; lia.
Qed.

(** X4.  [INJECT_ERROR]: with [error_injection] set to [k], of any number of
    successive injection points the [k]-th injects the error and no
    other does; [error_injection] is counted down to 0 and stays there,
    and [error_census] counts the points that did not inject. *)
Theorem inject_error_once (n : nat) (w : Harness.World) :
  (forall i, (i < n)%nat ->
     (inject_errors n w).1 !! i =
       Some (bool_decide (S i = Harness.error_injection w))) /\
  length (filter (fun b => b = true) (inject_errors n w).1) =
    (if bool_decide (1 <= Harness.error_injection w <= n)%nat
     then 1 else 0)%nat /\
  Harness.error_injection (inject_errors n w).2 =
    (Harness.error_injection w - n)%nat /\
  (Harness.error_census (inject_errors n w).2 +
   length (filter (fun b => b = true) (inject_errors n w).1) =
   Harness.error_census w + n)%nat.
Proof.
  destruct (inject_errors_spec n w) as (Hrs & Hinj & Hcensus & _).
  assert (length (filter (fun b => b = true) (inject_errors n w).1) =
          (if bool_decide (1 <= Harness.error_injection w <= n)%nat
           then 1 else 0)%nat) as Hcount.
  { rewrite Hrs. generalize (Harness.error_injection w). intros k.
    clear. induction n as [|n IH]; [by case_bool_decide; [lia|]|].
    rewrite seq_S, map_app, filter_app, length_app, IH. cbn [map].
    rewrite filter_cons, filter_nil. cbn [Nat.add].
    repeat case_bool_decide; destruct (decide _); cbn [length];
      try lia; try congruence. }
  split; [|split; [exact Hcount|split; [exact Hinj|]]].
  - intros i Hi. rewrite Hrs, list_lookup_fmap, lookup_seq_lt by lia.
    reflexivity.
  - rewrite Hcount, Hcensus. repeat case_bool_decide; lia.
Qed.

(** X5.  The doubles of [enumerate_cfg_parts] and [filter_cfg_parts]: when
    the enumeration succeeds, the indices the two leave in
    [config_volumes] are distinct, no more than were enumerated and no
    more than [volume_count], and they are exactly the indices below
    [volume_count] of the volumes that have a root and are not on the
    other disk. *)
Theorem config_volumes_in_bounds (volumes : nat -> VOLUME_DESC)
    (volume_count : nat) (w w' : Harness.World) :
  EFI_ERROR (Harness.enumerate_cfg_parts volumes volume_count w).1.1
    = false ->
  let found := (Harness.enumerate_cfg_parts volumes volume_count w).1.2 in
  let kept := (Harness.filter_cfg_parts volumes found w').1 in
  (length kept <= length found <= volume_count)%nat /\
  List.NoDup kept /\
  (forall vx, In vx kept <->
     (vx < volume_count)%nat /\
     root (volumes vx) <> 0 /\
     devpath (volumes vx) <> Harness.non_boot_disk).
Proof.
  unfold Harness.enumerate_cfg_parts, Harness.filter_cfg_parts.
  destruct (Harness.INJECT_ERROR w) as [[|] w1]; cbn [fst snd EFI_ERROR];
    [discriminate|]. intros _.
  split; [|split].
  - split; [apply length_filter|].
    etransitivity; [apply length_filter|]. by rewrite length_seq.
  - apply NoDup_ListNoDup, NoDup_filter, NoDup_filter, NoDup_seq.
  - intros vx. rewrite <- list_elem_of_In, !list_elem_of_filter, elem_of_seq.
    split; [intros (Hdisk & Hroot & Hvx)|intros (Hvx & Hroot & Hdisk)];
      repeat split; (assumption || lia).
Qed.

End TestDoubles.

Section Outcome.
Context {World : Type} (P : Platform World).
Variable volumes : nat -> VOLUME_DESC.
Variable volume_count : nat.
Variable env : nat -> EnvDataVolume.

Lemma handles_run_app (evs evs' : list Event) :
  forall cur,
    handles_run cur (evs ++ evs') =
    handles_run cur evs ≫= fun open => handles_run open evs'.
Proof.
  induction evs as [|e evs IH]; intros cur; [reflexivity|].
  destruct e; cbn [app handles_run]; try apply IH; try reflexivity;
    destruct cur as [[r h]|]; try reflexivity; try apply IH;
    match goal with |- context [if ?b then _ else _] => destruct b end;
    try reflexivity; apply IH.
Qed.

Lemma handles_closed_app (evs evs' : list Event) :
  handles_run None evs = Some None ->
  handles_run None evs' = Some None ->
  handles_run None (evs ++ evs') = Some None.
Proof. intros H H'. by rewrite handles_run_app, H. Qed.

Lemma load_fault_split (evs : list Event) :
  existsb (load_fault P) evs =
  existsb (hard_fault P) evs || existsb close_fault evs.
Proof.
  induction evs as [|e evs IH]; [reflexivity|].
  cbn [existsb]. rewrite IH. unfold load_fault.
  destruct (hard_fault P e), (close_fault e), (existsb (hard_fault P) evs);
    reflexivity.
Qed.

Lemma quiet_no_write (evs : list Event) :
  quiet evs -> List.filter is_EvWrite evs = [].
Proof.
  unfold quiet. induction evs as [|e evs IH]; [reflexivity|].
  cbn [forallb List.filter]. intros [He Hevs]%andb_prop.
  rewrite (IH Hevs). by destruct e.
Qed.

Lemma validated_app (evs evs' evs'' : list Event) (e : BG_ENVDATA) :
  validated P evs e -> validated P (evs' ++ evs ++ evs'') e.
Proof.
  intros (buf & status & Hin & Hok & He). exists buf, status.
  rewrite !in_app_iff. auto.
Qed.

(** The file [read_config] opens is closed when it returns. *)
Lemma read_config_handles (flag : bool) (volume : VOLUME_DESC)
    (buf : BG_ENVDATA) (s : World * list Event) :
  exists evs,
    (read_config P flag volume buf s).2.2 = s.2 ++ evs /\
    handles_run None evs = Some None.
Proof.
  unfold read_config. run_monad. destruct s as [w tr].
  platform_step.
  destruct (EFI_ERROR e) eqn:Hopen.
  { cbn [fst snd]. eexists. split; [reflexivity|].
    cbn [handles_run]. by rewrite Hopen. }
  platform_step. platform_step.
  destruct (EFI_ERROR e0).
  { cbn [fst snd]. eexists. split; [by rewrite <- !app_assoc|].
    cbn [handles_run app]. by rewrite Hopen, !Z.eqb_refl. }
  destruct (z0 =? sizeof_BG_ENVDATA P); cbn [negb].
  2:{ cbn [fst snd]. eexists. split; [by rewrite <- !app_assoc|].
      cbn [handles_run app]. by rewrite Hopen, !Z.eqb_refl. }
  platform_step.
  destruct (EFI_ERROR e2).
  { cbn [fst snd]. eexists. split; [by rewrite <- !app_assoc|].
    cbn [handles_run app]. by rewrite Hopen, !Z.eqb_refl. }
  destruct (z1 =? crc32 b); cbn [negb fst snd];
    (eexists; split; [by rewrite <- !app_assoc|]);
    cbn [handles_run app]; by rewrite Hopen, !Z.eqb_refl.
Qed.

Lemma load_volume_handles (st : LoadState) (cv : nat)
    (s : World * list Event) :
  exists evs,
    (load_volume P volumes env st cv s).2.2 = s.2 ++ evs /\
    handles_run None evs = Some None.
Proof.
  unfold load_volume, read_volume. run_monad.
  destruct (rank_envdata st !!! (ENVSLOTS - 1)%nat) as [slot|];
    match goal with
    | |- context [read_config P false ?v ?b s] =>
        destruct (read_config_handles false v b s)
          as (evs & Htrace & Hclosed);
        destruct (read_config P false v b s)
          as [[[read_error status] buf] [w' tr']]
    end;
    cbn [fst snd] in *; subst tr'; exists evs;
    (split; [by destruct (EFI_ERROR status)|exact Hclosed]).
Qed.

(** The loading loop, by its calls: none belongs to a write-back, every
    file opened is closed, the flag is set exactly when it was set
    before or a call flagged the run, and every candidate loaded was
    read and checked. *)
Lemma load_volumes_trace (cvs : list nat) :
  forall (st : LoadState) (s : World * list Event),
    length (rank_envdata st) = 3%nat ->
    exists evs,
      (load_volumes P volumes env st cvs s).2.2 = s.2 ++ evs /\
      quiet evs /\
      handles_run None evs = Some None /\
      errored (load_volumes P volumes env st cvs s).1 =
        errored st || existsb (load_fault P) evs /\
      Forall (fun c => validated P evs (envdata c))
        (loaded_candidates P volumes env st cvs s).
Proof.
  induction cvs as [|cv cvs IH]; intros st s Hlen.
  - exists []. cbn. rewrite app_nil_r, orb_false_r.
    repeat split; constructor.
  - destruct (rank_envdata st) as [|r0 [|r1 [|r2 [|]]]] eqn:Hrank;
      try discriminate.
    destruct (load_volume_faults P volumes env st cv s r0 r1 r2 Hrank)
      as (evs & buf & Htrace & Hquiet & _ & Hhard & Hsoft).
    destruct (load_volume_handles st cv s) as (evs0 & Htrace0 & Hclosed).
    rewrite Htrace in Htrace0. apply app_inv_head in Htrace0. subst evs0.
    cbn [load_volumes loaded_candidates]. run_monad.
    destruct (load_volume P volumes env st cv s) as [st1 s1].
    cbn [fst snd] in *.
    assert (length (rank_envdata st1) = 3%nat /\
            errored st1 = errored st || existsb (load_fault P) evs /\
            Forall (fun c => validated P evs (envdata c))
              (loaded_here P volumes env st cv s)) as (Hlen1 & Hflag1 & Hhere).
    { rewrite load_fault_split.
      destruct (existsb (hard_fault P) evs).
      - destruct (Hhard eq_refl) as (_ & -> & -> & ->).
        rewrite orb_true_r. by repeat split.
      - destruct (Hsoft eq_refl) as (Hok & -> & Hin & -> & ->).
        rewrite sift_loop_three. repeat split.
        constructor; [|constructor]. eexists _, _. eauto. }
    destruct (IH st1 s1 Hlen1)
      as (evs' & Htrace' & Hquiet' & Hclosed' & Hflag' & Hvalid').
    exists (evs ++ evs'). rewrite Htrace', Htrace, app_assoc.
    split; [reflexivity|]. split; [by apply quiet_app|].
    split; [by apply handles_closed_app|]. split.
    + by rewrite Hflag', Hflag1, existsb_app, orb_assoc.
    + apply Forall_app. split.
      * eapply Forall_impl; [exact Hhere|]. intros c Hc.
        apply (validated_app evs [] evs' _ Hc).
      * eapply Forall_impl; [exact Hvalid'|]. intros c Hc.
        pose proof (validated_app evs' evs [] _ Hc) as Hc'.
        by rewrite app_nil_r in Hc'.
Qed.

(** [load_config] up to the loading loop, by its calls: no file is
    opened, and the run is flagged exactly when the number of config
    partitions is not the expected one. *)
Lemma config_partitions_calls (s : World * list Event) :
  exists evs,
    (config_partitions P volumes volume_count s).2.2 = s.2 ++ evs /\
    handles_run None evs = Some None /\
    forall st cvs,
      (config_partitions P volumes volume_count s).1 = Some (st, cvs) ->
      errored st = negb (length cvs =? ENV_NUM_CONFIG_PARTS P)%nat.
Proof.
  unfold config_partitions. run_monad. destruct s as [w tr].
  destruct (volume_count =? 0)%nat.
  { exists []. cbn. rewrite app_nil_r. by repeat split. }
  platform_step. destruct b; cbn [negb fst snd].
  2:{ eexists. split; [reflexivity|]. by repeat split. }
  platform_step. destruct (EFI_ERROR e); cbn [fst snd].
  { eexists. split; [by rewrite <- !app_assoc|]. by repeat split. }
  platform_step.
  eexists. split; [by rewrite <- !app_assoc|]. split; [reflexivity|].
  intros st cvs [= <- <-]. by destruct (negb _).
Qed.

Lemma rank_configs_trace (s : World * list Event) :
  exists evs,
    (rank_configs P volumes volume_count env s).2.2 = s.2 ++ evs /\
    quiet evs /\
    handles_run None evs = Some None /\
    Forall (fun c => validated P evs (envdata c))
      (config_candidates P volumes volume_count env s).
Proof.
  unfold rank_configs, config_candidates. run_monad.
  destruct (config_partitions_quiet P volumes volume_count s)
    as (evs & Htrace & Hquiet & Hst).
  destruct (config_partitions_calls s) as (evs0 & Htrace0 & Hclosed & _).
  rewrite Htrace in Htrace0. apply app_inv_head in Htrace0. subst evs0.
  destruct (config_partitions P volumes volume_count s)
    as [[[st cvs]|] s']; cbn [fst snd] in *.
  - destruct (Hst st cvs eq_refl) as [Hrank _].
    destruct (load_volumes_trace cvs st s')
      as (evs' & Htrace' & Hquiet' & Hclosed' & _ & Hvalid').
    { by rewrite Hrank. }
    destruct (load_volumes P volumes env st cvs s') as [st' s''].
    cbn [fst snd] in *. exists (evs ++ evs').
    rewrite Htrace', Htrace, app_assoc. split; [reflexivity|].
    split; [by apply quiet_app|]. split; [by apply handles_closed_app|].
    eapply Forall_impl; [exact Hvalid'|]. intros c Hc.
    pose proof (validated_app evs' evs [] _ Hc) as Hc'.
    by rewrite app_nil_r in Hc'.
  - exists evs. by repeat split.
Qed.

Lemma rank_configs_best_two (s : World * list Event) :
  match (rank_configs P volumes volume_count env s).1 with
  | Some st =>
      best_two P volumes (config_candidates P volumes volume_count env s)
        (rank_envdata st !!! 0%nat) (rank_envdata st !!! 1%nat)
  | None => config_candidates P volumes volume_count env s = []
  end.
Proof.
  unfold rank_configs, config_candidates. run_monad.
  destruct (config_partitions_quiet P volumes volume_count s)
    as (evs & _ & _ & Hst).
  destruct (config_partitions P volumes volume_count s)
    as [[[st cvs]|] s']; cbn [fst snd] in *; [|reflexivity].
  destruct (Hst st cvs eq_refl) as [Hrank _].
  destruct (load_volumes_best_two P volumes env cvs st s' [])
    as [_ Hbest]; [by rewrite Hrank..|].
  cbn [app] in Hbest.
  by destruct (load_volumes P volumes env st cvs s') as [st' s''].
Qed.

Lemma best_two_members (cs : list EnvDataVolume)
    (r0 r1 : option EnvDataVolume) :
  best_two P volumes cs r0 r1 ->
  (forall a, r0 = Some a ->
     In a cs /\ forall c, In c cs -> c = a \/ not_preferred_to P volumes a c) /\
  (forall b, r1 = Some b -> In b cs /\ (2 <= length cs)%nat) /\
  (r0 = None -> cs = []) /\
  (r1 = None -> (length cs <= 1)%nat).
Proof.
  destruct r0 as [a|], r1 as [b|]; cbn [best_two]; intros Hbest;
    try contradiction.
  - destruct Hbest as (rest & Hperm & Ha & _).
    split; [|split; [|split; discriminate]].
    + intros ? [= <-]. split.
      * apply (Permutation_in _ (Permutation_sym Hperm)). by left.
      * intros c Hc. apply (Permutation_in _ Hperm) in Hc.
        destruct Hc as [<-|Hc]; [by left|]. right.
        rewrite Forall_forall in Ha. by apply Ha, list_elem_of_In.
    + intros ? [= <-]. split.
      * apply (Permutation_in _ (Permutation_sym Hperm)). right. by left.
      * apply Permutation_length in Hperm. rewrite Hperm. cbn. lia.
  - subst cs. split; [|split; [discriminate|split; [discriminate|cbn; lia]]].
    intros ? [= <-]. split; [by left|]. intros c [<-|[]]. by left.
  - subst cs. split; [discriminate|]. split; [discriminate|].
    split; [reflexivity|cbn; lia].
Qed.

Lemma choose_config_outcome (st : LoadState) (bglp : BG_LOADER_PARAMS)
    (s : World * list Event) :
  (choose_config P volumes st bglp s).1 =
  selected_outcome (errored st)
    (rank_envdata st !!! 0%nat) (rank_envdata st !!! 1%nat) bglp.
Proof.
  unfold choose_config, selected_outcome.
  destruct (rank_envdata st !!! 0%nat) as [next|]; [|reflexivity].
  destruct (in_progress (envdata next)); [reflexivity|].
  destruct (is_USTATE_TESTING (ustate (envdata next))).
  { run_monad.
    match goal with
    | |- context [save_current_config P volumes ?e s] =>
        destruct (save_current_config P volumes e s) as [[status e'] s']
    end.
    by destruct (rank_envdata st !!! 1%nat). }
  destruct (is_USTATE_INSTALLED (ustate (envdata next))); [|reflexivity].
  run_monad.
  match goal with
  | |- context [save_current_config P volumes ?e s] =>
      destruct (save_current_config_write_back P volumes e s)
        as (evs & _ & _ & _ & Hsame);
      destruct (save_current_config P volumes e s) as [[status e'] s']
  end.
  cbn [fst snd] in *.
  by rewrite (hand_over_crc_region (errored st) _ e' Hsame).
Qed.

(** The calls of the selection: none, or those of one write-back, of
    the leader marked as failed or as under test; then the index vector
    is released. *)
Lemma choose_config_trace (st : LoadState) (bglp : BG_LOADER_PARAMS)
    (s : World * list Event) :
  exists evs,
    (choose_config P volumes st bglp s).2.2 = s.2 ++ evs ++ [EvFreePool] /\
    (evs = [] \/
     exists leader e status,
       rank_envdata st !!! 0%nat = Some leader /\
       in_progress (envdata leader) = false /\
       write_back P volumes e evs status /\
       (ustate (envdata leader) = USTATE_TESTING /\ e = demoted leader \/
        ustate (envdata leader) = USTATE_INSTALLED /\ e = promoted leader)).
Proof.
  unfold choose_config. destruct s as [w tr].
  destruct (rank_envdata st !!! 0%nat) as [next|];
    [|exists []; by split; [|left]].
  destruct (in_progress (envdata next)) eqn:Hprogress;
    [exists []; by split; [|left]|].
  destruct (ustate (envdata next)) eqn:Hstate;
    cbn [is_USTATE_TESTING is_USTATE_INSTALLED];
    try (exists []; by split; [|left]);
    run_monad;
    match goal with
    | |- context [save_current_config P volumes ?e (w, tr)] =>
        destruct (save_current_config_write_back P volumes e (w, tr))
          as (evs & Htrace & Hwb & _);
        destruct (save_current_config P volumes e (w, tr))
          as [[status e'] [w' tr']]
    end;
    cbn [fst snd] in *; subst tr'; exists evs.
  - split; [by rewrite <- app_assoc|]. right.
    eexists next, _, status. split; [reflexivity|].
    split; [exact Hprogress|]. split; [exact Hwb|]. right. by split.
  - split.
    + destruct (rank_envdata st !!! 1%nat); unfold failed; run_monad;
        cbn [fst snd]; by rewrite <- app_assoc.
    + right. eexists next, _, status. split; [reflexivity|].
      split; [exact Hprogress|]. split; [exact Hwb|]. left. by split.
Qed.

Lemma write_back_handles (e : EnvDataVolume) (evs : list Event)
    (status : BG_STATUS) :
  write_back P volumes e evs status -> handles_run None evs = Some None.
Proof.
  intros Hwb.
  inversion Hwb as [st fh Hst|st fh st_crc crc st_close Hst Hcrc
                   |st fh st_crc crc st_write put st_close Hst Hcrc];
    cbn [handles_run]; by rewrite Hst, ?Z.eqb_refl.
Qed.

Lemma write_back_writes (e : EnvDataVolume) (evs : list Event)
    (status : BG_STATUS) :
  write_back P volumes e evs status ->
  (length (List.filter is_EvWrite evs) <= 1)%nat /\
  forall fh len buf st put,
    In (EvWrite fh len buf st put) evs ->
    len = sizeof_BG_ENVDATA P /\
    buf = set_crc32 (crc32 buf) (envdata e) /\
    exists st_open,
      In (EvOpen (root (volumes (volume_index e)))
            (Z.lor EFI_FILE_MODE_WRITE EFI_FILE_MODE_READ) st_open fh) evs /\
      EFI_ERROR st_open = false.
Proof.
  intros Hwb.
  inversion Hwb as [st fh Hst|st fh st_crc crc st_close Hst Hcrc
                   |st fh st_crc crc st_write put st_close Hst Hcrc];
    (split; [cbn; lia|]); intros fh' len buf st' put' Hin; cbn [In] in Hin;
    repeat (destruct Hin as [Hin|Hin]; try discriminate); try contradiction.
  injection Hin as <- <- <- <- <-. repeat split.
  exists st. split; [by left|exact Hst].
Qed.

(** X6.  [load_config] returns BG_CONFIG_ERROR exactly when every
    candidate it loaded is in progress (or it loaded none), or when it
    loaded a single candidate and this one is under test. *)
Theorem config_error_iff (bglp : BG_LOADER_PARAMS) (s : World * list Event) :
  let cs := config_candidates P volumes volume_count env s in
  (load_config P volumes volume_count env bglp s).1.1 = BG_CONFIG_ERROR <->
  Forall (fun c => in_progress (envdata c) = true) cs \/
  exists a, cs = [a] /\ ustate (envdata a) = USTATE_TESTING.
Proof.
  intros cs. subst cs. rewrite load_config_phases.
  pose proof (rank_configs_best_two s) as Hbest.
  destruct (rank_configs P volumes volume_count env s) as [[st|] s1];
    cbn [fst snd] in *.
  2:{ rewrite Hbest. split; [left; constructor|reflexivity]. }
  rewrite choose_config_outcome. unfold selected_outcome.
  destruct (best_two_members _ _ _ Hbest) as (Hfirst & Hsecond & Hnone & Hone).
  destruct (rank_envdata st !!! 0%nat) as [a|].
  2:{ rewrite (Hnone eq_refl). split; [left; constructor|reflexivity]. }
  destruct (Hfirst a eq_refl) as [Ha _].
  destruct (in_progress (envdata a)) eqn:Hprogress.
  { split; [intros _; left|reflexivity].
    apply Forall_forall. intros c Hc%list_elem_of_In.
    destruct (in_progress (envdata c)) eqn:Hc'; [reflexivity|].
    rewrite (leader_not_in_progress P volumes _ a _ Hbest) in Hprogress;
      [discriminate|eauto]. }
  assert (~ Forall (fun c => in_progress (envdata c) = true)
              (config_candidates P volumes volume_count env s)) as Hsome.
  { rewrite Forall_forall. intros Hall.
    apply list_elem_of_In, Hall in Ha. congruence. }
  destruct (is_USTATE_TESTING (ustate (envdata a))) eqn:Hstate.
  - destruct (rank_envdata st !!! 1%nat) as [b|].
    + destruct (Hsecond b eq_refl) as [_ Hlen].
      split; [by destruct (errored st)|].
      intros [Hall|(a' & Hcs & _)]; [contradiction|].
      rewrite Hcs in Hlen. cbn in Hlen. lia.
    + split; [intros _; right|reflexivity].
      cbn [best_two] in Hbest. exists a. split; [exact Hbest|].
      by destruct (ustate (envdata a)).
  - split; [by destruct (errored st)|].
    intros [Hall|(a' & Hcs & Htesting)]; [contradiction|].
    rewrite Hcs in Ha. destruct Ha as [->|[]].
    rewrite Htesting in Hstate. discriminate.
Qed.



(** X9.  No file is left open and the index vector is released.  In
    every run of [load_config], a file is opened only when none is
    open, read, written and closed only while it is the open one, and
    closed before the function returns; the last call of the run
    releases the index vector, and no call before it does. *)
Theorem load_config_handles (bglp : BG_LOADER_PARAMS)
    (s : World * list Event) :
  exists evs,
    (load_config P volumes volume_count env bglp s).2.2 =
      s.2 ++ evs ++ [EvFreePool] /\
    handles_run None evs = Some None.
Proof.
  rewrite load_config_phases.
  destruct (rank_configs_trace s) as (evs & Htrace & _ & Hclosed & _).
  destruct (rank_configs P volumes volume_count env s) as [[st|] [w1 tr1]];
    cbn [fst snd] in *; subst tr1.
  2:{ exists evs. unfold failed. run_monad. cbn [fst snd].
      by rewrite app_assoc. }
  destruct (choose_config_trace st bglp (w1, s.2 ++ evs))
    as (evs' & Htrace' & Hcalls).
  exists (evs ++ evs'). cbn [snd] in Htrace'.
  rewrite Htrace', <- !app_assoc. split; [reflexivity|].
  apply handles_closed_app; [exact Hclosed|].
  destruct Hcalls as [->|(leader & e & status & _ & _ & Hwb & _)];
    [reflexivity|].
  by apply write_back_handles in Hwb.
Qed.

(** X10.  What [load_config] writes.  In every run there is at most one
    write.  It is made to a file opened for writing on the volume of the
    leader of the candidates loaded, in one piece of the size of the
    record.  The record written is never in progress, and it is the
    leader's record with a new checksum and with its state changed: the
    leader is in state TESTING and the record written has [ustate]
    FAILED and [revision] REVISION_FAILED, or the leader is in state
    INSTALLED and the record written has [ustate] TESTING and the
    leader's revision; the strings, the in-progress flag and the
    timeout written are the leader's. *)
Theorem load_config_writes (bglp : BG_LOADER_PARAMS)
    (s : World * list Event) :
  exists evs,
    (load_config P volumes volume_count env bglp s).2.2 = s.2 ++ evs /\
    (length (List.filter is_EvWrite evs) <= 1)%nat /\
    forall fh len buf st put,
      In (EvWrite fh len buf st put) evs ->
      len = sizeof_BG_ENVDATA P /\
      in_progress buf = false /\
      exists leader,
        In leader (config_candidates P volumes volume_count env s) /\
        (forall c, In c (config_candidates P volumes volume_count env s) ->
           c = leader \/ not_preferred_to P volumes leader c) /\
        (exists st_open,
           In (EvOpen (root (volumes (volume_index leader)))
                 (Z.lor EFI_FILE_MODE_WRITE EFI_FILE_MODE_READ) st_open fh)
              evs /\
           EFI_ERROR st_open = false) /\
        (ustate (envdata leader) = USTATE_TESTING /\
         buf = set_crc32 (crc32 buf) (envdata (demoted leader)) /\
         ustate buf = USTATE_FAILED /\
         revision buf = REVISION_FAILED /\
         same_settings buf (envdata leader) \/
         ustate (envdata leader) = USTATE_INSTALLED /\
         buf = set_crc32 (crc32 buf) (envdata (promoted leader)) /\
         ustate buf = USTATE_TESTING /\
         revision buf = revision (envdata leader) /\
         same_settings buf (envdata leader)).
Proof.
  rewrite load_config_phases.
  pose proof (rank_configs_best_two s) as Hbest.
  destruct (rank_configs_trace s) as (evs & Htrace & Hquiet & _).
  pose proof (quiet_no_write evs Hquiet) as Hnone.
  assert (forall fh len buf st put, ~ In (EvWrite fh len buf st put) evs)
    as Hnowrite.
  { intros fh len buf st put Hin.
    assert (In (EvWrite fh len buf st put) (List.filter is_EvWrite evs))
      as Hin' by (by apply filter_In).
    by rewrite Hnone in Hin'. }
  destruct (rank_configs P volumes volume_count env s) as [[st|] [w1 tr1]];
    cbn [fst snd] in *; subst tr1.
  2:{ exists (evs ++ [EvFreePool]). unfold failed. run_monad. cbn [fst snd].
      rewrite app_assoc. split; [reflexivity|].
      rewrite List.filter_app, Hnone. split; [cbn; lia|].
      intros fh len buf st put [Hin|[Hin|[]]]%in_app_iff;
        [by apply Hnowrite in Hin|discriminate]. }
  destruct (choose_config_trace st bglp (w1, s.2 ++ evs))
    as (evs' & Htrace' & Hcalls).
  exists (evs ++ evs' ++ [EvFreePool]). cbn [snd] in Htrace'.
  rewrite Htrace', <- !app_assoc. split; [reflexivity|].
  rewrite !List.filter_app, Hnone. cbn [app List.filter is_EvWrite].
  rewrite app_nil_r.
  destruct Hcalls
    as [->|(leader & e & status & Hleader & Hprogress & Hwb & Hstate)].
  { split; [cbn; lia|].
    intros fh len buf st' put [Hin|[Hin|[]]]%in_app_iff;
      [by apply Hnowrite in Hin|discriminate]. }
  destruct (write_back_writes e evs' status Hwb) as [Hcount Hwrite].
  split; [exact Hcount|].
  intros fh len buf st' put Hin.
  apply in_app_iff in Hin as [Hin|Hin]; [by apply Hnowrite in Hin|].
  apply in_app_iff in Hin as [Hin|[Hin|[]]]; [|discriminate].
  destruct (Hwrite fh len buf st' put Hin)
    as (Hlen & Hbuf & st_open & Hopen & Hok).
  destruct (best_two_members _ _ _ Hbest) as (Hfirst & _).
  destruct (Hfirst leader Hleader) as [Hmember Hbest'].
  split; [exact Hlen|]. split.
  { rewrite Hbuf. by destruct Hstate as [[_ ->]|[_ ->]]. }
  exists leader. split; [exact Hmember|]. split; [exact Hbest'|]. split.
  { exists st_open. split; [|exact Hok].
    rewrite !in_app_iff. right. left.
    by destruct Hstate as [[_ ->]|[_ ->]]. }
  destruct Hstate as [[Hstate ->]|[Hstate ->]]; [left|right];
    (split; [exact Hstate|]); (split; [exact Hbuf|]);
    rewrite Hbuf; by repeat split.
Qed.

(** X11.  The reserve of slots is never exhausted.  After any number [k]
    of rounds of the loading loop, the ranking array has its three
    entries, the slots it points to and the slots left in the reserve
    are the three slots of [env], and a slot is left in the reserve
    whenever the last entry of the array is [NULL], which is when the
    next round takes one. *)
Theorem reserve_never_exhausted (flag : bool) (config_volumes : list nat)
    (k : nat) (s : World * list Event) :
  let st0 := {| rank_envdata := replicate ENVSLOTS None;
                envrsrv := ENVSLOTS; errored := flag |} in
  let st := (load_volumes P volumes env st0 (take k config_volumes) s).1 in
  length (rank_envdata st) = ENVSLOTS /\
  (slots_in_use (rank_envdata st) + envrsrv st = ENVSLOTS)%nat /\
  (is_Some (rank_envdata st !!! (ENVSLOTS - 1)%nat) \/
   (0 < envrsrv st <= ENVSLOTS)%nat).
Proof.
  intros st0 st.
  destruct (reserve_suffices P volumes env (take k config_volumes) st0 s)
    as [Hlen Hslots]; [reflexivity..|].
  fold st in Hlen, Hslots. split; [exact Hlen|]. split; [exact Hslots|].
  destruct (rank_envdata st !!! (ENVSLOTS - 1)%nat) as [slot|] eqn:Hlast;
    [by left; eexists|right].
  pose proof (reserve_available st Hlen Hslots Hlast). lia.
Qed.

(** X12.  The strings handed over stay within their arrays.  For a record
    whose two strings have ENV_STRING_LENGTH code units, the copies
    [StrDuplicate] makes of the terminated strings end with a NUL and
    have at most ENV_STRING_LENGTH code units; terminating changes the
    last code unit of each string only, and no other field. *)
Theorem nul_terminate_bounds (e : BG_ENVDATA) :
  (0 < ENV_STRING_LENGTH P)%nat ->
  length (kernelfile e) = ENV_STRING_LENGTH P ->
  length (kernelparams e) = ENV_STRING_LENGTH P ->
  let e' := nul_terminate P e in
  (length (StrDuplicate (kernelfile e')) <= ENV_STRING_LENGTH P)%nat /\
  (length (StrDuplicate (kernelparams e')) <= ENV_STRING_LENGTH P)%nat /\
  last (StrDuplicate (kernelfile e')) = Some 0 /\
  last (StrDuplicate (kernelparams e')) = Some 0 /\
  take (ENV_STRING_LENGTH P - 1) (kernelfile e') =
    take (ENV_STRING_LENGTH P - 1) (kernelfile e) /\
  take (ENV_STRING_LENGTH P - 1) (kernelparams e') =
    take (ENV_STRING_LENGTH P - 1) (kernelparams e) /\
  (in_progress e', ustate e', watchdog_timeout_sec e', revision e',
   crc32 e') =
  (in_progress e, ustate e, watchdog_timeout_sec e, revision e, crc32 e).
Proof.
  intros Hpos Hfile Hparams e'. subst e'. unfold nul_terminate.
  cbn [kernelfile kernelparams set_kernelfile set_kernelparams in_progress
       ustate watchdog_timeout_sec revision crc32].
  assert (forall str : list Z,
            length str = ENV_STRING_LENGTH P ->
            In 0 (<[(ENV_STRING_LENGTH P - 1)%nat := 0]> str) /\
            length (<[(ENV_STRING_LENGTH P - 1)%nat := 0]> str) =
              ENV_STRING_LENGTH P) as Hterminated.
  { intros str Hlen. split; [|by rewrite length_insert].
    apply list_elem_of_In, (list_elem_of_lookup_2 _ (ENV_STRING_LENGTH P - 1)).
    apply list_lookup_insert_eq. lia. }
  destruct (Hterminated _ Hfile) as [Hin1 Hlen1].
  destruct (Hterminated _ Hparams) as [Hin2 Hlen2].
  rewrite (StrDuplicate_text _ Hin1), (StrDuplicate_text _ Hin2).
  pose proof (StrLen_terminated _ Hin1). pose proof (StrLen_terminated _ Hin2).
  rewrite !length_app, !length_take, !last_snoc. cbn [length].
  repeat split; try lia; by rewrite take_insert_ge.
Qed.

End Outcome.

Section TestRuns.
Variable string_length num_config_parts : nat.
Variable size_of_envdata : Z.
Variable bgenv_crc32 : BG_ENVDATA -> Z.
Variable scenario : Z -> option BG_ENVDATA.
Hypothesis size_not_null : size_of_envdata <> 0.

Local Abbreviation test_platform :=
  (Harness.platform string_length num_config_parts size_of_envdata
     bgenv_crc32 scenario).
Local Abbreviation candidate :=
  (Harness.candidate_of string_length num_config_parts size_of_envdata
     bgenv_crc32 scenario).

Ltac test_calls :=
  repeat first
    [progress
       cbn [open_cfg_file read_cfg_file close_cfg_file CalculateCrc32
            file_Write AllocatePool enumerate_cfg_parts filter_cfg_parts
            sizeof_BG_ENVDATA Harness.platform fst snd negb
            Harness.INJECT_ERROR Harness.error_injection Harness.error_census
            Harness.config_file_protocol_wrote EFI_ERROR]
    |progress
       unfold Harness.volume_file_protocol_open,
         Harness.config_file_protocol_read,
         Harness.config_file_protocol_write,
         Harness.volume_file_protocol_close,
         Harness.CalculateCrc32, Harness.AllocatePool,
         Harness.enumerate_cfg_parts, Harness.filter_cfg_parts,
         EFI_INVALID_PARAMETER, EFI_BAD_BUFFER_SIZE, EFI_CRC_ERROR
    |rewrite Z.gtb_ltb, Z.ltb_irrefl
    |rewrite Z.eqb_refl
    |rewrite (proj2 (Z.eqb_neq 0 size_of_envdata)) by congruence
    |rewrite (proj2 (Z.eqb_neq size_of_envdata 0)) by congruence].

(** X13.  [save_current_config] on the doubles of the test.  It returns
    BG_SUCCESS exactly when the error is injected into none of its four
    calls; unless the error is injected into one of the first three,
    the record the test captures is the record of the slot with its
    checksum computed anew, so that the stored checksum is the computed
    one. *)
Theorem test_save_current_config (volumes : nat -> VOLUME_DESC)
    (e : EnvDataVolume) (w : Harness.World) (tr : list Event) :
  let r := save_current_config test_platform volumes e (w, tr) in
  let wrote := Harness.config_file_protocol_wrote r.2.1 in
  (r.1.1 = BG_SUCCESS <-> ~ (1 <= Harness.error_injection w <= 4)%nat) /\
  (if bool_decide (1 <= Harness.error_injection w <= 3)%nat
   then wrote = Harness.config_file_protocol_wrote w
   else wrote = set_crc32 (bgenv_crc32 (crc_region (envdata e))) (envdata e)
        /\ crc32 wrote = bgenv_crc32 (crc_region wrote)) /\
  Harness.error_injection r.2.1 = (Harness.error_injection w - 4)%nat.
Proof.
  destruct w as [census injection wrote0].
  unfold save_current_config. run_monad.
  destruct injection as [|[|[|[|[|n]]]]]; test_calls;
    (split;
     [split; intros; first [discriminate|reflexivity|lia]
     |split; [case_bool_decide; first [lia|reflexivity|by split]|lia]]).
Qed.

(** An injected error is not lost: [read_config] sets the flag when the
    error is injected into one of its calls. *)
Lemma test_read_config_injected (flag : bool) (v : VOLUME_DESC)
    (buf : BG_ENVDATA) (w : Harness.World) (tr : list Event) :
  (Harness.error_injection
     (read_config test_platform flag v buf (w, tr)).2.1
   <= Harness.error_injection w)%nat /\
  (Harness.error_injection w <> 0%nat ->
   Harness.error_injection
     (read_config test_platform flag v buf (w, tr)).2.1 = 0%nat ->
   (read_config test_platform flag v buf (w, tr)).1.1.1 = true).
Proof.
  destruct w as [census injection wrote0].
  unfold read_config. run_monad.
  destruct injection as [|[|[|[|[|n]]]]]; test_calls;
    try (split; [cbn; lia|intros; (reflexivity || congruence)]);
    destruct (scenario (root v)) as [e|]; test_calls;
    try (split; [cbn; lia|intros; (reflexivity || congruence)]);
    destruct (bgenv_crc32 (crc_region e) =? crc32 e); test_calls;
    (split; [cbn; lia|intros; (reflexivity || congruence || (cbn in *; lia))]).
Qed.

Lemma test_load_volumes_injected (volumes : nat -> VOLUME_DESC)
    (env : nat -> EnvDataVolume) (cvs : list nat) :
  forall (st : LoadState) (w : Harness.World) (tr : list Event),
    let r := load_volumes test_platform volumes env st cvs (w, tr) in
    (Harness.error_injection r.2.1 <= Harness.error_injection w)%nat /\
    (errored st = true -> errored r.1 = true) /\
    (Harness.error_injection w <> 0%nat ->
     Harness.error_injection r.2.1 = 0%nat -> errored r.1 = true).
Proof.
  induction cvs as [|cv cvs IH]; intros st w tr; cbn zeta.
  { cbn. repeat split; (lia || tauto || congruence). }
  cbn [load_volumes]. run_monad.
  assert (let r1 := load_volume test_platform volumes env st cv (w, tr) in
          (Harness.error_injection r1.2.1 <= Harness.error_injection w)%nat /\
          (errored st = true -> errored r1.1 = true) /\
          (Harness.error_injection w <> 0%nat ->
           Harness.error_injection r1.2.1 = 0%nat -> errored r1.1 = true))
    as Hround.
  { unfold load_volume, read_volume. run_monad.
    destruct (rank_envdata st !!! (ENVSLOTS - 1)%nat) as [slot|];
      match goal with
      | |- context [read_config test_platform false ?v ?b (w, tr)] =>
          destruct (test_read_config_injected false v b w tr)
            as [Hle Hflag];
          destruct (read_config test_platform false v b (w, tr))
            as [[[read_error status] buf] [w' tr']]
      end;
      cbn [fst snd] in *;
      destruct (EFI_ERROR status); cbn [fst snd errored];
      (split; [exact Hle|]);
      (split; [by intros ->|]);
      intros Hw Hw'; rewrite (Hflag Hw Hw'); apply orb_true_r. }
  destruct (load_volume test_platform volumes env st cv (w, tr))
    as [st1 [w1 tr1]].
  cbn zeta in Hround. cbn [fst snd] in Hround.
  destruct Hround as (Hle1 & Hkeep1 & Hflag1).
  destruct (IH st1 w1 tr1) as (Hle & Hkeep & Hflag).
  split; [lia|]. split; [tauto|].
  intros Hw Hw'.
  destruct (Nat.eq_dec (Harness.error_injection w1) 0%nat) as [Hw1|Hw1]; auto.
Qed.

(** X14.  An injected error is detected.  On the doubles of the test, when
    the error is injected into a call [load_config] makes up to the end
    of the loading loop, [load_config] does not return BG_SUCCESS. *)
Theorem injected_error_detected (volumes : nat -> VOLUME_DESC)
    (volume_count : nat) (env : nat -> EnvDataVolume)
    (bglp : BG_LOADER_PARAMS) (w : Harness.World) (tr : list Event) :
  Harness.error_injection w <> 0%nat ->
  Harness.error_injection
    (rank_configs test_platform volumes volume_count env (w, tr)).2.1
    = 0%nat ->
  (load_config test_platform volumes volume_count env bglp (w, tr)).1.1
    <> BG_SUCCESS.
Proof.
  rewrite load_config_phases. unfold rank_configs, config_partitions.
  run_monad. destruct w as [census injection wrote0].
  cbn [Harness.error_injection]. intros Hw.
  destruct (volume_count =? 0)%nat; [discriminate|].
  destruct injection as [|[|[|n]]]; [done| | |]; test_calls;
    try discriminate;
    match goal with
    | |- context [load_volumes _ _ _ ?st ?cvs (?w0, ?tr0)] =>
        destruct (test_load_volumes_injected volumes env cvs st w0 tr0)
          as (_ & Hkeep & Hflag);
        destruct (load_volumes test_platform volumes env st cvs (w0, tr0))
          as [st' [w' tr']]
    end;
    cbn [fst snd Harness.error_injection] in *; intros Hw';
    rewrite choose_config_outcome;
    (assert (errored st' = true) as -> by (by apply Hflag));
    unfold selected_outcome;
    repeat match goal with
           | |- context [match ?x with _ => _ end] => destruct x
           end; discriminate.
Qed.

Lemma test_volume_descs_length (config_parts : nat) :
  forall (first rest : VOLUME_DESC) (argp : list VOLUME_DESC),
    length (test_volume_descs config_parts first rest argp) = config_parts.
Proof.
  induction config_parts as [|parts IH]; intros first rest argp;
    [reflexivity|].
  cbn [test_volume_descs length]. by destruct argp; rewrite IH.
Qed.

(** Volume arrays that contribute the same candidates, in any order,
    make [load_config] hand over the same. *)
Lemma same_candidates_same_config (vs1 vs2 : list VOLUME_DESC)
    (env1 env2 : nat -> EnvDataVolume) (bglp : BG_LOADER_PARAMS)
    (w1 w2 : Harness.World) (tr1 tr2 : list Event) :
  omap candidate vs1 ≡ₚ omap candidate vs2 ->
  Harness.error_injection w1 = 0%nat ->
  Harness.error_injection w2 = 0%nat ->
  List.NoDup (map (tiebreak test_platform) (omap candidate vs2)) ->
  (load_config test_platform (Harness.volume_array vs1) (length vs1) env1
     bglp (w1, tr1)).1.2 =
  (load_config test_platform (Harness.volume_array vs2) (length vs2) env2
     bglp (w2, tr2)).1.2.
Proof.
  intros Hcands Hquiet1 Hquiet2 Hnodup.
  destruct (load_config_selects test_platform (Harness.volume_array vs1)
              (length vs1) env1 bglp (w1, tr1))
    as (r0 & r1 & Hbest & ->).
  destruct (load_config_selects test_platform (Harness.volume_array vs2)
              (length vs2) env2 bglp (w2, tr2))
    as (r0' & r1' & Hbest' & ->).
  destruct (ranked_records_agree test_platform _ _ _ _ _ _ _ _ Hbest Hbest')
    as [-> ->]; [| |reflexivity].
  - by rewrite !(test_candidates string_length num_config_parts
                   size_of_envdata bgenv_crc32 scenario size_not_null)
      by assumption.
  - rewrite (test_candidates string_length num_config_parts
               size_of_envdata bgenv_crc32 scenario size_not_null)
      by assumption.
    by rewrite Hcands.
Qed.

(** X15.  The volumes [create_test_volumes] makes.  The volume array has
    [volumeOffset] empty volumes and [config_parts] config volumes, in
    the order [shuffle_volumes] leaves.  Neither the empty volumes nor
    the order change what [load_config] hands over in a run without
    injected error: it is what it hands over on the config volumes
    alone, in the order they were given, when no two candidates tie on
    the criteria that come before the volume index. *)
Theorem create_test_volumes_same_config (random : nat -> nat)
    (config_parts : nat) (first rest : VOLUME_DESC)
    (argp : list VOLUME_DESC) (env1 env2 : nat -> EnvDataVolume)
    (bglp : BG_LOADER_PARAMS) (w1 w2 : Harness.World)
    (tr1 tr2 : list Event) :
  let descs := test_volume_descs config_parts first rest argp in
  let vs := create_test_volumes random config_parts first rest argp in
  Forall (fun v => root v <> 0) descs ->
  Harness.error_injection w1 = 0%nat ->
  Harness.error_injection w2 = 0%nat ->
  List.NoDup (map (tiebreak test_platform) (omap candidate descs)) ->
  length vs = (volumeOffset + config_parts)%nat /\
  vs ≡ₚ replicate volumeOffset {| devpath := 0; root := 0 |} ++ descs /\
  (load_config test_platform (Harness.volume_array vs) (length vs) env1
     bglp (w1, tr1)).1.2 =
  (load_config test_platform (Harness.volume_array descs) (length descs)
     env2 bglp (w2, tr2)).1.2.
Proof.
  intros descs vs _ Hquiet1 Hquiet2 Hnodup.
  assert (vs ≡ₚ replicate volumeOffset {| devpath := 0; root := 0 |} ++ descs)
    as Hperm by apply shuffle_rounds_perm.
  assert (length descs = config_parts) as Hparts
    by apply test_volume_descs_length.
  clearbody vs descs.
  assert (omap candidate vs ≡ₚ omap candidate descs) as Hcands.
  { rewrite Hperm, omap_app.
    assert (omap candidate
              (replicate volumeOffset {| devpath := 0; root := 0 |}) = [])
      as ->; [|reflexivity].
    generalize volumeOffset as n. clear. intros n.
    induction n as [|n IH]; [reflexivity|].
    cbn [replicate omap list_omap]. rewrite IH.
    unfold Harness.candidate_of. cbn [root].
    by destruct (decide (0 ≠ 0)). }
  split; [by rewrite Hperm, length_app, length_replicate, Hparts|].
  split; [exact Hperm|].
  by apply same_candidates_same_config.
Qed.

End TestRuns.

Section SiftOrder.
Context {World : Type} (P : Platform World).
Variable volumes : nat -> VOLUME_DESC.

Lemma option_preferred_asymmetric (a b : option EnvDataVolume) :
  spec_preferred P volumes a b = true ->
  spec_preferred P volumes b a = false.
Proof.
  destruct a as [x|], b as [y|];
    first [apply preferred_asymmetric|intros; reflexivity|discriminate].
Qed.

Lemma option_not_preferred_trans (a b c : option EnvDataVolume) :
  spec_preferred P volumes b a = false ->
  spec_preferred P volumes c b = false ->
  spec_preferred P volumes c a = false.
Proof.
  destruct c as [z|]; [|reflexivity].
  destruct b as [y|]; [|discriminate].
  destruct a as [x|]; [|discriminate].
  apply not_preferred_trans.
Qed.

(** X16.  The sifting loop is one pass of an insertion sort.  When the
    first two entries of the ranking array are in order, the loop
    leaves the three entries in order, the least preferred (or [NULL])
    last, and the array holds the same slots as before: no slot is
    lost and none is in two entries. *)
Theorem sift_loop_sorts (r0 r1 r2 : option EnvDataVolume) :
  spec_preferred P volumes r1 r0 = false ->
  exists a b c,
    sift_loop P volumes (ENVSLOTS - 1) [r0; r1; r2] = [a; b; c] /\
    [a; b; c] ≡ₚ [r0; r1; r2] /\
    spec_preferred P volumes b a = false /\
    spec_preferred P volumes c b = false /\
    spec_preferred P volumes c a = false.
Proof.
  intros H10. change (ENVSLOTS - 1)%nat with 2%nat.
  rewrite sift_loop_three, !sift_swaps_preferred.
  destruct (spec_preferred P volumes r2 r1) eqn:H21; cbn [fst snd].
  - pose proof (option_preferred_asymmetric _ _ H21) as H12.
    destruct (spec_preferred P volumes r2 r0) eqn:H20; cbn [fst snd];
      eexists _, _, _; (split; [reflexivity|]); split.
    + apply (Permutation_app_comm [r2] [r0; r1]).
    + split; [by apply option_preferred_asymmetric|]. by split.
    + apply perm_skip, perm_swap.
    + by repeat split.
  - rewrite H10. cbn [fst snd]. eexists _, _, _.
    split; [reflexivity|]. split; [reflexivity|].
    split; [exact H10|]. split; [exact H21|].
    by apply (option_not_preferred_trans r0 r1 r2).
Qed.

End SiftOrder.

Section HandOver.
Context {World : Type} (P : Platform World).



End HandOver.

Section TestVerdict.
Variable string_length num_config_parts : nat.
Variable size_of_envdata : Z.
Variable bgenv_crc32 : BG_ENVDATA -> Z.
Variable scenario : Z -> option BG_ENVDATA.
Hypothesis size_not_null : size_of_envdata <> 0.
Variable volumes : nat -> VOLUME_DESC.
Variable env : nat -> EnvDataVolume.

Local Abbreviation test_platform :=
  (Harness.platform string_length num_config_parts size_of_envdata
     bgenv_crc32 scenario).
Local Abbreviation record :=
  (Harness.record_of string_length num_config_parts size_of_envdata
     bgenv_crc32 scenario).
Local Abbreviation missing :=
  (fun cv : nat =>
     match record (volumes cv) with Some _ => false | None => true end).

(** Without injected error, a round flags the run exactly when no valid
    record is behind the volume. *)
Lemma test_round_flag (st : LoadState) (cv : nat) (w : Harness.World)
    (tr : list Event) :
  Harness.error_injection w = 0%nat ->
  errored (load_volume test_platform volumes env st cv (w, tr)).1 =
    errored st || missing cv /\
  Harness.error_injection
    (load_volume test_platform volumes env st cv (w, tr)).2.1 = 0%nat.
Proof.
  intros Hquiet. unfold load_volume, read_volume, Harness.record_of.
  run_monad.
  destruct (rank_envdata st !!! (ENVSLOTS - 1)%nat) as [slot|];
    match goal with
    | |- context [read_config test_platform false ?v ?b (w, tr)] =>
        destruct (test_read_config string_length num_config_parts
                    size_of_envdata bgenv_crc32 scenario size_not_null
                    false v b w tr Hquiet) as [Hlater Hread];
        destruct (read_config_faults test_platform false v b (w, tr))
          as (evs & _ & _ & Hhard & Hsoft);
        destruct (read_config test_platform false v b (w, tr))
          as [[[read_error status] buf] [w' tr']]
    end;
    cbn [fst snd set_volume_index volume_index] in *;
    (assert (EFI_ERROR status = true -> read_error = true) as Hflagged;
     [intros Hstatus; destruct (existsb (hard_fault test_platform) evs);
      [by destruct (Hhard eq_refl)
      |destruct (Hsoft eq_refl) as [Hok _]; congruence]|]);
    (destruct (scenario (root (volumes cv))) as [e|];
     [destruct (bgenv_crc32 (crc_region e) =? crc32 e);
      [injection Hread as -> -> ->|rewrite Hread, (Hflagged Hread)]
     |rewrite Hread, (Hflagged Hread)]);
    cbn [EFI_ERROR fst snd errored]; split; (reflexivity || exact Hlater).
Qed.

Lemma test_rounds_flag (cvs : list nat) :
  forall (st : LoadState) (w : Harness.World) (tr : list Event),
    Harness.error_injection w = 0%nat ->
    errored (load_volumes test_platform volumes env st cvs (w, tr)).1 =
      errored st ||
      existsb (missing) cvs.
Proof.
  induction cvs as [|cv cvs IH]; intros st w tr Hquiet.
  { cbn. by rewrite orb_false_r. }
  destruct (test_round_flag st cv w tr Hquiet) as [Hflag Hlater].
  cbn [load_volumes existsb]. run_monad.
  destruct (load_volume test_platform volumes env st cv (w, tr))
    as [st1 [w1 tr1]].
  cbn [fst snd] in *. by rewrite IH, Hflag, orb_assoc.
Qed.

(** X18.  The verdict of a run of the test without injected error, by the
    volumes.  The config volumes are those with a root that are not on
    the other disk.  [load_config] returns BG_SUCCESS only when there
    are ENV_NUM_CONFIG_PARTS of them and a valid record is behind each,
    BG_CONFIG_PARTIALLY_CORRUPTED only when their number is another or
    one of them has no valid record, and BG_CONFIG_ERROR with the
    loader parameters as they were. *)
Theorem test_verdict (volume_count : nat) (bglp : BG_LOADER_PARAMS)
    (w : Harness.World) (tr : list Event) :
  Harness.error_injection w = 0%nat ->
  let config_volumes :=
    filter (fun vx => devpath (volumes vx) ≠ Harness.non_boot_disk)
      (filter (fun vx => root (volumes vx) ≠ 0) (seq 0 volume_count)) in
  match
    (load_config test_platform volumes volume_count env bglp (w, tr)).1.1
  with
  | BG_SUCCESS =>
      length config_volumes = num_config_parts /\
      Forall (fun cv => is_Some (record (volumes cv))) config_volumes
  | BG_CONFIG_PARTIALLY_CORRUPTED =>
      length config_volumes <> num_config_parts \/
      Exists (fun cv => record (volumes cv) = None) config_volumes
  | BG_CONFIG_ERROR =>
      (load_config test_platform volumes volume_count env bglp (w, tr)).1.2
        = bglp
  | BG_NOT_IMPLEMENTED => False
  end.
Proof.
  destruct w as [census injection wrote0]. intros Hquiet cvs.
  cbn [Harness.error_injection] in Hquiet. subst injection.
  rewrite load_config_phases. unfold rank_configs, config_partitions.
  run_monad.
  destruct (volume_count =? 0)%nat; [reflexivity|].
  cbn [fst snd AllocatePool enumerate_cfg_parts filter_cfg_parts
       Harness.platform ENV_NUM_CONFIG_PARTS].
  unfold Harness.AllocatePool, Harness.enumerate_cfg_parts,
    Harness.filter_cfg_parts.
  cbn [Harness.INJECT_ERROR Harness.error_injection negb EFI_ERROR fst snd].
  fold cvs.
  match goal with
  | |- context [load_volumes _ _ _ ?st cvs (?w0, ?tr0)] =>
      pose proof (test_rounds_flag cvs st w0 tr0 eq_refl) as Hflag;
      destruct (load_volumes test_platform volumes env st cvs (w0, tr0))
        as [st' s']
  end.
  cbn [fst snd] in *. rewrite choose_config_outcome.
  unfold selected_outcome. rewrite Hflag.
  match goal with
  | |- context [errored (if ?b then ?x else ?y)] =>
      replace (errored (if b then x else y)) with b by (by destruct b)
  end.
  assert (if existsb (missing)
               cvs
          then Exists (fun cv => record (volumes cv) = None) cvs
          else Forall (fun cv => is_Some (record (volumes cv))) cvs)
    as Hrecords.
  { clear. induction cvs as [|cv cvs IH]; [constructor|].
    cbn [existsb]. destruct (record (volumes cv)) as [r|] eqn:Hrecord;
      cbn [orb].
    - destruct (existsb _ cvs).
      + by apply Exists_cons_tl.
      + constructor; [by eexists|exact IH].
    - by apply Exists_cons_hd. }
  assert (match (hand_over
                   (negb (length cvs =? num_config_parts)%nat
                    || existsb
                         missing cvs)
                   (env 0%nat)).1 with
          | BG_SUCCESS =>
              length cvs = num_config_parts /\
              Forall (fun cv => is_Some (record (volumes cv))) cvs
          | BG_CONFIG_PARTIALLY_CORRUPTED =>
              length cvs <> num_config_parts \/
              Exists (fun cv => record (volumes cv) = None) cvs
          | _ => False
          end) as Hverdict.
  { cbn [hand_over fst].
    destruct (Nat.eqb_spec (length cvs) num_config_parts);
      cbn [negb orb]; [|by left].
    destruct (existsb _ cvs); [by right|by split]. }
  cbn [hand_over fst] in Hverdict.
  destruct (rank_envdata st' !!! 0%nat) as [a|]; [|reflexivity].
  destruct (in_progress (envdata a)); [reflexivity|].
  destruct (is_USTATE_TESTING (ustate (envdata a)));
    [destruct (rank_envdata st' !!! 1%nat); [|reflexivity]|];
    cbn [hand_over fst];
    destruct (negb (length cvs =? num_config_parts)%nat
              || existsb
                   (missing)
                   cvs);
    exact Hverdict.
Qed.

End TestVerdict.

(** ** The further properties at scenarios of the unit test *)

Lemma StrDuplicate_copy_witness :
  In 0 (Fixtures.L Fixtures.str_first) /\
  StrCmp (StrDuplicate (Fixtures.L Fixtures.str_first))
    (Fixtures.L Fixtures.str_first) = 0.
Proof.
  assert (In 0 (Fixtures.L Fixtures.str_first)) as Hin.
  { do 5 right. by left. }
  split; [exact Hin|].
  apply (StrDuplicate_copy (Fixtures.L Fixtures.str_first) Hin).
Defined.

Lemma config_volumes_in_bounds_witness :
  EFI_ERROR
    (Harness.enumerate_cfg_parts
       (Harness.volume_array Fixtures.boot_and_other) 2
       (Fixtures.world 0)).1.1 = false /\
  List.NoDup
    (Harness.filter_cfg_parts (Harness.volume_array Fixtures.boot_and_other)
       (Harness.enumerate_cfg_parts
          (Harness.volume_array Fixtures.boot_and_other) 2
          (Fixtures.world 0)).1.2
       (Fixtures.world 0)).1.
Proof.
  split; [reflexivity|].
  apply (config_volumes_in_bounds
           (Harness.volume_array Fixtures.boot_and_other) 2
           (Fixtures.world 0) (Fixtures.world 0) eq_refl).
Defined.

Lemma nul_terminate_bounds_witness :
  (0 < ENV_STRING_LENGTH (Fixtures.platform Fixtures.num_cfg_parts))%nat /\
  length (kernelfile Fixtures.active) =
    ENV_STRING_LENGTH (Fixtures.platform Fixtures.num_cfg_parts) /\
  length (kernelparams Fixtures.active) =
    ENV_STRING_LENGTH (Fixtures.platform Fixtures.num_cfg_parts) /\
  last
    (StrDuplicate
       (kernelfile
          (nul_terminate (Fixtures.platform Fixtures.num_cfg_parts)
             Fixtures.active))) = Some 0.
Proof.
  assert (0 < ENV_STRING_LENGTH (Fixtures.platform Fixtures.num_cfg_parts))%nat
    as Hpos by (cbn; lia).
  assert (length (kernelfile Fixtures.active) =
          ENV_STRING_LENGTH (Fixtures.platform Fixtures.num_cfg_parts))
    as Hfile by (vm_compute; reflexivity).
  assert (length (kernelparams Fixtures.active) =
          ENV_STRING_LENGTH (Fixtures.platform Fixtures.num_cfg_parts))
    as Hparams by (vm_compute; reflexivity).
  split; [exact Hpos|]. split; [exact Hfile|]. split; [exact Hparams|].
  apply (nul_terminate_bounds (Fixtures.platform Fixtures.num_cfg_parts)
           Fixtures.active Hpos Hfile Hparams).
Defined.

Lemma test_save_current_config_witness :
  1032 <> 0 /\
  Harness.error_injection
    (save_current_config
       (Harness.platform 255 2 1032 Fixtures.bgenv_crc32
          (Fixtures.scenario_of Fixtures.rank_ustate_installed))
       (Harness.volume_array Fixtures.two_volumes)
       {| volume_index := 0; envdata := Fixtures.active |}
       (Fixtures.world 6, [])).2.1 =
  (Harness.error_injection (Fixtures.world 6) - 4)%nat.
Proof.
  assert (1032 <> 0) as Hsize by discriminate.
  split; [exact Hsize|].
  apply (test_save_current_config 255 2 1032 Fixtures.bgenv_crc32
           (Fixtures.scenario_of Fixtures.rank_ustate_installed) Hsize
           (Harness.volume_array Fixtures.two_volumes)
           {| volume_index := 0; envdata := Fixtures.active |}
           (Fixtures.world 6) []).
Defined.

Lemma injected_error_detected_witness :
  Harness.error_injection (Fixtures.world 3) <> 0%nat /\
  Harness.error_injection
    (rank_configs
       (Harness.platform 255 2 1032 Fixtures.bgenv_crc32
          (Fixtures.scenario_of Fixtures.num_cfg_parts))
       (Harness.volume_array Fixtures.two_volumes) 2 Fixtures.no_slots
       (Fixtures.world 3, [])).2.1 = 0%nat /\
  (load_config
     (Harness.platform 255 2 1032 Fixtures.bgenv_crc32
        (Fixtures.scenario_of Fixtures.num_cfg_parts))
     (Harness.volume_array Fixtures.two_volumes) 2 Fixtures.no_slots
     Fixtures.bglp0 (Fixtures.world 3, [])).1.1 <> BG_SUCCESS.
Proof.
  assert (1032 <> 0) as Hsize by discriminate.
  assert (Harness.error_injection (Fixtures.world 3) <> 0%nat) as Hset
    by discriminate.
  assert (Harness.error_injection
            (rank_configs
               (Harness.platform 255 2 1032 Fixtures.bgenv_crc32
                  (Fixtures.scenario_of Fixtures.num_cfg_parts))
               (Harness.volume_array Fixtures.two_volumes) 2
               Fixtures.no_slots (Fixtures.world 3, [])).2.1 = 0%nat)
    as Hfired by (vm_compute; reflexivity).
  split; [exact Hset|]. split; [exact Hfired|].
  apply (injected_error_detected 255 2 1032 Fixtures.bgenv_crc32
           (Fixtures.scenario_of Fixtures.num_cfg_parts) Hsize
           (Harness.volume_array Fixtures.two_volumes) 2 Fixtures.no_slots
           Fixtures.bglp0 (Fixtures.world 3) [] Hset Hfired).
Defined.

Lemma create_test_volumes_same_config_witness :
  Forall (fun v => root v <> 0)
    (test_volume_descs 2 {| devpath := 0; root := 101 |}
       {| devpath := 0; root := 102 |} []) /\
  length
    (create_test_volumes (fun _ => 7%nat) 2 {| devpath := 0; root := 101 |}
       {| devpath := 0; root := 102 |} []) =
  (volumeOffset + 2)%nat.
Proof.
  assert (1032 <> 0) as Hsize by discriminate.
  assert (Forall (fun v => root v <> 0)
            (test_volume_descs 2 {| devpath := 0; root := 101 |}
               {| devpath := 0; root := 102 |} [])) as Hroots.
  { repeat constructor; discriminate. }
  split; [exact Hroots|].
  apply (create_test_volumes_same_config 255 2 1032 Fixtures.bgenv_crc32
           (Fixtures.scenario_of Fixtures.num_cfg_parts) Hsize
           (fun _ => 7%nat) 2 {| devpath := 0; root := 101 |}
           {| devpath := 0; root := 102 |} [] Fixtures.no_slots
           Fixtures.no_slots Fixtures.bglp0 (Fixtures.world 0)
           (Fixtures.world 0) [] [] Hroots eq_refl eq_refl).
  vm_compute. repeat constructor; cbn; intuition discriminate.
Defined.

Lemma sift_loop_sorts_witness :
  spec_preferred (Fixtures.platform Fixtures.num_cfg_parts)
    (Harness.volume_array Fixtures.two_volumes)
    (Some {| volume_index := 1; envdata := Fixtures.inactive |})
    (Some {| volume_index := 0; envdata := Fixtures.active |}) = false /\
  exists a b c,
    sift_loop (Fixtures.platform Fixtures.num_cfg_parts)
      (Harness.volume_array Fixtures.two_volumes) (ENVSLOTS - 1)
      [Some {| volume_index := 0; envdata := Fixtures.active |};
       Some {| volume_index := 1; envdata := Fixtures.inactive |};
       Some {| volume_index := 1; envdata := Fixtures.active |}] =
      [a; b; c] /\
    [a; b; c] ≡ₚ
      [Some {| volume_index := 0; envdata := Fixtures.active |};
       Some {| volume_index := 1; envdata := Fixtures.inactive |};
       Some {| volume_index := 1; envdata := Fixtures.active |}] /\
    spec_preferred (Fixtures.platform Fixtures.num_cfg_parts)
      (Harness.volume_array Fixtures.two_volumes) b a = false /\
    spec_preferred (Fixtures.platform Fixtures.num_cfg_parts)
      (Harness.volume_array Fixtures.two_volumes) c b = false /\
    spec_preferred (Fixtures.platform Fixtures.num_cfg_parts)
      (Harness.volume_array Fixtures.two_volumes) c a = false.
Proof.
  assert (spec_preferred (Fixtures.platform Fixtures.num_cfg_parts)
            (Harness.volume_array Fixtures.two_volumes)
            (Some {| volume_index := 1; envdata := Fixtures.inactive |})
            (Some {| volume_index := 0; envdata := Fixtures.active |})
          = false) as Hordered by (vm_compute; reflexivity).
  split; [exact Hordered|].
  apply (sift_loop_sorts (Fixtures.platform Fixtures.num_cfg_parts)
           (Harness.volume_array Fixtures.two_volumes) _ _ _ Hordered).
Defined.


Lemma test_verdict_witness :
  Harness.error_injection (Fixtures.world 0) = 0%nat /\
  length
    (filter
       (fun vx =>
          devpath (Harness.volume_array Fixtures.two_volumes vx)
          ≠ Harness.non_boot_disk)
       (filter
          (fun vx => root (Harness.volume_array Fixtures.two_volumes vx) ≠ 0)
          (seq 0 2))) = 2%nat.
Proof.
  assert (1032 <> 0) as Hsize by discriminate.
  split; [reflexivity|].
  pose proof (test_verdict 255 2 1032 Fixtures.bgenv_crc32
                (Fixtures.scenario_of Fixtures.num_cfg_parts) Hsize
                (Harness.volume_array Fixtures.two_volumes) Fixtures.no_slots
                2 Fixtures.bglp0 (Fixtures.world 0) [] eq_refl) as Hverdict.
  cbv zeta in Hverdict.
  assert ((load_config
             (Harness.platform 255 2 1032 Fixtures.bgenv_crc32
                (Fixtures.scenario_of Fixtures.num_cfg_parts))
             (Harness.volume_array Fixtures.two_volumes) 2 Fixtures.no_slots
             Fixtures.bglp0 (Fixtures.world 0, [])).1.1 = BG_SUCCESS)
    as Hstatus by (vm_compute; reflexivity).
  rewrite Hstatus in Hverdict. exact (proj1 Hverdict).
Defined.
